(** * Wazuh rules distribution: deployment pullers and audit ledger

    A shallow embedding of

    - [api-server/models.py]: the SQLite ledger ([log_deployment],
      [get_deployment_stats]);
    - [server-scripts/pull_rules.py]: the Git based puller;
    - [server-scripts/api_puller.py]: the API based puller;
    - [api-server/auth.py] and [api-server/app.py]: the keys, the
      registration of nodes, the packages and the endpoints that write to
      the ledger.

    Tables are finite maps and lists; the file system is a record of flat
    directories; the pullers are written in a state-and-exception monad whose
    state is the file system together with a record of the external calls
    that were made. *)

From stdpp Require Import gmap strings list fin_maps sorting.
From Stdlib Require Import ZArith QArith Lia.

Open Scope string_scope.
Open Scope list_scope.
Open Scope Z_scope.

(** ** The audit ledger ([api-server/models.py]) *)

Module Ledger.

(** Timestamps.  The code stores [datetime.now().isoformat()] in [TEXT]
    columns and compares them as strings; ISO-8601 strings of one format
    order as the instants they denote, so an instant is an integer
    (microseconds) here and the comparison is the one on [Z]. *)
Definition Timestamp := Z.

Definition microseconds_per_day : Z := 86400 * 1000000.

(** One row of table [deployments].  Column [success] is an [INTEGER]; the
    code writes [int(success)] into it. *)
Record DeploymentRow := {
  deployment_id : string;
  d_server_id : string;
  action : string;
  rules_count : Z;
  decoders_count : Z;
  success : Z;
  error_message : string;
  package_size : Z;
  client_ip : string;
  timestamp : Timestamp
}.

(** One row of table [servers], without its key: column [server_id] is
    [UNIQUE NOT NULL], the table is a map from it.  [last_success] and
    [description] are nullable. *)
Record ServerRow := {
  description : option string;
  first_seen : Timestamp;
  last_seen : Timestamp;
  deployment_count : Z;
  last_success : option Timestamp;
  is_active : Z
}.

(** The two tables that [log_deployment] and [get_deployment_stats] touch;
    table [api_keys] belongs to the authentication layer. *)
Record DB := {
  servers : gmap string ServerRow;
  deployments : list DeploymentRow
}.

(** [init_db] on a fresh database file: empty tables. *)
Definition init_db : DB :=
  {| servers := ∅; deployments := [] |}.

(** Python's [int] on the [bool] that the signature of [log_deployment]
    asks for. *)
Definition int_of_bool (b : bool) : Z := if b then 1 else 0.

(** The [UPDATE servers SET ...] statement of [log_deployment], on one row. *)
Definition update_server_stats (ts : Timestamp) (success_int : Z)
    (r : ServerRow) : ServerRow :=
  {| description := description r;
     first_seen := first_seen r;
     last_seen := ts;
     deployment_count := deployment_count r + 1;
     last_success := if decide (success_int = 1) then Some ts else last_success r;
     is_active := is_active r |}.

(** The row created by [INSERT INTO servers (server_id, first_seen,
    last_seen, deployment_count) VALUES (?, ?, ?, 1)]: the columns that are
    not listed take their defaults ([description] and [last_success] NULL,
    [is_active] 1). *)
Definition new_server_row (ts : Timestamp) : ServerRow :=
  {| description := None;
     first_seen := ts;
     last_seen := ts;
     deployment_count := 1;
     last_success := None;
     is_active := 1 |}.

(** [log_deployment].  The two values the function draws from its
    environment, [uuid.uuid4()] and [datetime.now()], are arguments; a fresh
    UUID is taken never to collide with a stored [deployment_id].  The result
    is the returned id and the database after [commit]. *)
Definition log_deployment (uuid4 : string) (now : Timestamp)
    (server_id action : string) (rules_count decoders_count : Z)
    (success : bool) (error_message : string) (package_size : Z)
    (client_ip : string) (db : DB) : string * DB :=
  let deployment_id := uuid4 in
  let timestamp := now in
  (* INSERT INTO deployments *)
  let row :=
    {| deployment_id := deployment_id; d_server_id := server_id;
       action := action; rules_count := rules_count;
       decoders_count := decoders_count; success := int_of_bool success;
       error_message := error_message; package_size := package_size;
       client_ip := client_ip; timestamp := timestamp |} in
  let deployments1 := deployments db ++ [row] in
  (* UPDATE servers ... WHERE server_id = ? *)
  let servers1 :=
    alter (update_server_stats timestamp (int_of_bool success)) server_id
      (servers db) in
  (* SELECT 1 FROM servers WHERE server_id = ?; INSERT when there is none *)
  let servers2 :=
    match servers1 !! server_id with
    | Some _ => servers1
    | None => <[server_id := new_server_row timestamp]> servers1
    end in
  (deployment_id,
   {| servers := servers2; deployments := deployments1 |}).

(** SQL aggregates over the selected rows: [COUNT( * )] is the number of
    rows, [SUM] of no row is NULL. *)
Definition sql_count {A} (rows : list A) : Z := Z.of_nat (length rows).

Definition sql_sum (xs : list Z) : option Z :=
  match xs with
  | [] => None
  | _ => Some (foldr Z.add 0 xs)
  end.

(** [CASE WHEN success = v THEN 1 ELSE 0 END]. *)
Definition case_success (v : Z) (r : DeploymentRow) : Z :=
  if decide (success r = v) then 1 else 0.

(** [WHERE timestamp >= ?]. *)
Definition in_window (cutoff_date : Timestamp) (rows : list DeploymentRow)
    : list DeploymentRow :=
  filter (λ r, cutoff_date ≤ timestamp r) rows.

(** [GROUP BY]: the selected rows of each key. *)
Definition group_by `{Countable K} (key : DeploymentRow -> K)
    (rows : list DeploymentRow) : gmap K (list DeploymentRow) :=
  foldr (λ r g, <[key r := r :: default [] (g !! key r)]> g) ∅ rows.

(** [DATE(timestamp)]: the day of an instant. *)
Definition DATE (ts : Timestamp) : Z := ts `div` microseconds_per_day.

(** Python's [part / total * 100], as an exact rational; the code computes
    it in binary floating point. *)
Definition percent (part total : Z) : Q := (inject_Z part / inject_Z total * 100)%Q.

Record Stats := {
  total_deployments : Z;
  successful : option Z;
  failed : option Z;
  success_rate : option Q;
  by_server : gmap string (Z * option Z);
  daily : gmap Z (Z * option Z);
  timeframe_days : Z
}.

(** [get_deployment_stats].  [now] is the value of [datetime.now()]; the
    result pairs the returned dictionary with the database when the
    connection is closed.  The aggregate query always yields one row,
    [total_row], so the [if total_row] guards take their first branch.
    [success_rate] is [Some 0] for the integer [0] of the [else] branch
    and [None] where the division would raise on a NULL sum.  The two
    breakdowns are kept as maps, without the order of [ORDER BY]. *)
Definition get_deployment_stats (now : Timestamp) (days : Z) (db : DB)
    : Stats * DB :=
  let cutoff_date := now - days * microseconds_per_day in
  let rows := in_window cutoff_date (deployments db) in
  let total_row :=
    (sql_count rows, sql_sum (case_success 1 <$> rows),
     sql_sum (case_success 0 <$> rows)) in
  let per_group (g : list DeploymentRow) :=
    (sql_count g, sql_sum (case_success 1 <$> g)) in
  ({| total_deployments := total_row.1.1;
      successful := total_row.1.2;
      failed := total_row.2;
      success_rate :=
        if decide (0 < total_row.1.1)
        then (λ s, percent s total_row.1.1) <$> total_row.1.2
        else Some 0%Q;
      by_server := per_group <$> group_by d_server_id rows;
      daily := per_group <$> group_by (λ r, DATE (timestamp r)) rows;
      timeframe_days := days |},
   db).

(** *** Sequences of recorded deployments *)

(** One call of [log_deployment] with everything it reads. *)
Record Call := {
  c_uuid : string;
  c_now : Timestamp;
  c_server_id : string;
  c_action : string;
  c_rules : Z;
  c_decoders : Z;
  c_success : bool;
  c_error : string;
  c_size : Z;
  c_ip : string
}.

Definition apply_call (db : DB) (c : Call) : DB :=
  (log_deployment (c_uuid c) (c_now c) (c_server_id c) (c_action c)
     (c_rules c) (c_decoders c) (c_success c) (c_error c) (c_size c)
     (c_ip c) db).2.

Definition run_calls (db : DB) (cs : list Call) : DB := foldl apply_call db cs.

(** The calls made for one node, and the rows stored for it. *)
Definition calls_for (sid : string) (cs : list Call) : list Call :=
  filter (λ c, c_server_id c = sid) cs.

Definition records_for (sid : string) (db : DB) : list DeploymentRow :=
  filter (λ r, d_server_id r = sid) (deployments db).

(** *** Facts about [log_deployment] *)

Section LogDeployment.

Variables (uuid4 : string) (now : Timestamp) (server_id action : string).
Variables (rules_count decoders_count : Z) (success : bool).
Variables (error_message : string) (package_size : Z) (client_ip : string).
Variable db : DB.

Let db' : DB :=
  (log_deployment uuid4 now server_id action rules_count decoders_count
     success error_message package_size client_ip db).2.

Lemma log_deployment_absent :
  servers db !! server_id = None →
  servers db' !! server_id = Some (new_server_row now).
Proof.
  intros Hnone. subst db'. unfold log_deployment. cbn.
  rewrite lookup_alter_eq, Hnone. cbn. apply lookup_insert_eq.
Qed.

Lemma log_deployment_present r :
  servers db !! server_id = Some r →
  servers db' !! server_id
  = Some (update_server_stats now (int_of_bool success) r).
Proof.
  intros Hsome. subst db'. unfold log_deployment. cbn.
  rewrite lookup_alter_eq, Hsome. cbn.
  by rewrite lookup_alter_eq, Hsome.
Qed.

Lemma log_deployment_other sid :
  sid ≠ server_id → servers db' !! sid = servers db !! sid.
Proof.
  intros Hne. subst db'. unfold log_deployment. cbn.
  destruct (alter _ server_id (servers db) !! server_id).
  - by rewrite lookup_alter_ne.
  - rewrite lookup_insert_ne by done. by rewrite lookup_alter_ne.
Qed.

Lemma log_deployment_rows :
  ∃ row, deployments db' = deployments db ++ [row]
         ∧ d_server_id row = server_id
         ∧ timestamp row = now
         ∧ Ledger.success row = int_of_bool success.
Proof. subst db'. unfold log_deployment. cbn. by eexists. Qed.

End LogDeployment.

(** [apply_call] through the same three cases. *)
Lemma apply_call_absent db c :
  servers db !! c_server_id c = None →
  servers (apply_call db c) !! c_server_id c = Some (new_server_row (c_now c)).
Proof. apply log_deployment_absent. Qed.

Lemma apply_call_present db c r :
  servers db !! c_server_id c = Some r →
  servers (apply_call db c) !! c_server_id c
  = Some (update_server_stats (c_now c) (int_of_bool (c_success c)) r).
Proof. apply log_deployment_present. Qed.

Lemma apply_call_other db c sid :
  sid ≠ c_server_id c → servers (apply_call db c) !! sid = servers db !! sid.
Proof. apply log_deployment_other. Qed.

Lemma calls_for_snoc sid cs c :
  calls_for sid (cs ++ [c])
  = calls_for sid cs ++ (if decide (c_server_id c = sid) then [c] else []).
Proof.
  unfold calls_for. by rewrite filter_app.
Qed.

Lemma records_for_apply_call sid db c :
  length (records_for sid (apply_call db c))
  = (length (records_for sid db)
     + (if decide (c_server_id c = sid) then 1 else 0))%nat.
Proof.
  unfold records_for, apply_call, log_deployment. cbn.
  rewrite filter_app, length_app. f_equal.
  rewrite filter_cons, filter_nil. cbn. by destruct (decide _).
Qed.

(** What the ledger knows of node [sid] after the calls [cs] were applied to
    the empty database: the row exists exactly when a call was made for the
    node, its counter is the number of those calls, and [first_seen] is the
    clock reading of one of them. *)
Definition node_consistent (sid : string) (cs : list Call) (db : DB) : Prop :=
  length (records_for sid db) = length (calls_for sid cs)
  ∧ match servers db !! sid with
    | None => calls_for sid cs = []
    | Some row =>
        deployment_count row = Z.of_nat (length (calls_for sid cs))
        ∧ (0 < length (calls_for sid cs))%nat
        ∧ first_seen row ≤ last_seen row
        ∧ ∃ c, c ∈ cs ∧ first_seen row = c_now c
    end.

(** The clock readings of successive calls do not decrease. *)
Definition clock_monotone (cs : list Call) : Prop :=
  StronglySorted Z.le (c_now <$> cs).

Lemma clock_monotone_snoc cs c :
  clock_monotone (cs ++ [c]) →
  clock_monotone cs ∧ ∀ c', c' ∈ cs → c_now c' ≤ c_now c.
Proof.
  unfold clock_monotone. rewrite fmap_app. intros Hmono. split.
  - by eapply StronglySorted_app_1_l.
  - intros c' Hc'. eapply StronglySorted_app_1_elem_of; [done| |].
    + by apply list_elem_of_fmap_2.
    + cbn. apply list_elem_of_here.
Qed.

Lemma node_consistent_run sid db0 cs :
  servers db0 !! sid = None →
  records_for sid db0 = [] →
  clock_monotone cs → node_consistent sid cs (run_calls db0 cs).
Proof.
  intros Hnone Hrows.
  induction cs as [|c cs IH] using rev_ind; intros Hmono.
  - split; cbn; [by rewrite Hrows|by rewrite Hnone].
  - apply clock_monotone_snoc in Hmono as [Hmono Hle].
    specialize (IH Hmono). unfold run_calls in *. rewrite foldl_snoc.
    destruct IH as [Hrec Hrow]. split.
    + rewrite records_for_apply_call, calls_for_snoc, length_app, Hrec.
      by destruct (decide _).
    + rewrite calls_for_snoc, length_app.
      destruct (decide (c_server_id c = sid)) as [<-|Hne].
      * destruct (servers (foldl apply_call db0 cs) !! c_server_id c)
          as [row|] eqn:Hlook.
        -- rewrite (apply_call_present _ _ _ Hlook). cbn.
           destruct Hrow as (Hcount & Hpos & Hseen & c0 & Hc0 & Hfirst).
           repeat split; [lia|lia| |].
           ++ rewrite Hfirst. by apply Hle.
           ++ exists c0. split; [set_solver|done].
        -- rewrite (apply_call_absent _ _ Hlook). cbn. rewrite Hrow. cbn.
           repeat split; [lia|lia|]. exists c. split; [set_solver|done].
      * rewrite apply_call_other by done. rewrite app_nil_r, Nat.add_0_r.
        destruct (servers (foldl apply_call db0 cs) !! sid); [|done].
        destruct Hrow as (Hcount & Hpos & Hseen & c0 & Hc0 & Hfirst).
        repeat split; [done..|]. exists c0. split; [set_solver|done].
Qed.

(** Failed deployments of a node, and any deployment of another node, leave
    the node's [last_success] as it is. *)
Definition no_success_for (sid : string) (cs : list Call) : Prop :=
  ∀ c, c ∈ cs → c_server_id c = sid → c_success c = false.

Lemma last_success_kept sid cs db row :
  servers db !! sid = Some row →
  no_success_for sid cs →
  ∃ row', servers (run_calls db cs) !! sid = Some row'
          ∧ last_success row' = last_success row
          ∧ deployment_count row'
            = deployment_count row + Z.of_nat (length (calls_for sid cs)).
Proof.
  revert db row. induction cs as [|c cs IH]; intros db row Hrow Hfail.
  - exists row. cbn. split; [done|]. split; [done|lia].
  - assert (Hcs : no_success_for sid cs).
    { intros c' Hc'. apply Hfail. set_solver. }
    change (run_calls db (c :: cs)) with (run_calls (apply_call db c) cs).
    unfold calls_for. rewrite filter_cons. fold (calls_for sid cs).
    destruct (decide (c_server_id c = sid)) as [Heq|Hne].
    + assert (Hc : c_success c = false) by (apply Hfail; [set_solver|done]).
      subst sid.
      destruct (IH (apply_call db c) _ (apply_call_present _ _ _ Hrow) Hcs)
        as (row' & Hlook & Hlast & Hcount).
      exists row'. split; [done|]. rewrite Hlast, Hcount, Hc. cbn.
      split; [done|lia].
    + assert (Hrow' : servers (apply_call db c) !! sid = Some row)
        by (by rewrite apply_call_other).
      destruct (IH _ _ Hrow' Hcs) as (row' & Hlook & Hlast & Hcount).
      by exists row'.
Qed.

(** *** Facts about [get_deployment_stats] *)

(** Column [success] holds 0 or 1 in every row that [log_deployment] wrote. *)
Definition success_is_flag (r : DeploymentRow) : Prop :=
  success r = 0 ∨ success r = 1.

Lemma run_calls_flags db cs :
  Forall success_is_flag (deployments db) →
  Forall success_is_flag (deployments (run_calls db cs)).
Proof.
  revert db. induction cs as [|c cs IH]; intros db Hdb; [done|].
  apply IH. unfold apply_call, log_deployment. cbn.
  apply Forall_app. split; [done|]. apply Forall_singleton.
  unfold success_is_flag. cbn. destruct (c_success c); cbn; lia.
Qed.

Lemma sum_case_success rows :
  Forall success_is_flag rows →
  foldr Z.add 0 (case_success 1 <$> rows)
  + foldr Z.add 0 (case_success 0 <$> rows)
  = sql_count rows.
Proof.
  unfold sql_count. induction 1 as [|r rows Hr _ IH]; [done|].
  cbn [fmap list_fmap foldr length]. unfold case_success at 1 3.
  destruct Hr as [Hr|Hr]; rewrite Hr;
    repeat (destruct (decide _); try lia).
Qed.

Lemma elem_of_in_window cutoff rows r :
  r ∈ in_window cutoff rows ↔ cutoff ≤ timestamp r ∧ r ∈ rows.
Proof. unfold in_window. by rewrite list_elem_of_filter. Qed.

Lemma stats_read_only now days db : (get_deployment_stats now days db).2 = db.
Proof. done. Qed.

Lemma stats_total now days db :
  total_deployments (get_deployment_stats now days db).1
  = sql_count (in_window (now - days * microseconds_per_day) (deployments db)).
Proof. done. Qed.

(** A window with at least one row: the two sums are numbers and add up to
    the total, and the rate is their quotient. *)
Lemma stats_counts_sum now days db :
  Forall success_is_flag (deployments db) →
  in_window (now - days * microseconds_per_day) (deployments db) ≠ [] →
  let stats := (get_deployment_stats now days db).1 in
  ∃ s f, successful stats = Some s ∧ failed stats = Some f
         ∧ s + f = total_deployments stats
         ∧ 0 < total_deployments stats
         ∧ success_rate stats = Some (percent s (total_deployments stats)).
Proof.
  intros Hflags Hrows stats. subst stats. unfold get_deployment_stats.
  cbn [fst snd total_deployments successful failed success_rate].
  set (rows := in_window _ _) in *.
  assert (Hsub : Forall success_is_flag rows).
  { apply Forall_forall. intros r [_ Hr]%elem_of_in_window.
    by eapply Forall_forall in Hflags. }
  assert (Hpos : 0 < sql_count rows).
  { unfold sql_count. destruct rows; [done|]. cbn. lia. }
  exists (foldr Z.add 0 (case_success 1 <$> rows)),
         (foldr Z.add 0 (case_success 0 <$> rows)).
  rewrite sum_case_success by done. rewrite decide_True by done.
  destruct rows; [done|]. done.
Qed.

(** So it is on every ledger that calls of [log_deployment] have filled. *)
Lemma stats_counts_sum_logged now days cs :
  let db := run_calls init_db cs in
  in_window (now - days * microseconds_per_day) (deployments db) ≠ [] →
  let stats := (get_deployment_stats now days db).1 in
  ∃ s f, successful stats = Some s ∧ failed stats = Some f
         ∧ s + f = total_deployments stats
         ∧ 0 < total_deployments stats
         ∧ success_rate stats = Some (percent s (total_deployments stats)).
Proof.
  intros db Hrows. apply stats_counts_sum; [|done].
  by apply run_calls_flags, Forall_nil.
Qed.

(** A window without a row: the two sums are NULL. *)
Lemma stats_empty_window now days db :
  in_window (now - days * microseconds_per_day) (deployments db) = [] →
  let stats := (get_deployment_stats now days db).1 in
  total_deployments stats = 0 ∧ successful stats = None ∧ failed stats = None
  ∧ success_rate stats = Some 0%Q.
Proof.
  intros Hrows stats. subst stats. unfold get_deployment_stats.
  cbn [fst snd total_deployments successful failed success_rate].
  by rewrite Hrows.
Qed.

End Ledger.

(** ** The node's file system and the calls a run makes *)

(** The two categories of files a node holds. *)
Inductive Category := Rules | Decoders.

(** A directory tree with an optional [rules] and an optional [decoders]
    subdirectory; each is flat, a map from file name to content, and [None]
    when the directory does not exist.  The live configuration is such a
    tree ([/var/ossec/etc/rules], [/var/ossec/etc/decoders]), and so are the
    backup directory, the Git working copy and an unpacked package. *)
Record Tree := {
  t_rules : option (gmap string string);
  t_decoders : option (gmap string string)
}.

Definition subdir (c : Category) (t : Tree) : option (gmap string string) :=
  match c with Rules => t_rules t | Decoders => t_decoders t end.

Definition set_subdir (c : Category) (d : option (gmap string string))
    (t : Tree) : Tree :=
  match c with
  | Rules => {| t_rules := d; t_decoders := t_decoders t |}
  | Decoders => {| t_rules := t_rules t; t_decoders := d |}
  end.

(** A line of [/var/log/wazuh/rules_pull.log].  The four other fields of the
    entry (time, server id, repository and branch) are the clock and
    configuration values. *)
Record LogEntry := {
  le_success : bool;
  rules_deployed : nat;
  decoders_deployed : nat;
  le_error : string
}.

Global Instance LogEntry_eq_dec : EqDecision LogEntry.
Proof. solve_decision. Defined.

(** The calls of a run that reach outside the process, in order. *)
Inductive Event :=
  | EvApiList                       (* GET /rules *)
  | EvBackup                        (* copy of the live directories begins *)
  | EvGit                           (* git fetch / checkout / pull / clone *)
  | EvDownload                      (* GET /rules/latest *)
  | EvExtract                       (* the archive is unpacked *)
  | EvDeploy                        (* deploy_files is entered *)
  | EvRestart                       (* systemctl restart wazuh-manager *)
  | EvRollback                      (* rollback is entered *)
  | EvLog (e : LogEntry)            (* a line is appended to the log *)
  | EvReport (success : bool) (rules decoders : nat) (error : string).
                                    (* POST /deploy *)

Global Instance Event_eq_dec : EqDecision Event.
Proof. solve_decision. Defined.

Record World := {
  live : Tree;
  backup_dir : option Tree;
  repo_dir : option Tree;
  extract_dir : option Tree;
  log_file : list LogEntry;
  trace : list Event;
  (** every state of the live tree that a reader could have met: the tree
      after each single change made to it *)
  observed : list Tree
}.

(** What the environment answers during one run: the configuration file and
    the outcome of the calls whose failure the program handles or records
    (the copies into the backup, Git, the copies of [deploy_files], the
    restart, the copies of [rollback], the log file, the three requests and
    the archive).  The other file operations ([mkdir], [unlink], [rmtree],
    [chown]) are taken to succeed. *)
Record Env := {
  auto_restart : bool;                 (* config["auto_restart"] *)
  create_backup : bool;                (* config["create_backup"] *)
  backup_fault : Category → bool;      (* copying this directory to the backup fails *)
  git_result : option Tree;            (* the working copy after git, None: git failed *)
  copy_fault : Category → string → bool;  (* shutil.copy2 of this file raises *)
  restart_ok : nat → bool;             (* the n-th systemctl restart returns 0 in time *)
  is_active_ok : nat → bool;           (* systemctl is-active after the n-th restart *)
  restore_fault : Category → bool;     (* shutil.copytree from the backup raises *)
  log_writable : bool;                 (* the log file can be opened for append *)
  api_available : bool;                (* GET /rules answered 200 with a body *)
  download_ok : bool;                  (* GET /rules/latest gave a non-empty body *)
  extract_result : option Tree;        (* the unpacked archive, None: it could not be unpacked *)
  report_ok : bool                     (* POST /deploy answered 200 *)
}.

(** *** Exceptions and the monad of a run *)

Inductive Exn :=
  | NameError (name : string)
  | OSError (what : string)
  | KeyError (key : string)
  | TypeError (what : string)
  (* subprocess.CalledProcessError; [stderr_decodes]: the captured stderr
     is empty or valid UTF-8 *)
  | CalledProcessError (what : string) (stderr_decodes : bool)
  | UnicodeDecodeError (what : string).

(** [str(e)]. *)
Definition str (e : Exn) : string :=
  match e with
  | NameError name => "name '" +:+ name +:+ "' is not defined"
  | OSError what => what
  | KeyError key => "'" +:+ key +:+ "'"
  | TypeError what => what
  | CalledProcessError what _ => what
  | UnicodeDecodeError what => what
  end.

Inductive Result (A : Type) :=
  | Ret (a : A)
  | Raise (e : Exn).
Arguments Ret {A} a.
Arguments Raise {A} e.

(** A computation changes the world and returns or raises; what it changed
    before raising stays changed. *)
Definition M (A : Type) : Type := World → Result A * World.

Global Instance M_ret : MRet M := λ A a w, (Ret a, w).

Global Instance M_bind : MBind M := λ A B k m w,
  match m w with
  | (Ret a, w') => k a w'
  | (Raise e, w') => (Raise e, w')
  end.

Definition raise {A} (e : Exn) : M A := λ w, (Raise e, w).

(** [try: body except Exception as e: handler]. *)
Definition try_except {A} (body : M A) (handler : Exn → M A) : M A := λ w,
  match body w with
  | (Ret a, w') => (Ret a, w')
  | (Raise e, w') => handler e w'
  end.

(** [try: body finally: cleanup]. *)
Definition try_finally {A} (body : M A) (cleanup : M unit) : M A := λ w,
  match body w with
  | (r, w') =>
      match cleanup w' with
      | (Ret _, w'') => (r, w'')
      | (Raise e, w'') => (Raise e, w'')
      end
  end.

Definition gets {A} (f : World → A) : M A := λ w, (Ret (f w), w).

Definition modify (f : World → World) : M unit := λ w, (Ret tt, f w).

Definition when (b : bool) (m : M unit) : M unit := if b then m else mret tt.

(** *** Primitive steps *)

Definition emit (ev : Event) : M unit := modify (λ w,
  {| live := live w; backup_dir := backup_dir w; repo_dir := repo_dir w;
     extract_dir := extract_dir w; log_file := log_file w;
     trace := trace w ++ [ev]; observed := observed w |}).

(** A change of the live tree; the new tree becomes observable. *)
Definition with_live (t : Tree) (w : World) : World :=
  {| live := t; backup_dir := backup_dir w; repo_dir := repo_dir w;
     extract_dir := extract_dir w; log_file := log_file w;
     trace := trace w; observed := observed w ++ [t] |}.

Definition set_live (t : Tree) : M unit := modify (with_live t).

Definition set_backup_dir (b : option Tree) : M unit := modify (λ w,
  {| live := live w; backup_dir := b; repo_dir := repo_dir w;
     extract_dir := extract_dir w; log_file := log_file w;
     trace := trace w; observed := observed w |}).

Definition set_repo_dir (r : option Tree) : M unit := modify (λ w,
  {| live := live w; backup_dir := backup_dir w; repo_dir := r;
     extract_dir := extract_dir w; log_file := log_file w;
     trace := trace w; observed := observed w |}).

Definition set_extract_dir (x : option Tree) : M unit := modify (λ w,
  {| live := live w; backup_dir := backup_dir w; repo_dir := repo_dir w;
     extract_dir := x; log_file := log_file w;
     trace := trace w; observed := observed w |}).

Definition append_log (e : LogEntry) : M unit := modify (λ w,
  {| live := live w; backup_dir := backup_dir w; repo_dir := repo_dir w;
     extract_dir := extract_dir w; log_file := log_file w ++ [e];
     trace := trace w; observed := observed w |}).

(** Name lookup in a module's globals: a name that no [import], [class] or
    [def] of the module binds raises [NameError]. *)
Definition load_global (module_globals : list string) (name : string) : M unit :=
  if existsb (String.eqb name) module_globals then mret tt
  else raise (NameError name).

(** [fnmatch] of a file name against [*.xml]. *)
Definition is_xml (name : string) : bool :=
  String.prefix (String.rev ".xml") (String.rev name).
Global Arguments is_xml : simpl never.

(** [dir.glob("*.xml")]: the matching files of a flat directory, none when
    the directory does not exist. *)
Definition glob_xml (d : option (gmap string string)) : list (string * string) :=
  match d with
  | None => []
  | Some files => map_to_list (filter (λ f, is_xml f.1 = true) files)
  end.

(** [path.unlink()] of a file of a live directory. *)
Definition unlink (c : Category) (name : string) : M unit :=
  t ← gets live;
  set_live (set_subdir c (delete name <$> subdir c t) t).

(** [shutil.copy2(src, live_dir / name)], once [shutil] is resolved: the
    content is written under that name, in a directory that has to exist. *)
Definition copy2 (env : Env) (c : Category) (name content : string) : M unit :=
  t ← gets live;
  match subdir c t with
  | None => raise (OSError "No such file or directory")
  | Some files =>
      if copy_fault env c name then raise (OSError "copy failed")
      else set_live (set_subdir c (Some (<[name := content]> files)) t)
  end.

(** [live_dir.mkdir(parents=True, exist_ok=True)]. *)
Definition mkdir_live (c : Category) : M unit :=
  t ← gets live;
  match subdir c t with
  | Some _ => mret tt
  | None => set_live (set_subdir c (Some ∅) t)
  end.

(** [for xml_file in live_dir.glob("*.xml"): xml_file.unlink()]. *)
Fixpoint unlink_all (c : Category) (files : list (string * string)) : M unit :=
  match files with
  | [] => mret tt
  | (name, _) :: rest => unlink c name;; unlink_all c rest
  end.

(** [for xml_file in src.glob("*.xml"): shutil.copy2(xml_file, live_dir /
    xml_file.name); count += 1], in a module whose globals are
    [module_globals]: each turn looks [shutil] up before the call. *)
Fixpoint copy_all (module_globals : list string) (env : Env) (c : Category)
    (files : list (string * string)) (count : nat) : M nat :=
  match files with
  | [] => mret count
  | (name, content) :: rest =>
      load_global module_globals "shutil";;
      copy2 env c name content;;
      copy_all module_globals env c rest (S count)
  end.

Definition empty_tree : Tree := {| t_rules := None; t_decoders := None |}.

(** The number of [systemctl restart] calls made so far. *)
Definition restarts (w : World) : nat :=
  length (filter (λ ev, ev = EvRestart) (trace w)).

(** ** The Git based puller ([server-scripts/pull_rules.py]) *)

Module PullRules.

(** The names bound at module scope: the imports, the class and [main]. *)
Definition module_globals : list string :=
  ["os"; "sys"; "json"; "shutil"; "subprocess"; "argparse"; "datetime";
   "Path"; "hashlib"; "WazuhRulesPuller"; "main"].

(** [shutil.copytree(live_dir, self.backup_dir / name)]: the destination
    must not exist yet. *)
Definition copytree_to_backup (env : Env) (c : Category) : M unit :=
  load_global module_globals "shutil";;
  b ← gets backup_dir;
  t ← gets live;
  let bt := default empty_tree b in
  match subdir c bt with
  | Some _ => raise (OSError "File exists")
  | None =>
      if backup_fault env c then raise (OSError "copy failed")
      else set_backup_dir (Some (set_subdir c (subdir c t) bt))
  end.

(** The [mkdir] of the backup directory is taken to succeed here;
    [PullRulesIO.backup_current] has the call that can fail. *)
Definition backup_current (env : Env) : M bool :=
  if negb (create_backup env) then mret true
  else
    emit EvBackup;;
    b ← gets backup_dir;
    set_backup_dir (Some (default empty_tree b));;
    try_except
      (t ← gets live;
       match subdir Rules t with
       | Some _ => copytree_to_backup env Rules
       | None => mret tt
       end;;
       match subdir Decoders t with
       | Some _ => copytree_to_backup env Decoders
       | None => mret tt
       end;;
       mret true)
      (λ _, mret false).

(** Both branches (update of an existing working copy, fresh clone) run Git
    and leave the working copy at the head of the branch, or fail; here a
    failure is the one of the first command, with the working copy as it
    was.  [PullRulesIO.clone_or_pull_repo] has the commands one by one. *)
Definition clone_or_pull_repo (env : Env) : M bool :=
  emit EvGit;;
  match git_result env with
  | Some t => set_repo_dir (Some t);; mret true
  | None => mret false
  end.

Definition deploy_files (env : Env) : M (nat * nat) :=
  emit EvDeploy;;
  mkdir_live Rules;;
  mkdir_live Decoders;;
  repo ← gets repo_dir;
  let repo_rules_dir := repo ≫= subdir Rules in
  rule_count ←
    match repo_rules_dir with
    | Some _ =>
        t ← gets live;
        unlink_all Rules (glob_xml (subdir Rules t));;
        copy_all module_globals env Rules (glob_xml repo_rules_dir) 0%nat
    | None => mret 0%nat
    end;
  let repo_decoders_dir := repo ≫= subdir Decoders in
  decoder_count ←
    match repo_decoders_dir with
    | Some _ =>
        t ← gets live;
        unlink_all Decoders (glob_xml (subdir Decoders t));;
        copy_all module_globals env Decoders (glob_xml repo_decoders_dir) 0%nat
    | None => mret 0%nat
    end;
  (* chown -R wazuh:wazuh on both directories, check=False *)
  mret (rule_count, decoder_count).

(** [True] without a call when [auto_restart] is off; otherwise the restart
    must return 0 in time and [systemctl is-active] must succeed. *)
Definition restart_wazuh (env : Env) : M bool :=
  if negb (auto_restart env) then mret true
  else
    n ← gets restarts;
    emit EvRestart;;
    if restart_ok env n then mret (is_active_ok env n) else mret false.

(** [shutil.rmtree(live_dir, ignore_errors=True)] and then
    [shutil.copytree(backup, live_dir)], when the backup has the directory. *)
Definition restore (env : Env) (c : Category) : M unit :=
  b ← gets backup_dir;
  match b ≫= subdir c with
  | Some files =>
      load_global module_globals "shutil";;
      t ← gets live;
      set_live (set_subdir c None t);;
      if restore_fault env c then raise (OSError "copy failed")
      else
        t ← gets live;
        set_live (set_subdir c (Some files) t)
  | None => mret tt
  end.

Definition rollback (env : Env) : M bool :=
  emit EvRollback;;
  b ← gets backup_dir;
  match b with
  | None => mret false
  | Some _ =>
      try_except
        (restore env Rules;;
         restore env Decoders;;
         (if auto_restart env then restart_wazuh env;; mret tt else mret tt);;
         mret true)
        (λ _, mret false)
  end.

(** One line appended to the log file; [open] raises when the file cannot
    be written. *)
Definition log_deployment (env : Env) (success : bool)
    (rule_count decoder_count : nat) (error : string) : M unit :=
  let log_entry :=
    {| le_success := success; rules_deployed := rule_count;
       decoders_deployed := decoder_count; le_error := error |} in
  if log_writable env then append_log log_entry;; emit (EvLog log_entry)
  else raise (OSError "Permission denied").

Definition pull_and_deploy (env : Env) (force : bool) : M bool :=
  (* Step 1: Backup *)
  backed_up ← backup_current env;
  if negb backed_up && negb force then mret false
  else
    (* Step 2: Update repository *)
    updated ← clone_or_pull_repo env;
    if negb updated then mret false
    else
      (* Step 3: Deploy *)
      try_except
        ('(rule_count, decoder_count) ← deploy_files env;
         let log_and_succeed : M bool :=
           log_deployment env true rule_count decoder_count "";; mret true in
         (* Step 4: Restart if needed *)
         if (0 <? rule_count)%nat || (0 <? decoder_count)%nat then
           restart_success ← restart_wazuh env;
           if negb restart_success then rollback env;; mret false
           else log_and_succeed
         else log_and_succeed)
        (λ e,
           rollback env;;
           log_deployment env false 0 0 (str e);;
           mret false).

End PullRules.

(** ** The API based puller ([server-scripts/api_puller.py]) *)

Module ApiPuller.

(** The names bound at module scope.  [shutil] is not among them: the only
    [import shutil] of the file is inside [pull_and_deploy], where it binds a
    local name of that function. *)
Definition module_globals : list string :=
  ["requests"; "json"; "zipfile"; "tarfile"; "io"; "os"; "sys"; "argparse";
   "datetime"; "subprocess"; "hashlib"; "Path"; "WazuhAPIPuller"; "main"].

(** [subprocess.run(["cp", "-r", live_dir, backup_dir / name], check=True)].
    When the destination exists [cp] copies into it, one level down, and the
    files directly under it stay. *)
Definition cp_to_backup (env : Env) (c : Category) : M unit :=
  load_global module_globals "subprocess";;
  b ← gets backup_dir;
  t ← gets live;
  let bt := default empty_tree b in
  if backup_fault env c then raise (OSError "cp failed")
  else
    match subdir c bt with
    | Some _ => mret tt
    | None => set_backup_dir (Some (set_subdir c (subdir c t) bt))
    end.

(** The [mkdir] of the backup directory is taken to succeed here;
    [ApiPullerIO.backup_current] has the call that can fail. *)
Definition backup_current (env : Env) : M bool :=
  if negb (create_backup env) then mret true
  else
    emit EvBackup;;
    b ← gets backup_dir;
    set_backup_dir (Some (default empty_tree b));;
    try_except
      (t ← gets live;
       match subdir Rules t with
       | Some _ => cp_to_backup env Rules
       | None => mret tt
       end;;
       match subdir Decoders t with
       | Some _ => cp_to_backup env Decoders
       | None => mret tt
       end;;
       mret true)
      (λ _, mret false).

(** The truth value of the result: the decoded body, or [None].  The body
    is taken to hold the two totals that [pull_and_deploy] prints;
    [ApiPullerIO.pull_and_deploy] has the lookups. *)
Definition get_available_files (env : Env) : M bool :=
  emit EvApiList;; mret (api_available env).

(** The truth value of the downloaded content. *)
Definition download_package (env : Env) : M bool :=
  emit EvDownload;; mret (download_ok env).

(** The archive unpacked into a fresh temporary directory; [false] for the
    [None] the code returns when that fails. *)
Definition extract_package (env : Env) : M bool :=
  emit EvExtract;;
  match extract_result env with
  | Some t => set_extract_dir (Some t);; mret true
  | None => mret false
  end.

Definition deploy_files (env : Env) : M (nat * nat) :=
  emit EvDeploy;;
  temp_dir ← gets extract_dir;
  let temp_rules_dir := temp_dir ≫= subdir Rules in
  rule_count ←
    match temp_rules_dir with
    | Some _ =>
        t ← gets live;
        unlink_all Rules (glob_xml (subdir Rules t));;
        copy_all module_globals env Rules (glob_xml temp_rules_dir) 0%nat
    | None => mret 0%nat
    end;
  let temp_decoders_dir := temp_dir ≫= subdir Decoders in
  decoder_count ←
    match temp_decoders_dir with
    | Some _ =>
        t ← gets live;
        unlink_all Decoders (glob_xml (subdir Decoders t));;
        copy_all module_globals env Decoders (glob_xml temp_decoders_dir) 0%nat
    | None => mret 0%nat
    end;
  (* chown -R wazuh:wazuh on both directories, check=False *)
  mret (rule_count, decoder_count).

Definition restart_wazuh (env : Env) : M bool :=
  if negb (auto_restart env) then mret true
  else
    n ← gets restarts;
    emit EvRestart;;
    mret (restart_ok env n).

(** The POST is sent; its answer, or the exception of the request, only
    decides the returned flag. *)
Definition report_deployment (env : Env) (success : bool)
    (rule_count decoder_count : nat) (error : string) : M bool :=
  emit (EvReport success rule_count decoder_count error);;
  mret (report_ok env).

Definition pull_and_deploy (env : Env) (force : bool) : M bool :=
  (* Step 1: Check API connectivity *)
  available ← get_available_files env;
  if negb available then mret false
  else
    (* Step 2: Backup *)
    backed_up ← backup_current env;
    if negb backed_up && negb force then mret false
    else
      (* Step 3: Download package *)
      package_content ← download_package env;
      if negb package_content then mret false
      else
        (* Step 4: Extract *)
        extracted ← extract_package env;
        if negb extracted then mret false
        else
          (* Step 5: Deploy *)
          try_finally
            (try_except
               ('(rule_count, decoder_count) ← deploy_files env;
                let report_and_succeed : M bool :=
                  report_deployment env true rule_count decoder_count "";;
                  mret true in
                (* Step 6: Restart if needed *)
                if (0 <? rule_count)%nat || (0 <? decoder_count)%nat then
                  restart_success ← restart_wazuh env;
                  if negb restart_success then
                    report_deployment env false rule_count decoder_count
                      "Restart failed";;
                    mret false
                  else report_and_succeed
                else report_and_succeed)
               (λ e,
                  report_deployment env false 0 0 (str e);;
                  mret false))
            (* import shutil; shutil.rmtree(extract_dir, ignore_errors=True) *)
            (set_extract_dir None).

End ApiPuller.

(** ** Reasoning about runs *)

(** [m] takes every world to one related to it by [R], whether it returns
    or raises. *)
Definition respects {A} (R : relation World) (m : M A) : Prop :=
  ∀ w, R w (m w).2.

(** The relation of two worlds that agree on the projection [f]. *)
Definition preserving {X} (f : World → X) : relation World :=
  λ w w', f w' = f w.

Global Instance preserving_refl {X} (f : World → X) : Reflexive (preserving f).
Proof. by intros w. Qed.

Global Instance preserving_trans {X} (f : World → X) : Transitive (preserving f).
Proof. unfold preserving. intros w1 w2 w3 H12 H23. congruence. Qed.

(** What a run keeps apart from the live tree and its own trace. *)
Definition stores (w : World)
    : option Tree * option Tree * option Tree * list LogEntry :=
  (backup_dir w, repo_dir w, extract_dir w, log_file w).

Section Respects.

Context (R : relation World) `{!Reflexive R, !Transitive R}.

Lemma respects_ret {A} (a : A) : respects R (mret a).
Proof. intros w. reflexivity. Qed.

Lemma respects_raise {A} (e : Exn) : respects R (@raise A e).
Proof. intros w. reflexivity. Qed.

Lemma respects_gets {A} (f : World → A) : respects R (gets f).
Proof. intros w. reflexivity. Qed.

Lemma respects_bind {A B} (m : M A) (k : A → M B) :
  respects R m → (∀ a, respects R (k a)) → respects R (m ≫= k).
Proof.
  intros Hm Hk w. unfold mbind, M_bind. specialize (Hm w).
  destruct (m w) as [[a|e] w1]; cbn in *; [|done].
  etrans; [exact Hm|apply Hk].
Qed.

Lemma respects_try_except {A} (m : M A) (h : Exn → M A) :
  respects R m → (∀ e, respects R (h e)) → respects R (try_except m h).
Proof.
  intros Hm Hh w. unfold try_except. specialize (Hm w).
  destruct (m w) as [[a|e] w1]; cbn in *; [done|].
  etrans; [exact Hm|apply Hh].
Qed.

Lemma respects_try_finally {A} (m : M A) (c : M unit) :
  respects R m → respects R c → respects R (try_finally m c).
Proof.
  intros Hm Hc w. unfold try_finally. specialize (Hm w).
  destruct (m w) as [r w1]. specialize (Hc w1).
  destruct (c w1) as [[[]|e] w2]; cbn in *; by etrans.
Qed.

Lemma respects_load_global globals name : respects R (load_global globals name).
Proof.
  unfold load_global.
  destruct (existsb _ _); [apply respects_ret|apply respects_raise].
Qed.

End Respects.

Create HintDb frame.

Global Hint Resolve respects_ret respects_raise respects_gets
  respects_load_global : frame.

(** Composite computations follow their syntax; a primitive step is checked
    on the record it builds. *)
Ltac frame_step :=
  lazymatch goal with
  | |- respects _ (mbind _ _) => apply respects_bind; [apply _..| |intros ?]
  | |- respects _ (try_except _ _) =>
      apply respects_try_except; [apply _..| |intros ?]
  | |- respects _ (try_finally _ _) => apply respects_try_finally; [apply _..| |]
  | |- respects _ (mret _) => apply respects_ret; apply _
  | |- respects _ (raise _) => apply respects_raise; apply _
  | |- respects _ (gets _) => apply respects_gets; apply _
  | |- respects _ (load_global _ _) => apply respects_load_global; apply _
  | |- respects _ (match ?x with _ => _ end) => destruct x
  | |- respects _ (if ?b then _ else _) => destruct b
  | |- respects _ (let _ := _ in _) => cbv zeta
  | |- respects _ (let '(_, _) := ?p in _) => destruct p
  end.

Ltac frame := repeat frame_step; eauto with frame; try (intros ?; reflexivity).

Lemma set_live_stores t : respects (preserving stores) (set_live t).
Proof. by intros w. Qed.

Lemma set_live_trace t : respects (preserving trace) (set_live t).
Proof. by intros w. Qed.

Lemma emit_stores ev : respects (preserving stores) (emit ev).
Proof. by intros w. Qed.

Lemma emit_live ev : respects (preserving live) (emit ev).
Proof. by intros w. Qed.

Global Hint Resolve set_live_stores set_live_trace emit_stores emit_live : frame.

Lemma unlink_stores c name : respects (preserving stores) (unlink c name).
Proof. unfold unlink. frame. Qed.

Lemma unlink_trace c name : respects (preserving trace) (unlink c name).
Proof. unfold unlink. frame. Qed.

Lemma copy2_stores env c name content :
  respects (preserving stores) (copy2 env c name content).
Proof. unfold copy2. frame. Qed.

Lemma copy2_trace env c name content :
  respects (preserving trace) (copy2 env c name content).
Proof. unfold copy2. frame. Qed.

Lemma mkdir_live_stores c : respects (preserving stores) (mkdir_live c).
Proof. unfold mkdir_live. frame. Qed.

Lemma mkdir_live_trace c : respects (preserving trace) (mkdir_live c).
Proof. unfold mkdir_live. frame. Qed.

Global Hint Resolve unlink_stores unlink_trace copy2_stores copy2_trace
  mkdir_live_stores mkdir_live_trace : frame.

Lemma unlink_all_stores c files : respects (preserving stores) (unlink_all c files).
Proof. induction files as [|[name content] rest IH]; cbn; frame. Qed.

Lemma unlink_all_trace c files : respects (preserving trace) (unlink_all c files).
Proof. induction files as [|[name content] rest IH]; cbn; frame. Qed.

Lemma copy_all_stores globals env c files count :
  respects (preserving stores) (copy_all globals env c files count).
Proof.
  revert count. induction files as [|[name content] rest IH]; intros; cbn; frame.
Qed.

Lemma copy_all_trace globals env c files count :
  respects (preserving trace) (copy_all globals env c files count).
Proof.
  revert count. induction files as [|[name content] rest IH]; intros; cbn; frame.
Qed.

Global Hint Resolve unlink_all_stores unlink_all_trace copy_all_stores
  copy_all_trace : frame.

(** *** The two loops of [deploy_files] as functions on a directory *)

Definition remove_all (files : list (string * string))
    (d : gmap string string) : gmap string string :=
  foldl (λ d f, delete f.1 d) d files.

Definition add_all (files : list (string * string))
    (d : gmap string string) : gmap string string :=
  foldl (λ d f, <[f.1 := f.2]> d) d files.

(** The files of a directory that [*.xml] matches, and the others. *)
Definition xml_files (d : gmap string string) : gmap string string :=
  filter (λ f, is_xml f.1 = true) d.

Definition other_files (d : gmap string string) : gmap string string :=
  filter (λ f, ¬ is_xml f.1 = true) d.

Lemma set_subdir_same c t : set_subdir c (subdir c t) t = t.
Proof. by destruct c, t. Qed.

Lemma subdir_set_subdir c d t : subdir c (set_subdir c d t) = d.
Proof. by destruct c. Qed.

Lemma subdir_set_subdir_ne c c' d t :
  c ≠ c' → subdir c' (set_subdir c d t) = subdir c' t.
Proof. by destruct c, c'. Qed.

Lemma set_subdir_twice c d d' t :
  set_subdir c d (set_subdir c d' t) = set_subdir c d t.
Proof. by destruct c. Qed.

Lemma remove_all_cons f files d :
  remove_all (f :: files) d = remove_all files (delete f.1 d).
Proof. done. Qed.

Lemma add_all_cons f files d :
  add_all (f :: files) d = add_all files (<[f.1 := f.2]> d).
Proof. done. Qed.

Lemma lookup_remove_all files d k :
  remove_all files d !! k = if decide (k ∈ files.*1) then None else d !! k.
Proof.
  revert d. induction files as [|[name content] rest IH]; intros d.
  - cbn. by rewrite decide_False by set_solver.
  - rewrite remove_all_cons, IH. cbn.
    destruct (decide (k ∈ rest.*1)) as [Hin|Hnin].
    + rewrite decide_True; [done|by apply list_elem_of_further].
    + destruct (decide (k = name)) as [->|Hne].
      * rewrite lookup_delete_eq. rewrite decide_True; [done|apply list_elem_of_here].
      * rewrite lookup_delete_ne by done. rewrite decide_False; [done|].
        by intros [?|?]%elem_of_cons.
Qed.

Lemma remove_all_glob (d : gmap string string) :
  remove_all (glob_xml (Some d)) d = other_files d.
Proof.
  apply map_eq. intros k. rewrite lookup_remove_all. cbn.
  unfold other_files. destruct (decide _) as [Hin|Hnin].
  - apply list_elem_of_fmap in Hin as ([k' v] & -> & Hin).
    apply elem_of_map_to_list, map_lookup_filter_Some in Hin as [_ Hxml].
    symmetry. apply map_lookup_filter_None. right. intros v' _. cbn in *. tauto.
  - destruct (d !! k) as [v|] eqn:Hk; symmetry.
    + apply map_lookup_filter_Some. split; [done|]. cbn. intros Hxml.
      apply Hnin. apply list_elem_of_fmap. exists (k, v). split; [done|].
      apply elem_of_map_to_list, map_lookup_filter_Some. by split.
    + apply map_lookup_filter_None. by left.
Qed.

Lemma add_all_union files (d : gmap string string) :
  NoDup files.*1 → add_all files d = list_to_map files ∪ d.
Proof.
  revert d. induction files as [|[name content] rest IH]; intros d Hnd.
  - cbn. by rewrite (left_id_L ∅ (∪)).
  - cbn in Hnd. apply NoDup_cons in Hnd as [Hnotin Hnd].
    rewrite add_all_cons, IH by done. cbn.
    rewrite <-insert_union_l. symmetry. apply insert_union_r.
    by apply not_elem_of_list_to_map_1.
Qed.

Lemma add_all_glob (src d : gmap string string) :
  add_all (glob_xml (Some src)) d = xml_files src ∪ d.
Proof.
  unfold glob_xml. rewrite add_all_union by apply NoDup_fst_map_to_list.
  by rewrite list_to_map_to_list.
Qed.

(** *** What the loops do to the live tree *)

Lemma bind_eq {A B} (m : M A) (k : A → M B) w :
  (m ≫= k) w
  = match m w with
    | (Ret a, w') => k a w'
    | (Raise e, w') => (Raise e, w')
    end.
Proof. done. Qed.

Lemma unlink_eq c name w :
  unlink c name w
  = (Ret tt,
     with_live (set_subdir c (delete name <$> subdir c (live w)) (live w)) w).
Proof. done. Qed.

Lemma copy2_eq env c name content w d :
  subdir c (live w) = Some d →
  copy2 env c name content w
  = if copy_fault env c name then (Raise (OSError "copy failed"), w)
    else (Ret tt,
          with_live (set_subdir c (Some (<[name := content]> d)) (live w)) w).
Proof.
  intros Hd. unfold copy2. rewrite bind_eq. cbn. rewrite Hd.
  by destruct (copy_fault env c name).
Qed.

Lemma load_global_eq globals name w :
  load_global globals name w
  = if existsb (String.eqb name) globals then (Ret tt, w)
    else (Raise (NameError name), w).
Proof. unfold load_global. by destruct (existsb _ _). Qed.

Lemma unlink_all_cons c name content rest :
  unlink_all c ((name, content) :: rest) = (unlink c name;; unlink_all c rest).
Proof. done. Qed.

Lemma copy_all_cons globals env c name content rest count :
  copy_all globals env c ((name, content) :: rest) count
  = (load_global globals "shutil";;
     copy2 env c name content;;
     copy_all globals env c rest (S count)).
Proof. done. Qed.

Lemma unlink_all_live c files w :
  (unlink_all c files w).1 = Ret tt
  ∧ live (unlink_all c files w).2
    = set_subdir c (remove_all files <$> subdir c (live w)) (live w).
Proof.
  revert w. induction files as [|[name content] rest IH]; intros w.
  - cbn. split; [done|]. rewrite option_fmap_id. by rewrite set_subdir_same.
  - rewrite unlink_all_cons, bind_eq, unlink_eq.
    destruct (IH (with_live
      (set_subdir c (delete name <$> subdir c (live w)) (live w)) w))
      as [-> ->].
    split; [done|]. cbn [live with_live].
    rewrite subdir_set_subdir, set_subdir_twice. f_equal.
    by rewrite <-option_fmap_compose.
Qed.

Lemma copy_all_live globals env c files count w d :
  existsb (String.eqb "shutil") globals = true →
  subdir c (live w) = Some d →
  (∀ f, f ∈ files → copy_fault env c f.1 = false) →
  (copy_all globals env c files count w).1 = Ret (count + length files)%nat
  ∧ live (copy_all globals env c files count w).2
    = set_subdir c (Some (add_all files d)) (live w).
Proof.
  intros Hglobal. revert count w d.
  induction files as [|[name content] rest IH]; intros count w d Hd Hok.
  - cbn. split; [f_equal; lia|]. by rewrite <-Hd, set_subdir_same.
  - rewrite copy_all_cons, bind_eq, load_global_eq, Hglobal.
    rewrite bind_eq, (copy2_eq _ _ _ _ _ d Hd).
    assert (Hname : copy_fault env c name = false)
      by apply (Hok (name, content)), list_elem_of_here.
    rewrite Hname.
    destruct (IH (S count)
      (with_live (set_subdir c (Some (<[name:=content]> d)) (live w)) w)
      (<[name:=content]> d)) as [-> ->].
    + apply subdir_set_subdir.
    + intros f Hf. apply Hok. by apply list_elem_of_further.
    + split; [f_equal; cbn; lia|]. cbn [live with_live].
      by rewrite set_subdir_twice, add_all_cons.
Qed.

(** A copy that fails makes the loop raise. *)
Lemma copy_all_raises globals env c files count w d :
  subdir c (live w) = Some d →
  (∃ f, f ∈ files ∧ copy_fault env c f.1 = true) →
  ∃ e, (copy_all globals env c files count w).1 = Raise e.
Proof.
  revert count w d.
  induction files as [|[name content] rest IH]; intros count w d Hd [f [Hf Hfault]].
  - by apply elem_of_nil in Hf.
  - rewrite copy_all_cons, bind_eq, load_global_eq.
    destruct (existsb _ _); [|by eexists].
    rewrite bind_eq, (copy2_eq _ _ _ _ _ d Hd).
    destruct (copy_fault env c name) eqn:Hname; [by eexists|].
    eapply IH.
    + cbn [live with_live]. apply subdir_set_subdir.
    + exists f. split; [|done]. apply elem_of_cons in Hf as [->|Hf]; [|done].
      cbn in Hfault. congruence.
Qed.

(** Without [shutil] among the globals the first turn of the loop raises
    and the world is as the loop found it. *)
Lemma copy_all_unbound globals env c f files count w :
  existsb (String.eqb "shutil") globals = false →
  copy_all globals env c (f :: files) count w = (Raise (NameError "shutil"), w).
Proof.
  intros Hglobal. destruct f.
  by rewrite copy_all_cons, bind_eq, load_global_eq, Hglobal.
Qed.

(** *** One category of [deploy_files] *)

(** The block that both [deploy_files] run for each category: when the
    source directory exists, clear the live directory of its XML files and
    copy those of the source. *)
Definition deploy_category (globals : list string) (env : Env) (c : Category)
    (src : option (gmap string string)) : M nat :=
  match src with
  | Some _ =>
      t ← gets live;
      unlink_all c (glob_xml (subdir c t));;
      copy_all globals env c (glob_xml src) 0%nat
  | None => mret 0%nat
  end.

(** The live directory after its category was deployed without a fault. *)
Definition deployed (src dst : gmap string string) : gmap string string :=
  xml_files src ∪ other_files dst.

Lemma pair_eq {A B} (p : A * B) a b : p.1 = a → p.2 = b → p = (a, b).
Proof. destruct p. cbn. congruence. Qed.

Lemma deploy_category_stores globals env c src :
  respects (preserving stores) (deploy_category globals env c src).
Proof. unfold deploy_category. frame. Qed.

Lemma deploy_category_trace globals env c src :
  respects (preserving trace) (deploy_category globals env c src).
Proof. unfold deploy_category. frame. Qed.

Global Hint Resolve deploy_category_stores deploy_category_trace : frame.

(** After the clearing loop the directory holds its other files. *)
Lemma clear_live c w :
  (unlink_all c (glob_xml (subdir c (live w))) w).1 = Ret tt
  ∧ live (unlink_all c (glob_xml (subdir c (live w))) w).2
    = set_subdir c (other_files <$> subdir c (live w)) (live w).
Proof.
  destruct (unlink_all_live c (glob_xml (subdir c (live w))) w) as [Hret Hlive].
  split; [done|]. rewrite Hlive. f_equal.
  destruct (subdir c (live w)) as [d|]; [|done]. cbn [fmap option_fmap option_map].
  by rewrite remove_all_glob.
Qed.

Lemma deploy_category_absent globals env c w :
  deploy_category globals env c None w = (Ret 0%nat, w).
Proof. done. Qed.

Lemma deploy_category_ok globals env c src w d :
  existsb (String.eqb "shutil") globals = true →
  (∀ name, copy_fault env c name = false) →
  subdir c (live w) = Some d →
  (deploy_category globals env c (Some src) w).1
  = Ret (length (glob_xml (Some src)))
  ∧ live (deploy_category globals env c (Some src) w).2
    = set_subdir c (Some (deployed src d)) (live w).
Proof.
  intros Hglobal Hok Hd. unfold deploy_category.
  rewrite bind_eq. cbn [gets]. rewrite bind_eq.
  destruct (clear_live c w) as [Hret Hlive].
  rewrite (pair_eq _ _ _ Hret eq_refl).
  set (w1 := (unlink_all c (glob_xml (subdir c (live w))) w).2) in *.
  assert (Hd1 : subdir c (live w1) = Some (other_files d)).
  { by rewrite Hlive, subdir_set_subdir, Hd. }
  destruct (copy_all_live globals env c (glob_xml (Some src)) 0 w1 _ Hglobal Hd1)
    as [Hret2 Hlive2]; [done|].
  split; [done|]. rewrite Hlive2, Hlive, set_subdir_twice.
  by rewrite add_all_glob.
Qed.

(** With no XML file in the source only the clearing happens. *)
Lemma deploy_category_nothing globals env c src w :
  glob_xml (Some src) = [] →
  (deploy_category globals env c (Some src) w).1 = Ret 0%nat
  ∧ live (deploy_category globals env c (Some src) w).2
    = set_subdir c (other_files <$> subdir c (live w)) (live w).
Proof.
  intros Hnil. unfold deploy_category.
  rewrite bind_eq. cbn [gets]. rewrite bind_eq.
  destruct (clear_live c w) as [Hret Hlive].
  rewrite (pair_eq _ _ _ Hret eq_refl), Hnil. done.
Qed.

(** Where [shutil] is unbound and the source has an XML file, the live
    directory is cleared and the first copy raises. *)
Lemma deploy_category_unbound globals env c src w :
  existsb (String.eqb "shutil") globals = false →
  glob_xml (Some src) ≠ [] →
  (deploy_category globals env c (Some src) w).1 = Raise (NameError "shutil")
  ∧ live (deploy_category globals env c (Some src) w).2
    = set_subdir c (other_files <$> subdir c (live w)) (live w).
Proof.
  intros Hglobal Hfiles. unfold deploy_category.
  rewrite bind_eq. cbn [gets]. rewrite bind_eq.
  destruct (clear_live c w) as [Hret Hlive].
  rewrite (pair_eq _ _ _ Hret eq_refl).
  destruct (glob_xml (Some src)) as [|f files]; [done|].
  by rewrite copy_all_unbound.
Qed.

(** A copy fault in the source makes the block raise. *)
Lemma deploy_category_raises globals env c src w name content :
  is_Some (subdir c (live w)) →
  src !! name = Some content → is_xml name = true →
  copy_fault env c name = true →
  ∃ e, (deploy_category globals env c (Some src) w).1 = Raise e.
Proof.
  intros [d Hd] Hname Hxml Hfault. unfold deploy_category.
  rewrite bind_eq. cbn [gets]. rewrite bind_eq.
  destruct (clear_live c w) as [Hret Hlive].
  rewrite (pair_eq _ _ _ Hret eq_refl).
  eapply copy_all_raises.
  - by rewrite Hlive, subdir_set_subdir, Hd.
  - exists (name, content). split; [|done].
    apply elem_of_map_to_list, map_lookup_filter_Some. by split.
Qed.

(** *** [deploy_files] of the Git based puller *)

Definition deployed_opt (src : option (gmap string string))
    (d : gmap string string) : gmap string string :=
  match src with
  | Some s => deployed s d
  | None => d
  end.

Lemma deploy_category_ok_opt globals env c src w d :
  existsb (String.eqb "shutil") globals = true →
  (∀ name, copy_fault env c name = false) →
  subdir c (live w) = Some d →
  (deploy_category globals env c src w).1 = Ret (length (glob_xml src))
  ∧ live (deploy_category globals env c src w).2
    = set_subdir c (Some (deployed_opt src d)) (live w).
Proof.
  intros Hglobal Hok Hd. destruct src as [s|].
  - by apply deploy_category_ok.
  - rewrite deploy_category_absent. split; [done|]. cbn.
    by rewrite <-Hd, set_subdir_same.
Qed.

Lemma mkdir_live_live c w :
  (mkdir_live c w).1 = Ret tt
  ∧ live (mkdir_live c w).2
    = set_subdir c (Some (default ∅ (subdir c (live w)))) (live w).
Proof.
  unfold mkdir_live. rewrite bind_eq. cbn [gets].
  destruct (subdir c (live w)) as [d|] eqn:Hd; cbn.
  - split; [done|]. by rewrite <-Hd, set_subdir_same.
  - done.
Qed.

Lemma pull_rules_deploy_files_eq env :
  PullRules.deploy_files env
  = (emit EvDeploy;;
     mkdir_live Rules;;
     mkdir_live Decoders;;
     repo ← gets repo_dir;
     rule_count ←
       deploy_category PullRules.module_globals env Rules (repo ≫= subdir Rules);
     decoder_count ←
       deploy_category PullRules.module_globals env Decoders
         (repo ≫= subdir Decoders);
     mret (rule_count, decoder_count)).
Proof. done. Qed.

Lemma pull_rules_deploy_files_stores env :
  respects (preserving stores) (PullRules.deploy_files env).
Proof. rewrite pull_rules_deploy_files_eq. frame. Qed.

Lemma pull_rules_deploy_files_trace env w :
  trace (PullRules.deploy_files env w).2 = trace w ++ [EvDeploy].
Proof.
  rewrite pull_rules_deploy_files_eq, bind_eq. cbn [emit modify].
  match goal with |- context [(?m ≫= ?k) ?w1] =>
    assert (Hframe : respects (preserving trace) (m ≫= k)) by frame;
    specialize (Hframe w1)
  end.
  unfold preserving in Hframe. cbn [trace] in Hframe.
  by destruct (_ ≫= _) as [[?|?] ?].
Qed.

Lemma pull_rules_deploy_files_ok env w :
  (∀ c name, copy_fault env c name = false) →
  (PullRules.deploy_files env w).1
  = Ret (length (glob_xml (repo_dir w ≫= subdir Rules)),
         length (glob_xml (repo_dir w ≫= subdir Decoders)))
  ∧ live (PullRules.deploy_files env w).2
    = {| t_rules :=
           Some (deployed_opt (repo_dir w ≫= subdir Rules)
                   (default ∅ (t_rules (live w))));
         t_decoders :=
           Some (deployed_opt (repo_dir w ≫= subdir Decoders)
                   (default ∅ (t_decoders (live w)))) |}.
Proof.
  intros Hok. rewrite pull_rules_deploy_files_eq, bind_eq. cbn [emit modify].
  set (w0 := {| live := live w; trace := trace w ++ [EvDeploy] |}).
  rewrite bind_eq.
  destruct (mkdir_live_live Rules w0) as [Hret1 Hlive1].
  assert (Hst1 := mkdir_live_stores Rules w0).
  rewrite (pair_eq _ _ _ Hret1 eq_refl).
  set (w1 := (mkdir_live Rules w0).2) in *.
  rewrite bind_eq.
  destruct (mkdir_live_live Decoders w1) as [Hret2 Hlive2].
  assert (Hst2 := mkdir_live_stores Decoders w1).
  rewrite (pair_eq _ _ _ Hret2 eq_refl).
  set (w2 := (mkdir_live Decoders w1).2) in *.
  rewrite bind_eq. cbn [gets].
  assert (Hrepo : repo_dir w2 = repo_dir w).
  { unfold preserving, stores in Hst1, Hst2. subst w0. cbn in *. congruence. }
  rewrite Hrepo.
  assert (Hlive : live w2
    = {| t_rules := Some (default ∅ (t_rules (live w)));
         t_decoders := Some (default ∅ (t_decoders (live w))) |}).
  { rewrite Hlive2, Hlive1. subst w0. by destruct (live w). }
  rewrite bind_eq.
  destruct (deploy_category_ok_opt PullRules.module_globals env Rules
              (repo_dir w ≫= subdir Rules) w2 (default ∅ (t_rules (live w))))
    as [Hret3 Hlive3]; [done|done|by rewrite Hlive|].
  rewrite (pair_eq _ _ _ Hret3 eq_refl).
  set (w3 := (deploy_category _ env Rules _ w2).2) in *.
  rewrite bind_eq.
  destruct (deploy_category_ok_opt PullRules.module_globals env Decoders
              (repo_dir w ≫= subdir Decoders) w3
              (default ∅ (t_decoders (live w))))
    as [Hret4 Hlive4]; [done|done|by rewrite Hlive3, Hlive|].
  rewrite (pair_eq _ _ _ Hret4 eq_refl).
  split; [done|]. cbn [mret M_ret snd]. by rewrite Hlive4, Hlive3, Hlive.
Qed.

(** *** The other steps of the Git based puller *)

Lemma try_except_eq {A} (m : M A) (h : Exn → M A) w :
  try_except m h w
  = match m w with
    | (Ret a, w') => (Ret a, w')
    | (Raise e, w') => h e w'
    end.
Proof. done. Qed.

(** Running a computation on a world: the monad and the primitive steps are
    unfolded and the record projections computed. *)
Ltac run :=
  unfold mbind, M_bind, mret, M_ret, try_except, try_finally, when, raise,
    load_global, set_live, set_backup_dir, set_repo_dir, set_extract_dir,
    append_log, emit, gets, modify in *;
  cbn in *.

(** The projections of a record that a step has built. *)
Ltac proj :=
  cbn [live backup_dir repo_dir extract_dir log_file trace observed fst snd
       emit modify gets mret M_ret set_extract_dir set_repo_dir negb] in *.

Lemma shutil_bound : existsb (String.eqb "shutil") PullRules.module_globals = true.
Proof. done. Qed.

Lemma shutil_unbound : existsb (String.eqb "shutil") ApiPuller.module_globals = false.
Proof. done. Qed.

(** A fresh backup directory receives a copy of the live tree. *)
Lemma pull_rules_backup_ok env w :
  create_backup env = true →
  (∀ c, backup_fault env c = false) →
  backup_dir w = None →
  PullRules.backup_current env w
  = (Ret true,
     {| live := live w; backup_dir := Some (live w); repo_dir := repo_dir w;
        extract_dir := extract_dir w; log_file := log_file w;
        trace := trace w ++ [EvBackup]; observed := observed w |}).
Proof.
  intros Hcfg Hok Hfresh.
  unfold PullRules.backup_current, PullRules.copytree_to_backup.
  rewrite Hcfg. run. rewrite Hfresh.
  destruct (live w) as [[r|] [d|]]; cbn; rewrite ?Hok; cbn; rewrite ?Hok; done.
Qed.

Lemma pull_rules_backup_live env :
  respects (preserving live) (PullRules.backup_current env).
Proof.
  unfold PullRules.backup_current, PullRules.copytree_to_backup.
  frame.
Qed.

Lemma pull_rules_git_ok env w t :
  git_result env = Some t →
  PullRules.clone_or_pull_repo env w
  = (Ret true,
     {| live := live w; backup_dir := backup_dir w; repo_dir := Some t;
        extract_dir := extract_dir w; log_file := log_file w;
        trace := trace w ++ [EvGit]; observed := observed w |}).
Proof. intros Hgit. unfold PullRules.clone_or_pull_repo. by rewrite Hgit. Qed.

Lemma pull_rules_restart_live env :
  respects (preserving live) (PullRules.restart_wazuh env).
Proof. unfold PullRules.restart_wazuh. frame. Qed.

Lemma pull_rules_restart_stores env :
  respects (preserving stores) (PullRules.restart_wazuh env).
Proof. unfold PullRules.restart_wazuh. frame. Qed.

Global Hint Resolve pull_rules_restart_live pull_rules_restart_stores : frame.

Lemma pull_rules_restart_eq env w :
  auto_restart env = true →
  PullRules.restart_wazuh env w
  = (Ret (restart_ok env (restarts w) && is_active_ok env (restarts w)),
     {| live := live w; backup_dir := backup_dir w; repo_dir := repo_dir w;
        extract_dir := extract_dir w; log_file := log_file w;
        trace := trace w ++ [EvRestart]; observed := observed w |}).
Proof.
  intros Hcfg. unfold PullRules.restart_wazuh. rewrite Hcfg. run.
  by destruct (restart_ok env (restarts w)).
Qed.

Lemma pull_rules_restart_off env w :
  auto_restart env = false → PullRules.restart_wazuh env w = (Ret true, w).
Proof. intros Hcfg. unfold PullRules.restart_wazuh. by rewrite Hcfg. Qed.

Lemma pull_rules_rollback_stores env :
  respects (preserving stores) (PullRules.rollback env).
Proof. unfold PullRules.rollback, PullRules.restore. frame. Qed.

(** With the two directories in the backup and no fault while restoring,
    [rollback] puts them back as the live tree. *)
Lemma pull_rules_rollback_restores env w r d :
  backup_dir w = Some {| t_rules := Some r; t_decoders := Some d |} →
  (∀ c, restore_fault env c = false) →
  (PullRules.rollback env w).1 = Ret true
  ∧ live (PullRules.rollback env w).2
    = {| t_rules := Some r; t_decoders := Some d |}.
Proof.
  intros Hbackup Hok.
  unfold PullRules.rollback, PullRules.restore, PullRules.restart_wazuh.
  run. rewrite Hbackup. cbn. rewrite !Hok. cbn.
  destruct (auto_restart env); cbn; [|done].
  by destruct (restart_ok env _).
Qed.

(** *** Whole runs of the Git based puller *)

(** Step 3 and 4 of [pull_and_deploy]: the [try] block and its handler. *)
Definition deploy_step (env : Env) : M bool :=
  try_except
    ('(rule_count, decoder_count) ← PullRules.deploy_files env;
     let log_and_succeed : M bool :=
       PullRules.log_deployment env true rule_count decoder_count "";;
       mret true in
     if (0 <? rule_count)%nat || (0 <? decoder_count)%nat then
       restart_success ← PullRules.restart_wazuh env;
       if negb restart_success then PullRules.rollback env;; mret false
       else log_and_succeed
     else log_and_succeed)
    (λ e,
       PullRules.rollback env;;
       PullRules.log_deployment env false 0 0 (str e);;
       mret false).

Lemma pull_and_deploy_eq env force :
  PullRules.pull_and_deploy env force
  = (backed_up ← PullRules.backup_current env;
     if negb backed_up && negb force then mret false
     else
       updated ← PullRules.clone_or_pull_repo env;
       if negb updated then mret false else deploy_step env).
Proof. done. Qed.

(** The world in which step 3 starts when the backup and the update of the
    working copy went through. *)
Definition ready (w : World) (t : Tree) : World :=
  {| live := live w; backup_dir := Some (live w); repo_dir := Some t;
     extract_dir := extract_dir w; log_file := log_file w;
     trace := trace w ++ [EvBackup; EvGit]; observed := observed w |}.

Lemma pull_and_deploy_ready env force w t :
  create_backup env = true →
  (∀ c, backup_fault env c = false) →
  backup_dir w = None →
  git_result env = Some t →
  PullRules.pull_and_deploy env force w = deploy_step env (ready w t).
Proof.
  intros Hcfg Hbackup Hfresh Hgit.
  rewrite pull_and_deploy_eq, bind_eq, pull_rules_backup_ok by done.
  cbn [negb andb]. rewrite bind_eq, (pull_rules_git_ok _ _ t) by done.
  cbn [negb live backup_dir repo_dir extract_dir log_file trace observed].
  unfold ready. by rewrite <-app_assoc.
Qed.

Lemma restarts_ready w t : restarts (ready w t) = restarts w.
Proof.
  unfold restarts, ready. cbn [trace]. rewrite filter_app, length_app.
  rewrite !filter_cons_False by done. cbn. lia.
Qed.

Lemma rollback_trace_restores env w r d :
  backup_dir w = Some {| t_rules := Some r; t_decoders := Some d |} →
  (∀ c, restore_fault env c = false) →
  trace (PullRules.rollback env w).2
  = trace w ++ EvRollback :: (if auto_restart env then [EvRestart] else []).
Proof.
  intros Hbackup Hok.
  unfold PullRules.rollback, PullRules.restore, PullRules.restart_wazuh.
  run. rewrite Hbackup. cbn. rewrite !Hok. cbn.
  destruct (auto_restart env); cbn; [|done].
  destruct (restart_ok env _); cbn; by rewrite <-app_assoc.
Qed.

(** The [try] block when [deploy_files] returns: the restart is attempted
    exactly when a count is positive. *)
Lemma deploy_step_returned env w rule_count decoder_count w' :
  PullRules.deploy_files env w = (Ret (rule_count, decoder_count), w') →
  deploy_step env w
  = try_except
      (let log_and_succeed : M bool :=
         PullRules.log_deployment env true rule_count decoder_count "";;
         mret true in
       if (0 <? rule_count)%nat || (0 <? decoder_count)%nat then
         restart_success ← PullRules.restart_wazuh env;
         if negb restart_success then PullRules.rollback env;; mret false
         else log_and_succeed
       else log_and_succeed)
      (λ e,
         PullRules.rollback env;;
         PullRules.log_deployment env false 0 0 (str e);;
         mret false) w'.
Proof.
  intros Hdeploy. unfold deploy_step.
  rewrite !try_except_eq, bind_eq, Hdeploy. done.
Qed.

(** The [try] block when [deploy_files] raises: the handler runs in the
    world the exception left. *)
Lemma deploy_step_raised env w e w' :
  PullRules.deploy_files env w = (Raise e, w') →
  deploy_step env w
  = (PullRules.rollback env;;
     PullRules.log_deployment env false 0 0 (str e);;
     mret false) w'.
Proof.
  intros Hdeploy. unfold deploy_step.
  by rewrite !try_except_eq, bind_eq, Hdeploy.
Qed.

Lemma pull_rules_log_eq env success rule_count decoder_count error w :
  PullRules.log_deployment env success rule_count decoder_count error w
  = let log_entry :=
      {| le_success := success; rules_deployed := rule_count;
         decoders_deployed := decoder_count; le_error := error |} in
    if log_writable env then
      (Ret tt,
       {| live := live w; backup_dir := backup_dir w; repo_dir := repo_dir w;
          extract_dir := extract_dir w; log_file := log_file w ++ [log_entry];
          trace := trace w ++ [EvLog log_entry]; observed := observed w |})
    else (Raise (OSError "Permission denied"), w).
Proof. unfold PullRules.log_deployment. by destruct (log_writable env). Qed.

(** The world after [deploy_files] in a run that reached step 3. *)
Lemma deploy_files_ready env w t :
  let w' := (PullRules.deploy_files env (ready w t)).2 in
  backup_dir w' = Some (live w)
  ∧ log_file w' = log_file w
  ∧ trace w' = trace w ++ [EvBackup; EvGit; EvDeploy]
  ∧ restarts w' = restarts w.
Proof.
  intros w'.
  assert (Hst := pull_rules_deploy_files_stores env (ready w t)).
  assert (Htr := pull_rules_deploy_files_trace env (ready w t)).
  fold w' in Hst, Htr. unfold preserving, stores in Hst. cbn in Hst, Htr.
  injection Hst as Hb _ _ Hl. rewrite <-app_assoc in Htr. cbn in Htr.
  repeat split; [done..|].
  unfold restarts. rewrite Htr, filter_app, length_app.
  rewrite !filter_cons_False by done. cbn. lia.
Qed.

(** Work on one category leaves the live directory of the other alone. *)
Lemma unlink_other c c' name :
  c ≠ c' → respects (preserving (λ w, subdir c' (live w))) (unlink c name).
Proof.
  intros Hne w. rewrite unlink_eq. unfold preserving. cbn.
  by apply subdir_set_subdir_ne.
Qed.

Lemma copy2_other env c c' name content :
  c ≠ c' →
  respects (preserving (λ w, subdir c' (live w))) (copy2 env c name content).
Proof.
  intros Hne w. unfold preserving, copy2. rewrite bind_eq. cbn [gets].
  destruct (subdir c (live w)); [|done].
  destruct (copy_fault env c name); [done|]. cbn.
  by apply subdir_set_subdir_ne.
Qed.

Lemma unlink_all_other c c' files :
  c ≠ c' → respects (preserving (λ w, subdir c' (live w))) (unlink_all c files).
Proof.
  intros Hne. induction files as [|[name content] rest IH]; cbn; frame.
  by apply unlink_other.
Qed.

Lemma copy_all_other globals env c c' files count :
  c ≠ c' →
  respects (preserving (λ w, subdir c' (live w)))
    (copy_all globals env c files count).
Proof.
  intros Hne. revert count.
  induction files as [|[name content] rest IH]; intros; cbn; frame.
  by apply copy2_other.
Qed.

Lemma deploy_category_other globals env c c' src :
  c ≠ c' →
  respects (preserving (λ w, subdir c' (live w)))
    (deploy_category globals env c src).
Proof.
  intros Hne. unfold deploy_category. frame.
  - by apply unlink_all_other.
  - by apply copy_all_other.
Qed.

(** A file of the working copy that cannot be copied makes [deploy_files]
    raise. *)
Lemma pull_rules_deploy_files_raises env w c src name content :
  repo_dir w ≫= subdir c = Some src →
  src !! name = Some content → is_xml name = true →
  copy_fault env c name = true →
  ∃ e, (PullRules.deploy_files env w).1 = Raise e.
Proof.
  intros Hsrc Hname Hxml Hfault.
  rewrite pull_rules_deploy_files_eq, bind_eq. cbn [emit modify].
  set (w0 := {| live := live w; trace := trace w ++ [EvDeploy] |}).
  rewrite bind_eq.
  destruct (mkdir_live_live Rules w0) as [Hret1 Hlive1].
  assert (Hst1 := mkdir_live_stores Rules w0).
  rewrite (pair_eq _ _ _ Hret1 eq_refl).
  set (w1 := (mkdir_live Rules w0).2) in *.
  rewrite bind_eq.
  destruct (mkdir_live_live Decoders w1) as [Hret2 Hlive2].
  assert (Hst2 := mkdir_live_stores Decoders w1).
  rewrite (pair_eq _ _ _ Hret2 eq_refl).
  set (w2 := (mkdir_live Decoders w1).2) in *.
  rewrite bind_eq. cbn [gets].
  assert (Hrepo : repo_dir w2 = repo_dir w).
  { unfold preserving, stores in Hst1, Hst2. subst w0. cbn in *. congruence. }
  rewrite Hrepo.
  assert (Hrules : is_Some (subdir Rules (live w2))).
  { rewrite Hlive2, Hlive1. by eexists. }
  assert (Hdecoders : is_Some (subdir Decoders (live w2))).
  { rewrite Hlive2. by eexists. }
  rewrite bind_eq. destruct c.
  - rewrite Hsrc.
    destruct (deploy_category_raises PullRules.module_globals env Rules src w2
                name content Hrules Hname Hxml Hfault) as [e He].
    exists e. destruct (deploy_category _ _ _ _ _) as [r w3]. cbn in He.
    by rewrite He.
  - assert (Hother := deploy_category_other PullRules.module_globals env Rules
                        Decoders (repo_dir w ≫= subdir Rules) ltac:(done) w2).
    unfold preserving in Hother.
    destruct (deploy_category _ env Rules _ w2) as [[n|e] w3]; [|by eexists].
    cbn in Hother. rewrite bind_eq, Hsrc.
    assert (Hdecoders3 : is_Some (subdir Decoders (live w3)))
      by (cbn in *; by rewrite Hother).
    destruct (deploy_category_raises PullRules.module_globals env Decoders src
                w3 name content Hdecoders3 Hname Hxml Hfault) as [e He].
    exists e. destruct (deploy_category _ _ _ _ _) as [r w4]. cbn in He.
    by rewrite He.
Qed.

(** Every step goes through: the run returns [True], the live directories
    hold the XML files of the working copy next to their own other files,
    one line is logged, and the manager was restarted when, and only when, a
    count is positive (and [auto_restart] is on). *)
Lemma success_run env force w t :
  create_backup env = true →
  (∀ c, backup_fault env c = false) →
  backup_dir w = None →
  git_result env = Some t →
  (∀ c name, copy_fault env c name = false) →
  restart_ok env (restarts w) && is_active_ok env (restarts w) = true →
  log_writable env = true →
  let rule_count := length (glob_xml (t_rules t)) in
  let decoder_count := length (glob_xml (t_decoders t)) in
  let entry :=
    {| le_success := true; rules_deployed := rule_count;
       decoders_deployed := decoder_count; le_error := "" |} in
  (PullRules.pull_and_deploy env force w).1 = Ret true
  ∧ live (PullRules.pull_and_deploy env force w).2
    = {| t_rules :=
           Some (deployed_opt (t_rules t) (default ∅ (t_rules (live w))));
         t_decoders :=
           Some (deployed_opt (t_decoders t) (default ∅ (t_decoders (live w)))) |}
  ∧ log_file (PullRules.pull_and_deploy env force w).2 = log_file w ++ [entry]
  ∧ trace (PullRules.pull_and_deploy env force w).2
    = trace w ++ [EvBackup; EvGit; EvDeploy]
      ++ (if ((0 <? rule_count)%nat || (0 <? decoder_count)%nat)
             && auto_restart env
          then [EvRestart] else [])
      ++ [EvLog entry].
Proof.
  intros Hcfg Hbackup Hfresh Hgit Hcopy Hrestart Hlog rule_count decoder_count entry.
  rewrite (pull_and_deploy_ready env force w t) by done.
  destruct (pull_rules_deploy_files_ok env (ready w t) Hcopy) as [Hret Hlive3].
  destruct (deploy_files_ready env w t) as (Hb & Hl & Htr & Hn).
  rewrite (deploy_step_returned _ _ _ _ _ (pair_eq _ _ _ Hret eq_refl)).
  set (w3 := (PullRules.deploy_files env (ready w t)).2) in *.
  cbn [repo_dir ready mbind option_bind subdir live] in *.
  fold rule_count decoder_count. rewrite try_except_eq.
  destruct ((0 <? rule_count)%nat || (0 <? decoder_count)%nat).
  - rewrite bind_eq. destruct (auto_restart env) eqn:Hauto; cbn [andb].
    + rewrite pull_rules_restart_eq, Hn, Hrestart by done. cbn [negb].
      rewrite bind_eq, pull_rules_log_eq, Hlog. cbn.
      rewrite Hlive3, Hl, Htr. repeat split. by rewrite <-!app_assoc.
    + rewrite pull_rules_restart_off by done. cbn [negb].
      rewrite bind_eq, pull_rules_log_eq, Hlog. cbn.
      rewrite Hlive3, Hl, Htr. repeat split. by rewrite <-!app_assoc.
  - cbn [andb]. rewrite bind_eq, pull_rules_log_eq, Hlog. cbn.
    rewrite Hlive3, Hl, Htr. repeat split. by rewrite <-!app_assoc.
Qed.

(** Deploying the same source twice gives what deploying it once gives. *)
Lemma lookup_xml_files (d : gmap string string) k :
  xml_files d !! k = if is_xml k then d !! k else None.
Proof.
  unfold xml_files. rewrite map_lookup_filter.
  destruct (d !! k) as [v|]; cbn; [|by destruct (is_xml k)].
  destruct (is_xml k) eqn:Hxml.
  - by rewrite option_guard_True.
  - rewrite option_guard_False; [done|]. cbn. congruence.
Qed.

Lemma lookup_other_files (d : gmap string string) k :
  other_files d !! k = if is_xml k then None else d !! k.
Proof.
  unfold other_files. rewrite map_lookup_filter.
  destruct (d !! k) as [v|]; cbn; [|by destruct (is_xml k)].
  destruct (is_xml k) eqn:Hxml.
  - rewrite option_guard_False; [done|]. cbn. tauto.
  - rewrite option_guard_True; [done|]. cbn. congruence.
Qed.

Lemma lookup_deployed src d k :
  deployed src d !! k = if is_xml k then src !! k else d !! k.
Proof.
  unfold deployed. rewrite lookup_union, lookup_xml_files, lookup_other_files.
  destruct (is_xml k).
  - by rewrite (right_id_L None union).
  - by rewrite (left_id_L None union).
Qed.

Lemma deployed_idem src d : deployed src (deployed src d) = deployed src d.
Proof.
  apply map_eq. intros k. rewrite !lookup_deployed. by destruct (is_xml k).
Qed.

Lemma deployed_opt_idem src d :
  deployed_opt src (deployed_opt src d) = deployed_opt src d.
Proof. destruct src; [apply deployed_idem|done]. Qed.

(** *** The API based puller *)

Lemma api_deploy_files_eq env :
  ApiPuller.deploy_files env
  = (emit EvDeploy;;
     temp_dir ← gets extract_dir;
     rule_count ←
       deploy_category ApiPuller.module_globals env Rules
         (temp_dir ≫= subdir Rules);
     decoder_count ←
       deploy_category ApiPuller.module_globals env Decoders
         (temp_dir ≫= subdir Decoders);
     mret (rule_count, decoder_count)).
Proof. done. Qed.

Lemma api_deploy_files_stores env :
  respects (preserving stores) (ApiPuller.deploy_files env).
Proof. rewrite api_deploy_files_eq. frame. Qed.

(** With an XML file in the unpacked [rules] directory, [deploy_files]
    clears the live rules of their XML files and raises at the first copy;
    the live decoders are not reached. *)
Lemma api_deploy_files_unbound env w src :
  extract_dir w ≫= subdir Rules = Some src →
  glob_xml (Some src) ≠ [] →
  (ApiPuller.deploy_files env w).1 = Raise (NameError "shutil")
  ∧ live (ApiPuller.deploy_files env w).2
    = set_subdir Rules (other_files <$> t_rules (live w)) (live w)
  ∧ trace (ApiPuller.deploy_files env w).2 = trace w ++ [EvDeploy].
Proof.
  intros Hsrc Hfiles. rewrite api_deploy_files_eq, bind_eq. cbn [emit modify].
  rewrite bind_eq. cbn [gets extract_dir]. rewrite Hsrc, bind_eq.
  match goal with |- context [deploy_category _ _ _ _ ?x] => set (w0 := x) end.
  destruct (deploy_category_unbound ApiPuller.module_globals env Rules src w0
              shutil_unbound Hfiles) as [Hret Hlive].
  assert (Htr := deploy_category_trace ApiPuller.module_globals env Rules
                   (Some src) w0).
  rewrite (pair_eq _ _ _ Hret eq_refl). cbn [fst snd].
  rewrite Hlive, Htr. by subst w0.
Qed.

(** Whatever the package holds, the counts that [deploy_files] can return
    are zero: a copy would have raised. *)
Lemma deploy_category_unbound_count env c src w n :
  (deploy_category ApiPuller.module_globals env c src w).1 = Ret n → n = 0%nat.
Proof.
  destruct src as [src|]; [|cbn; congruence].
  destruct (glob_xml (Some src)) as [|f files] eqn:Hfiles.
  - destruct (deploy_category_nothing ApiPuller.module_globals env c src w Hfiles)
      as [-> _]. congruence.
  - destruct (deploy_category_unbound ApiPuller.module_globals env c src w
                shutil_unbound) as [-> _]; [by rewrite Hfiles|done].
Qed.

Lemma api_deploy_files_counts env w rule_count decoder_count :
  (ApiPuller.deploy_files env w).1 = Ret (rule_count, decoder_count) →
  rule_count = 0%nat ∧ decoder_count = 0%nat.
Proof.
  rewrite api_deploy_files_eq, bind_eq. cbn [emit modify].
  rewrite bind_eq. cbn [gets]. rewrite bind_eq.
  match goal with |- context [deploy_category _ _ Rules ?s ?x] =>
    assert (Hr := deploy_category_unbound_count env Rules s x);
    destruct (deploy_category _ _ Rules s x) as [[n|e] w1]
  end; [|done].
  rewrite bind_eq.
  match goal with |- context [deploy_category _ _ Decoders ?s ?x] =>
    assert (Hd := deploy_category_unbound_count env Decoders s x);
    destruct (deploy_category _ _ Decoders s x) as [[m|e] w2]
  end; [|done].
  cbn. intros [= <- <-]. split; [by apply Hr|by apply Hd].
Qed.

Lemma api_backup_live env :
  respects (preserving live) (ApiPuller.backup_current env).
Proof. unfold ApiPuller.backup_current, ApiPuller.cp_to_backup. frame. Qed.

(** [backup_current] returns, it does not raise, and leaves one event when
    backups are configured. *)
Lemma api_backup_returns env w :
  ∃ ok, (ApiPuller.backup_current env w).1 = Ret ok
        ∧ trace (ApiPuller.backup_current env w).2
          = trace w ++ (if create_backup env then [EvBackup] else []).
Proof.
  unfold ApiPuller.backup_current, ApiPuller.cp_to_backup.
  destruct (create_backup env); run; [|exists true; by rewrite app_nil_r].
  destruct (t_rules (live w)); cbn;
    [destruct (backup_fault env Rules); cbn;
       [by eexists|
        destruct (t_rules (default empty_tree (backup_dir w))); cbn]|];
    (destruct (t_decoders (live w)); cbn; [|by eexists]);
    (destruct (backup_fault env Decoders); cbn; [by eexists|]);
    try (destruct (t_decoders (default empty_tree (backup_dir w))); cbn);
    by eexists.
Qed.

(** *** The trace of a run only grows *)

Definition trace_grows : relation World :=
  λ w w', trace w `prefix_of` trace w'.

Global Instance trace_grows_refl : Reflexive trace_grows.
Proof. intros w. unfold trace_grows. done. Qed.

Global Instance trace_grows_trans : Transitive trace_grows.
Proof. intros w1 w2 w3. unfold trace_grows. by etrans. Qed.

Lemma preserving_trace_grows {A} (m : M A) :
  respects (preserving trace) m → respects trace_grows m.
Proof. intros Hm w. unfold trace_grows. by rewrite (Hm w). Qed.

Lemma emit_grows ev : respects trace_grows (emit ev).
Proof. intros w. by exists [ev]. Qed.

Lemma set_live_grows t : respects trace_grows (set_live t).
Proof. by apply preserving_trace_grows. Qed.

Lemma set_backup_dir_grows b : respects trace_grows (set_backup_dir b).
Proof. by apply preserving_trace_grows. Qed.

Lemma set_repo_dir_grows r : respects trace_grows (set_repo_dir r).
Proof. by apply preserving_trace_grows. Qed.

Lemma set_extract_dir_grows x : respects trace_grows (set_extract_dir x).
Proof. by apply preserving_trace_grows. Qed.

Lemma append_log_grows e : respects trace_grows (append_log e).
Proof. by apply preserving_trace_grows. Qed.

Lemma deploy_category_grows globals env c src :
  respects trace_grows (deploy_category globals env c src).
Proof. apply preserving_trace_grows, deploy_category_trace. Qed.

Lemma mkdir_live_grows c : respects trace_grows (mkdir_live c).
Proof. apply preserving_trace_grows, mkdir_live_trace. Qed.

Global Hint Resolve emit_grows set_live_grows set_backup_dir_grows
  set_repo_dir_grows set_extract_dir_grows append_log_grows
  deploy_category_grows mkdir_live_grows : frame.

Lemma pull_rules_deploy_files_grows env :
  respects trace_grows (PullRules.deploy_files env).
Proof. rewrite pull_rules_deploy_files_eq. frame. Qed.

Lemma pull_rules_restart_grows env :
  respects trace_grows (PullRules.restart_wazuh env).
Proof. unfold PullRules.restart_wazuh. frame. Qed.

Global Hint Resolve pull_rules_deploy_files_grows pull_rules_restart_grows : frame.

Lemma pull_rules_rollback_grows env :
  respects trace_grows (PullRules.rollback env).
Proof. unfold PullRules.rollback, PullRules.restore. frame. Qed.

Lemma pull_rules_log_grows env success rule_count decoder_count error :
  respects trace_grows
    (PullRules.log_deployment env success rule_count decoder_count error).
Proof. unfold PullRules.log_deployment. frame. Qed.

Global Hint Resolve pull_rules_rollback_grows pull_rules_log_grows : frame.

Lemma deploy_step_grows env : respects trace_grows (deploy_step env).
Proof. unfold deploy_step. frame. Qed.

Lemma api_deploy_files_grows env :
  respects trace_grows (ApiPuller.deploy_files env).
Proof. rewrite api_deploy_files_eq. frame. Qed.

Lemma api_restart_grows env : respects trace_grows (ApiPuller.restart_wazuh env).
Proof. unfold ApiPuller.restart_wazuh. frame. Qed.

Lemma api_report_grows env success rule_count decoder_count error :
  respects trace_grows
    (ApiPuller.report_deployment env success rule_count decoder_count error).
Proof. unfold ApiPuller.report_deployment. frame. Qed.

Global Hint Resolve api_deploy_files_grows api_restart_grows api_report_grows
  : frame.

(** *** [backup_current] of the Git based puller *)

(** It returns, it does not raise; it returns [False] only when backups are
    configured, and then the attempt is on the trace. *)
Lemma pull_rules_backup_returns env w :
  ∃ ok, (PullRules.backup_current env w).1 = Ret ok
        ∧ trace (PullRules.backup_current env w).2
          = trace w ++ (if create_backup env then [EvBackup] else []).
Proof.
  unfold PullRules.backup_current, PullRules.copytree_to_backup.
  destruct (create_backup env); run; [|exists true; by rewrite app_nil_r].
  destruct (t_rules (live w)); cbn;
    [destruct (t_rules (default empty_tree (backup_dir w))); cbn;
       [by eexists|
        destruct (backup_fault env Rules); cbn; [by eexists|]]|];
    (destruct (t_decoders (live w)); cbn; [|by eexists]);
    (destruct (t_decoders (default empty_tree (backup_dir w))); cbn;
       [by eexists|]);
    (destruct (backup_fault env Decoders); cbn; by eexists).
Qed.

Lemma pull_rules_backup_failed env w :
  (PullRules.backup_current env w).1 = Ret false →
  trace (PullRules.backup_current env w).2 = trace w ++ [EvBackup].
Proof.
  intros Hfail. destruct (pull_rules_backup_returns env w) as (ok & _ & Htr).
  rewrite Htr. destruct (create_backup env) eqn:Hcfg; [done|].
  unfold PullRules.backup_current in Hfail. by rewrite Hcfg in Hfail.
Qed.

Lemma api_backup_failed env w :
  (ApiPuller.backup_current env w).1 = Ret false →
  trace (ApiPuller.backup_current env w).2 = trace w ++ [EvBackup].
Proof.
  intros Hfail. destruct (api_backup_returns env w) as (ok & _ & Htr).
  rewrite Htr. destruct (create_backup env) eqn:Hcfg; [done|].
  unfold ApiPuller.backup_current in Hfail. by rewrite Hcfg in Hfail.
Qed.

(** * Properties of the ledger *)

(** Two deployments of one node, the first successful, between them a
    download recorded for another node. *)
(** The row of table [servers] that a sequence of calls for one node, made
    from the first one on, leaves behind. *)
Definition row_of_calls (cs : list Ledger.Call) : option Ledger.ServerRow :=
  match cs with
  | [] => None
  | c0 :: rest =>
      Some {| Ledger.description := None;
              Ledger.first_seen := Ledger.c_now c0;
              Ledger.last_seen := Ledger.c_now (default c0 (last rest));
              Ledger.deployment_count := Z.of_nat (length cs);
              Ledger.last_success :=
                Ledger.c_now
                  <$> last (filter (λ c, Ledger.c_success c = true) rest);
              Ledger.is_active := 1 |}
  end.

Lemma row_of_calls_snoc cs c :
  row_of_calls (cs ++ [c])
  = Some match row_of_calls cs with
         | None => Ledger.new_server_row (Ledger.c_now c)
         | Some row =>
             Ledger.update_server_stats (Ledger.c_now c)
               (Ledger.int_of_bool (Ledger.c_success c)) row
         end.
Proof.
  destruct cs as [|c0 rest]; [done|].
  cbn [app row_of_calls]. f_equal. unfold Ledger.update_server_stats.
  cbn [Ledger.description Ledger.first_seen Ledger.last_seen
       Ledger.deployment_count Ledger.last_success Ledger.is_active].
  rewrite last_snoc, filter_app, filter_cons, filter_nil.
  cbn [default from_option id length]. rewrite length_app. cbn [length].
  f_equal; [lia|].
  destruct (Ledger.c_success c); cbn [Ledger.int_of_bool].
  - rewrite decide_True by done. rewrite decide_True by done.
    by rewrite last_snoc.
  - rewrite decide_False by done. rewrite decide_False by done.
    by rewrite app_nil_r.
Qed.

Lemma run_calls_row db sid cs :
  Ledger.servers db !! sid = None →
  Ledger.servers (Ledger.run_calls db cs) !! sid
  = row_of_calls (Ledger.calls_for sid cs).
Proof.
  intros Hnone. induction cs as [|c cs IH] using rev_ind; [done|].
  unfold Ledger.run_calls in *. rewrite foldl_snoc, Ledger.calls_for_snoc.
  destruct (decide (Ledger.c_server_id c = sid)) as [<-|Hne].
  - rewrite row_of_calls_snoc, <-IH.
    destruct (Ledger.servers (foldl Ledger.apply_call db cs)
                !! Ledger.c_server_id c) as [row|] eqn:Hrow.
    + by apply Ledger.apply_call_present.
    + by apply Ledger.apply_call_absent.
  - rewrite app_nil_r, Ledger.apply_call_other by done. exact IH.
Qed.

Lemma run_calls_records db sid cs :
  length (Ledger.records_for sid (Ledger.run_calls db cs))
  = (length (Ledger.records_for sid db)
     + length (Ledger.calls_for sid cs))%nat.
Proof.
  induction cs as [|c cs IH] using rev_ind; [cbn; lia|].
  unfold Ledger.run_calls in *.
  rewrite foldl_snoc, Ledger.records_for_apply_call, IH, Ledger.calls_for_snoc.
  rewrite length_app. destruct (decide _); cbn [length]; lia.
Qed.

Definition example_calls : list Ledger.Call :=
  [ {| Ledger.c_uuid := "u1"; Ledger.c_now := 100;
       Ledger.c_server_id := "node-1"; Ledger.c_action := "deploy";
       Ledger.c_rules := 3; Ledger.c_decoders := 1;
       Ledger.c_success := true; Ledger.c_error := "";
       Ledger.c_size := 0; Ledger.c_ip := "0.0.0.0" |};
    {| Ledger.c_uuid := "u2"; Ledger.c_now := 150;
       Ledger.c_server_id := "node-2"; Ledger.c_action := "download_package";
       Ledger.c_rules := 0; Ledger.c_decoders := 0;
       Ledger.c_success := true; Ledger.c_error := "";
       Ledger.c_size := 2048; Ledger.c_ip := "0.0.0.0" |};
    {| Ledger.c_uuid := "u3"; Ledger.c_now := 200;
       Ledger.c_server_id := "node-1"; Ledger.c_action := "deploy";
       Ledger.c_rules := 0; Ledger.c_decoders := 0;
       Ledger.c_success := false; Ledger.c_error := "Restart failed";
       Ledger.c_size := 0; Ledger.c_ip := "0.0.0.0" |} ].

(** Two calls for one node, the clock set back between them. *)
Definition backward_calls : list Ledger.Call :=
  [ {| Ledger.c_uuid := "u1"; Ledger.c_now := 200;
       Ledger.c_server_id := "node-1"; Ledger.c_action := "deploy";
       Ledger.c_rules := 3; Ledger.c_decoders := 1;
       Ledger.c_success := true; Ledger.c_error := "";
       Ledger.c_size := 0; Ledger.c_ip := "0.0.0.0" |};
    {| Ledger.c_uuid := "u2"; Ledger.c_now := 100;
       Ledger.c_server_id := "node-1"; Ledger.c_action := "deploy";
       Ledger.c_rules := 3; Ledger.c_decoders := 1;
       Ledger.c_success := true; Ledger.c_error := "";
       Ledger.c_size := 0; Ledger.c_ip := "0.0.0.0" |} ].

(** C8, refuted as stated.  [log_deployment] writes the reading of
    [datetime.now()] into [last_seen] whatever [first_seen] holds.  Two
    calls for a new node, the second made at an earlier reading of the local
    clock than the first, leave a row with counter 2 whose [last_seen] is
    before its [first_seen]. *)
Lemma last_seen_can_precede_first_seen :
  ∃ row,
    Ledger.servers (Ledger.run_calls Ledger.init_db backward_calls) !! "node-1"
    = Some row
    ∧ Ledger.deployment_count row = 2
    ∧ Ledger.first_seen row = 200
    ∧ Ledger.last_seen row = 100
    ∧ ¬ Ledger.first_seen row ≤ Ledger.last_seen row.
Proof.
  eexists. split; [vm_compute; reflexivity|].
  cbn [Ledger.deployment_count Ledger.first_seen Ledger.last_seen].
  repeat split. lia.
Qed.

(** C8, as [log_deployment] has it.  A node that the ledger does not know
    yet receives a sequence of [log_deployment] calls, successful or not,
    possibly interleaved with calls for other nodes.  When N >= 1 of the
    calls are for the node, its row in [servers] exists afterwards, its
    [deployment_count] is N, and N rows of [deployments] belong to it,
    whatever the clock reads.  Its [last_seen] is not before its
    [first_seen] when the clock readings of the node's own calls do not
    decrease. *)
Theorem deployment_count_matches_records (db0 : Ledger.DB) (sid : string)
    (cs : list Ledger.Call) :
  Ledger.servers db0 !! sid = None →
  Ledger.records_for sid db0 = [] →
  Ledger.calls_for sid cs ≠ [] →
  ∃ row,
    Ledger.servers (Ledger.run_calls db0 cs) !! sid = Some row
    ∧ Ledger.deployment_count row = Z.of_nat (length (Ledger.calls_for sid cs))
    ∧ length (Ledger.records_for sid (Ledger.run_calls db0 cs))
      = length (Ledger.calls_for sid cs)
    ∧ (Ledger.clock_monotone (Ledger.calls_for sid cs) →
       Ledger.first_seen row ≤ Ledger.last_seen row).
Proof.
  intros Hnone Hrows Hcalls.
  rewrite (run_calls_row db0 sid cs Hnone), run_calls_records, Hrows.
  destruct (Ledger.calls_for sid cs) as [|c0 rest]; [done|].
  eexists. split; [reflexivity|].
  cbn [Ledger.deployment_count Ledger.first_seen Ledger.last_seen].
  split; [done|]. split; [done|].
  unfold Ledger.clock_monotone. cbn [fmap list_fmap].
  intros Hmono. apply StronglySorted_inv in Hmono as [_ Hle].
  destruct (last rest) as [c|] eqn:Hlast; cbn [default from_option id]; [|lia].
  rewrite Forall_forall in Hle. apply Hle, list_elem_of_fmap_2.
  by apply last_Some_elem_of.
Qed.

Lemma deployment_count_matches_records_witness :
  ∃ row,
    Ledger.servers (Ledger.run_calls Ledger.init_db example_calls) !! "node-1"
    = Some row
    ∧ Ledger.deployment_count row
      = Z.of_nat (length (Ledger.calls_for "node-1" example_calls))
    ∧ length (Ledger.records_for "node-1"
                (Ledger.run_calls Ledger.init_db example_calls))
      = length (Ledger.calls_for "node-1" example_calls)
    ∧ (Ledger.clock_monotone (Ledger.calls_for "node-1" example_calls) →
       Ledger.first_seen row ≤ Ledger.last_seen row).
Proof.
  apply (deployment_count_matches_records Ledger.init_db "node-1" example_calls).
  - reflexivity.
  - reflexivity.
  - vm_compute. discriminate.
Defined.

(** C9, evaluated where it fails.  With no deployment row in the window,
    here on the database that [init_db] creates, the aggregate query returns
    the row (0, NULL, NULL): [successful] and [failed] are [None], not the
    counts 0 and 0 that would sum to [total_deployments]. *)
Theorem stats_of_empty_window_are_null (now days : Z) :
  let stats := (Ledger.get_deployment_stats now days Ledger.init_db).1 in
  Ledger.total_deployments stats = 0
  ∧ Ledger.successful stats = None
  ∧ Ledger.failed stats = None
  ∧ Ledger.success_rate stats = Some 0%Q
  ∧ (Ledger.get_deployment_stats now days Ledger.init_db).2 = Ledger.init_db.
Proof. done. Qed.

(** C10.  The first deployment recorded for an unknown node is a success:
    the row that is created counts one deployment and has no
    [last_success].  It stays so through failed deployments of the node and
    any deployments of other nodes, and the node's next successful
    deployment, its second, stores the time. *)
Theorem first_success_leaves_last_success_unset (db : Ledger.DB)
    (uuid4 : string) (now : Z) (sid action : string) (rules decoders : Z)
    (error : string) (size : Z) (ip : string) :
  Ledger.servers db !! sid = None →
  let db1 :=
    (Ledger.log_deployment uuid4 now sid action rules decoders true error
       size ip db).2 in
  (∃ row, Ledger.servers db1 !! sid = Some row
          ∧ Ledger.deployment_count row = 1
          ∧ Ledger.last_success row = None)
  ∧ ∀ cs c,
      Ledger.no_success_for sid cs →
      Ledger.c_server_id c = sid → Ledger.c_success c = true →
      (∃ row, Ledger.servers (Ledger.run_calls db1 cs) !! sid = Some row
              ∧ Ledger.last_success row = None)
      ∧ (∃ row, Ledger.servers (Ledger.run_calls db1 (cs ++ [c])) !! sid
                = Some row
                ∧ Ledger.last_success row = Some (Ledger.c_now c)).
Proof.
  intros Hnone db1.
  assert (Hrow1 : Ledger.servers db1 !! sid = Some (Ledger.new_server_row now))
    by by apply Ledger.log_deployment_absent.
  split; [by eexists|].
  intros cs c Hfail Hsid Hsuccess.
  destruct (Ledger.last_success_kept sid cs db1 _ Hrow1 Hfail)
    as (row & Hrow & Hlast & _).
  split; [by exists row|].
  unfold Ledger.run_calls in *. rewrite foldl_snoc. subst sid.
  rewrite (Ledger.apply_call_present _ _ _ Hrow), Hsuccess. by eexists.
Qed.

Lemma first_success_leaves_last_success_unset_witness :
  let db1 :=
    (Ledger.log_deployment "u1" 100 "node-1" "deploy" 3 1 true "" 0 "0.0.0.0"
       Ledger.init_db).2 in
  (∃ row, Ledger.servers db1 !! "node-1" = Some row
          ∧ Ledger.deployment_count row = 1
          ∧ Ledger.last_success row = None)
  ∧ ∀ cs c,
      Ledger.no_success_for "node-1" cs →
      Ledger.c_server_id c = "node-1" → Ledger.c_success c = true →
      (∃ row, Ledger.servers (Ledger.run_calls db1 cs) !! "node-1" = Some row
              ∧ Ledger.last_success row = None)
      ∧ (∃ row, Ledger.servers (Ledger.run_calls db1 (cs ++ [c])) !! "node-1"
                = Some row
                ∧ Ledger.last_success row = Some (Ledger.c_now c)).
Proof.
  apply (first_success_leaves_last_success_unset Ledger.init_db "u1" 100
           "node-1" "deploy" 3 1 "" 0 "0.0.0.0").
  reflexivity.
Defined.

(** * Properties of the pullers *)

(** A node with two rule files, a file of its own and one decoder. *)
Definition node_live : Tree :=
  {| t_rules :=
       Some {[ "0100-local.xml" := "<group name='old-local'/>";
               "0200-ssh.xml" := "<group name='old-ssh'/>";
               "README" := "managed by puller" ]};
     t_decoders := Some {[ "0100-local.xml" := "<decoder name='old'/>" ]} |}.

(** The bundle the authority offers: the two rule files changed, a third
    added, the decoder unchanged. *)
Definition bundle : Tree :=
  {| t_rules :=
       Some {[ "0100-local.xml" := "<group name='new-local'/>";
               "0200-ssh.xml" := "<group name='new-ssh'/>";
               "0300-web.xml" := "<group name='web'/>" ]};
     t_decoders := Some {[ "0100-local.xml" := "<decoder name='old'/>" ]} |}.

Definition node_world : World :=
  {| live := node_live; backup_dir := None; repo_dir := None;
     extract_dir := None; log_file := []; trace := []; observed := [] |}.

(** The environments of the examples: every call succeeds but the ones
    named. *)
Definition example_env (create_backup backup_ok : bool)
    (copy_fault : Category → string → bool) (restart_ok log_writable : bool)
    : Env :=
  {| auto_restart := true; create_backup := create_backup;
     backup_fault := λ _, negb backup_ok;
     git_result := Some bundle;
     copy_fault := copy_fault;
     restart_ok := λ _, restart_ok; is_active_ok := λ _, true;
     restore_fault := λ _, false;
     log_writable := log_writable;
     api_available := true; download_ok := true;
     extract_result := Some bundle;
     report_ok := true |}.

Definition no_fault : Category → string → bool := λ _ _, false.

(** The copy of one rule file fails. *)
Definition ssh_fault : Category → string → bool :=
  λ c name, match c with Rules => String.eqb name "0200-ssh.xml" | Decoders => false end.

(** The default configuration, nothing fails. *)
Definition fair_env : Env := example_env true true no_fault true true.

(** The backup device fails. *)
Definition no_backup_env : Env := example_env true false no_fault true true.

(** One copy fails, with and without [create_backup]. *)
Definition copy_fault_env : Env := example_env true true ssh_fault true true.
Definition copy_fault_unsaved_env : Env := example_env false true ssh_fault true true.

(** The manager does not come back, with and without [create_backup]. *)
Definition unhealthy_env : Env := example_env true true no_fault false true.
Definition unhealthy_unsaved_env : Env := example_env false true no_fault false true.

(** The log file cannot be written. *)
Definition read_only_log_env : Env := example_env true true no_fault true false.

(** C2.  A run of the API based puller reaches step 5 (the API answered,
    the backup went through or [force] was given, the package was downloaded
    and unpacked) and the unpacked [rules] directory holds an XML file.
    Then [deploy_files] unlinks every XML file of the live rules directory
    and the first [shutil.copy2] raises [NameError]; the handler reports the
    failure and the run returns [False].  Nothing is rolled back and nothing
    restarted: the live rules directory is left without its XML files, the
    live decoders directory as it was. *)
Theorem api_run_empties_live_rules (env : Env) (force : bool) (w : World)
    (t : Tree) (src : gmap string string) (name content : string) :
  api_available env = true →
  (force = true
   ∨ (ApiPuller.backup_current env
        (ApiPuller.get_available_files env w).2).1 = Ret true) →
  download_ok env = true →
  extract_result env = Some t →
  t_rules t = Some src →
  src !! name = Some content → is_xml name = true →
  (ApiPuller.pull_and_deploy env force w).1 = Ret false
  ∧ t_rules (live (ApiPuller.pull_and_deploy env force w).2)
    = other_files <$> t_rules (live w)
  ∧ (∀ f d, t_rules (live (ApiPuller.pull_and_deploy env force w).2) = Some d →
            is_xml f = true → d !! f = None)
  ∧ t_decoders (live (ApiPuller.pull_and_deploy env force w).2)
    = t_decoders (live w)
  ∧ trace (ApiPuller.pull_and_deploy env force w).2
    = trace w ++ [EvApiList]
      ++ (if create_backup env then [EvBackup] else [])
      ++ [EvDownload; EvExtract; EvDeploy;
          EvReport false 0 0 "name 'shutil' is not defined"].
Proof.
  intros Havailable Hbackup Hdownload Hextract Hrules Hname Hxml.
  assert (Hclear : ∀ f d, other_files <$> t_rules (live w) = Some d →
                          is_xml f = true → d !! f = None).
  { intros f d Hd Hf. destruct (t_rules (live w)) as [d0|]; [|done].
    injection Hd as <-. by rewrite lookup_other_files, Hf. }
  unfold ApiPuller.pull_and_deploy. rewrite !bind_eq.
  unfold ApiPuller.get_available_files in *. rewrite !bind_eq in *.
  proj. rewrite Havailable. proj. rewrite !bind_eq.
  match goal with |- context [ApiPuller.backup_current env ?x] =>
    set (w1 := x) in *
  end.
  destruct (api_backup_returns env w1) as (ok & Hok & Htr2).
  assert (Hlive2 := api_backup_live env w1).
  rewrite (pair_eq _ _ _ Hok eq_refl).
  set (w2 := (ApiPuller.backup_current env w1).2) in *.
  assert (Hgo : negb ok && negb force = false).
  { destruct Hbackup as [->|Hb]; [by rewrite andb_false_r|].
    rewrite Hok in Hb. by injection Hb as ->. }
  rewrite Hgo, bind_eq. unfold ApiPuller.download_package.
  rewrite bind_eq. proj. rewrite Hdownload. proj.
  rewrite bind_eq. unfold ApiPuller.extract_package.
  rewrite bind_eq, Hextract. proj. rewrite bind_eq. proj.
  match goal with |- context [try_finally _ _ ?x] => set (w4 := x) end.
  assert (Hfiles : glob_xml (Some src) ≠ []).
  { intros Hnil.
    assert (Hin : (name, content) ∈ glob_xml (Some src)).
    { apply elem_of_map_to_list, map_lookup_filter_Some. by split. }
    rewrite Hnil in Hin. by apply elem_of_nil in Hin. }
  destruct (api_deploy_files_unbound env w4 src) as (Hret & Hlive5 & Htr5);
    [by subst w4; cbn; rewrite Hrules|done|].
  unfold try_finally, try_except. rewrite bind_eq.
  rewrite (pair_eq _ _ _ Hret eq_refl).
  unfold ApiPuller.report_deployment. rewrite !bind_eq. proj.
  rewrite Hlive5, Htr5. subst w4. proj.
  unfold preserving in Hlive2. rewrite Htr2, Hlive2. subst w1. proj.
  repeat split; [exact Hclear|].
  by rewrite <-!app_assoc.
Qed.

Lemma api_run_empties_live_rules_witness :
  (ApiPuller.pull_and_deploy fair_env false node_world).1 = Ret false
  ∧ t_rules (live (ApiPuller.pull_and_deploy fair_env false node_world).2)
    = other_files <$> t_rules (live node_world)
  ∧ (∀ f d,
       t_rules (live (ApiPuller.pull_and_deploy fair_env false node_world).2)
       = Some d →
       is_xml f = true → d !! f = None)
  ∧ t_decoders (live (ApiPuller.pull_and_deploy fair_env false node_world).2)
    = t_decoders (live node_world)
  ∧ trace (ApiPuller.pull_and_deploy fair_env false node_world).2
    = trace node_world ++ [EvApiList]
      ++ (if create_backup fair_env then [EvBackup] else [])
      ++ [EvDownload; EvExtract; EvDeploy;
          EvReport false 0 0 "name 'shutil' is not defined"].
Proof.
  apply (api_run_empties_live_rules fair_env false node_world bundle
           {[ "0100-local.xml" := "<group name='new-local'/>";
              "0200-ssh.xml" := "<group name='new-ssh'/>";
              "0300-web.xml" := "<group name='web'/>" ]}
           "0300-web.xml" "<group name='web'/>").
  - reflexivity.
  - right. vm_compute. reflexivity.
  - reflexivity.
  - reflexivity.
  - reflexivity.
  - vm_compute. reflexivity.
  - vm_compute. reflexivity.
Defined.

Global Instance Tree_eq_dec : EqDecision Tree.
Proof. solve_decision. Defined.

(** Replacement of the directory of category [c] is atomic over the states
    [seen] when each of them shows the directory either as it was before or
    as it is after. *)
Definition category_atomic (c : Category) (before after : Tree)
    (seen : list Tree) : Prop :=
  Forall (λ s, subdir c s = subdir c before ∨ subdir c s = subdir c after) seen.

(** The live tree of the example node with its XML rules unlinked. *)
Definition node_rules_cleared : Tree :=
  {| t_rules := Some {[ "README" := "managed by puller" ]};
     t_decoders := t_decoders node_live |}.

(** C1, refuted as stated.  In a run of the Git based puller in which
    nothing fails, the live rules directory passes through a state without
    any XML file, which is neither the old nor the new file set.  And when
    no backup is configured, a copy that fails leaves the live rules a mix of
    new files and a missing one, not the files before the run. *)
Lemma replacement_is_not_atomic :
  (PullRules.pull_and_deploy fair_env false node_world).1 = Ret true
  ∧ node_rules_cleared
      ∈ observed (PullRules.pull_and_deploy fair_env false node_world).2
  ∧ ¬ category_atomic Rules (live node_world)
        (live (PullRules.pull_and_deploy fair_env false node_world).2)
        (observed (PullRules.pull_and_deploy fair_env false node_world).2)
  ∧ (PullRules.pull_and_deploy copy_fault_unsaved_env false node_world).1
    = Ret false
  ∧ t_rules (live (PullRules.pull_and_deploy copy_fault_unsaved_env false
                     node_world).2)
    = Some {[ "README" := "managed by puller";
              "0100-local.xml" := "<group name='new-local'/>";
              "0300-web.xml" := "<group name='web'/>" ]}
  ∧ live (PullRules.pull_and_deploy copy_fault_unsaved_env false node_world).2
    ≠ live node_world.
Proof.
  split; [by vm_compute|].
  split; [apply (bool_decide_unpack _); by vm_compute|].
  split; [apply (bool_decide_unpack _); by vm_compute|].
  split; [by vm_compute|].
  split; [by vm_compute|].
  apply (bool_decide_unpack _). by vm_compute.
Qed.

(** C1, as the Git based puller has it.  A backup of both live directories
    was taken, into a backup directory that did not exist before, and a copy
    fails during [deploy_files]: when the copies back from the backup go
    through, the handler's [rollback] puts both directories back, so that
    the live tree after the run is the live tree before it; and the run
    returns [False] when the failure line can be written to the log. *)
Theorem copy_fault_is_rolled_back (env : Env) (force : bool) (w : World)
    (r d : gmap string string) (t : Tree) (c : Category)
    (src : gmap string string) (name content : string) :
  create_backup env = true →
  (∀ c, backup_fault env c = false) →
  backup_dir w = None →
  live w = {| t_rules := Some r; t_decoders := Some d |} →
  git_result env = Some t →
  subdir c t = Some src →
  src !! name = Some content → is_xml name = true →
  copy_fault env c name = true →
  (∀ c, restore_fault env c = false) →
  live (PullRules.pull_and_deploy env force w).2 = live w
  ∧ (log_writable env = true →
     (PullRules.pull_and_deploy env force w).1 = Ret false).
Proof.
  intros Hcfg Hbackup Hfresh Hlive Hgit Hsrc Hname Hxml Hfault Hrestore.
  rewrite (pull_and_deploy_ready env force w t) by done.
  destruct (pull_rules_deploy_files_raises env (ready w t) c src name content)
    as [e He]; [done..|].
  destruct (deploy_files_ready env w t) as (Hb & Hl & Htr & Hn).
  rewrite (deploy_step_raised _ _ e _ (pair_eq _ _ _ He eq_refl)).
  set (w3 := (PullRules.deploy_files env (ready w t)).2) in *.
  assert (Hb3 : backup_dir w3 = Some {| t_rules := Some r; t_decoders := Some d |})
    by by rewrite Hb, Hlive.
  destruct (pull_rules_rollback_restores env w3 r d Hb3 Hrestore) as [Hret4 Hlive4].
  rewrite bind_eq, (pair_eq _ _ _ Hret4 eq_refl).
  rewrite bind_eq, pull_rules_log_eq.
  destruct (log_writable env); cbn; by rewrite Hlive4, Hlive.
Qed.

Lemma copy_fault_is_rolled_back_witness :
  live (PullRules.pull_and_deploy copy_fault_env false node_world).2
  = live node_world
  ∧ (PullRules.pull_and_deploy copy_fault_env false node_world).1 = Ret false.
Proof.
  destruct (copy_fault_is_rolled_back copy_fault_env false node_world
           {[ "0100-local.xml" := "<group name='old-local'/>";
              "0200-ssh.xml" := "<group name='old-ssh'/>";
              "README" := "managed by puller" ]}
           {[ "0100-local.xml" := "<decoder name='old'/>" ]}
           bundle Rules
           {[ "0100-local.xml" := "<group name='new-local'/>";
              "0200-ssh.xml" := "<group name='new-ssh'/>";
              "0300-web.xml" := "<group name='web'/>" ]}
           "0200-ssh.xml" "<group name='new-ssh'/>") as [Hlive Hret].
  - reflexivity.
  - intros c. reflexivity.
  - reflexivity.
  - reflexivity.
  - reflexivity.
  - reflexivity.
  - vm_compute. reflexivity.
  - vm_compute. reflexivity.
  - vm_compute. reflexivity.
  - intros c. reflexivity.
  - split; [exact Hlive|]. apply Hret. reflexivity.
Defined.

(** The outcomes a deployment record distinguishes, and the one a line of
    the log expresses: the line has a success flag and nothing else. *)
Inductive Outcome := SUCCESS | FAILED | ROLLED_BACK.

Definition recorded_outcome (e : LogEntry) : Outcome :=
  if le_success e then SUCCESS else FAILED.

(** C3, refuted as stated.  The files are deployed and the manager does not
    come back.  The Git based puller rolls back and returns [False], but
    writes no record of the run at all, so none says ROLLED_BACK; and with
    [create_backup] off there is nothing to restore from: the live tree keeps
    the new files. *)
Lemma failed_restart_leaves_no_record :
  (PullRules.pull_and_deploy unhealthy_env false node_world).1 = Ret false
  ∧ trace (PullRules.pull_and_deploy unhealthy_env false node_world).2
    = [EvBackup; EvGit; EvDeploy; EvRestart; EvRollback; EvRestart]
  ∧ log_file (PullRules.pull_and_deploy unhealthy_env false node_world).2 = []
  ∧ ¬ (∃ e,
         e ∈ log_file (PullRules.pull_and_deploy unhealthy_env false node_world).2
         ∧ recorded_outcome e = ROLLED_BACK)
  ∧ (PullRules.pull_and_deploy unhealthy_unsaved_env false node_world).1
    = Ret false
  ∧ live (PullRules.pull_and_deploy unhealthy_unsaved_env false node_world).2
    ≠ live node_world.
Proof.
  split; [by vm_compute|].
  split; [by vm_compute|].
  assert (Hlog :
    log_file (PullRules.pull_and_deploy unhealthy_env false node_world).2 = [])
    by by vm_compute.
  split; [exact Hlog|].
  split.
  { rewrite Hlog. intros (e & He & _). by apply elem_of_nil in He. }
  split; [by vm_compute|].
  apply (bool_decide_unpack _). by vm_compute.
Qed.

(** C3, as the Git based puller has it.  [deploy_files] copied at least one
    file, the restart or the check that follows it fails, and the backup
    taken at the start of the run holds both live directories: [rollback]
    is called and puts them back, the live tree after the run is the live
    tree before it, and the run returns [False]. *)
Theorem restart_failure_is_rolled_back (env : Env) (force : bool) (w : World)
    (r d : gmap string string) (t : Tree) :
  create_backup env = true →
  (∀ c, backup_fault env c = false) →
  backup_dir w = None →
  live w = {| t_rules := Some r; t_decoders := Some d |} →
  git_result env = Some t →
  (∀ c name, copy_fault env c name = false) →
  (0 < length (glob_xml (t_rules t)) + length (glob_xml (t_decoders t)))%nat →
  auto_restart env = true →
  restart_ok env (restarts w) && is_active_ok env (restarts w) = false →
  (∀ c, restore_fault env c = false) →
  (PullRules.pull_and_deploy env force w).1 = Ret false
  ∧ live (PullRules.pull_and_deploy env force w).2 = live w
  ∧ (trace w ++ [EvBackup; EvGit; EvDeploy; EvRestart; EvRollback])
      `prefix_of` trace (PullRules.pull_and_deploy env force w).2.
Proof.
  intros Hcfg Hbackup Hfresh Hlive Hgit Hcopy Hfiles Hauto Hrestart Hrestore.
  rewrite (pull_and_deploy_ready env force w t) by done.
  destruct (pull_rules_deploy_files_ok env (ready w t) Hcopy) as [Hret _].
  destruct (deploy_files_ready env w t) as (Hb & Hl & Htr & Hn).
  rewrite (deploy_step_returned _ _ _ _ _ (pair_eq _ _ _ Hret eq_refl)).
  set (w3 := (PullRules.deploy_files env (ready w t)).2) in *.
  cbn [repo_dir ready mbind option_bind subdir].
  rewrite try_except_eq.
  replace ((0 <? length (glob_xml (t_rules t)))%nat
           || (0 <? length (glob_xml (t_decoders t)))%nat) with true.
  2:{ symmetry. apply orb_true_iff. rewrite !Nat.ltb_lt. lia. }
  rewrite bind_eq, pull_rules_restart_eq, Hn, Hrestart by done.
  cbn [negb]. rewrite bind_eq.
  match goal with |- context [PullRules.rollback env ?x] => set (w4 := x) end.
  assert (Hb4 : backup_dir w4 = Some {| t_rules := Some r; t_decoders := Some d |}).
  { subst w4. cbn. by rewrite Hb, Hlive. }
  destruct (pull_rules_rollback_restores env w4 r d Hb4 Hrestore) as [Hret5 Hlive5].
  assert (Htr5 := rollback_trace_restores env w4 r d Hb4 Hrestore).
  rewrite (pair_eq _ _ _ Hret5 eq_refl). cbn [mret M_ret fst snd].
  repeat split.
  - by rewrite Hlive5, Hlive.
  - rewrite Htr5, Hauto. subst w4. cbn [trace]. rewrite Htr.
    exists [EvRestart]. by rewrite <-!app_assoc.
Qed.

Lemma restart_failure_is_rolled_back_witness :
  (PullRules.pull_and_deploy unhealthy_env false node_world).1 = Ret false
  ∧ live (PullRules.pull_and_deploy unhealthy_env false node_world).2
    = live node_world
  ∧ (trace node_world ++ [EvBackup; EvGit; EvDeploy; EvRestart; EvRollback])
      `prefix_of` trace (PullRules.pull_and_deploy unhealthy_env false
                           node_world).2.
Proof.
  apply (restart_failure_is_rolled_back unhealthy_env false node_world
           {[ "0100-local.xml" := "<group name='old-local'/>";
              "0200-ssh.xml" := "<group name='old-ssh'/>";
              "README" := "managed by puller" ]}
           {[ "0100-local.xml" := "<decoder name='old'/>" ]}
           bundle).
  - reflexivity.
  - intros c. reflexivity.
  - reflexivity.
  - reflexivity.
  - reflexivity.
  - intros c name. reflexivity.
  - vm_compute. lia.
  - reflexivity.
  - reflexivity.
  - intros c. reflexivity.
Defined.

(** A node whose live tree is the bundle already. *)
Definition current_world : World :=
  {| live := bundle; backup_dir := None; repo_dir := None;
     extract_dir := None; log_file := []; trace := []; observed := [] |}.




(** *** The states of the live tree that a run shows *)

Definition observed_grows : relation World :=
  λ w w', observed w `prefix_of` observed w'.

Global Instance observed_grows_refl : Reflexive observed_grows.
Proof. intros w. unfold observed_grows. done. Qed.

Global Instance observed_grows_trans : Transitive observed_grows.
Proof. intros w1 w2 w3. unfold observed_grows. by etrans. Qed.

Lemma preserving_observed_grows {A} (m : M A) :
  respects (preserving observed) m → respects observed_grows m.
Proof. intros Hm w. unfold observed_grows. by rewrite (Hm w). Qed.

Lemma emit_observed ev : respects observed_grows (emit ev).
Proof. by apply preserving_observed_grows. Qed.

Lemma set_live_observed t : respects observed_grows (set_live t).
Proof. intros w. by exists [t]. Qed.

Lemma set_backup_dir_observed b : respects observed_grows (set_backup_dir b).
Proof. by apply preserving_observed_grows. Qed.

Lemma append_log_observed e : respects observed_grows (append_log e).
Proof. by apply preserving_observed_grows. Qed.

Global Hint Resolve emit_observed set_live_observed set_backup_dir_observed
  append_log_observed : frame.

Lemma unlink_observed c name : respects observed_grows (unlink c name).
Proof. unfold unlink. frame. Qed.

Lemma copy2_observed env c name content :
  respects observed_grows (copy2 env c name content).
Proof. unfold copy2. frame. Qed.

Lemma mkdir_live_observed c : respects observed_grows (mkdir_live c).
Proof. unfold mkdir_live. frame. Qed.

Global Hint Resolve unlink_observed copy2_observed mkdir_live_observed : frame.

Lemma unlink_all_observed c files : respects observed_grows (unlink_all c files).
Proof. induction files as [|[name content] rest IH]; cbn [unlink_all]; frame. Qed.

Lemma copy_all_observed globals env c files count :
  respects observed_grows (copy_all globals env c files count).
Proof.
  revert count.
  induction files as [|[name content] rest IH]; intros count;
    cbn [copy_all]; frame.
Qed.

Global Hint Resolve unlink_all_observed copy_all_observed : frame.

Lemma deploy_category_observed globals env c src :
  respects observed_grows (deploy_category globals env c src).
Proof. unfold deploy_category. frame. Qed.

Lemma pull_rules_restart_observed env :
  respects observed_grows (PullRules.restart_wazuh env).
Proof. unfold PullRules.restart_wazuh. frame. Qed.

Global Hint Resolve deploy_category_observed pull_rules_restart_observed : frame.

Lemma pull_rules_rollback_observed env :
  respects observed_grows (PullRules.rollback env).
Proof. unfold PullRules.rollback, PullRules.restore. frame. Qed.

Lemma pull_rules_log_observed env success rule_count decoder_count error :
  respects observed_grows
    (PullRules.log_deployment env success rule_count decoder_count error).
Proof. unfold PullRules.log_deployment. frame. Qed.

Global Hint Resolve pull_rules_rollback_observed pull_rules_log_observed : frame.

(** The run from [w] to [w'] shows the live tree in state [s]. *)
Definition shows (w w' : World) (s : Tree) : Prop :=
  ∃ new, observed w' = observed w ++ new ∧ s ∈ new.

Lemma shows_between w0 w w' w'' s :
  observed_grows w0 w → shows w w' s → observed_grows w' w'' → shows w0 w'' s.
Proof.
  unfold observed_grows, shows. intros [k0 H0] (new & Hnew & Hs) [k1 H1].
  exists (k0 ++ new ++ k1). split.
  - by rewrite H1, Hnew, H0, <-!app_assoc.
  - set_solver.
Qed.

Lemma shows_drop w w' s :
  shows w w' s → s ∈ drop (length (observed w)) (observed w').
Proof. intros (new & -> & Hs). by rewrite drop_app_length. Qed.

Lemma xml_files_other_files (d : gmap string string) : xml_files (other_files d) = ∅.
Proof.
  apply map_eq. intros k. rewrite lookup_xml_files, lookup_other_files.
  rewrite lookup_empty. by destruct (is_xml k).
Qed.

Lemma glob_xml_other_files (d : option (gmap string string)) :
  glob_xml (other_files <$> d) = [].
Proof.
  destruct d as [d|]; [|done]. cbn [fmap option_fmap option_map glob_xml].
  fold (xml_files (other_files d)). by rewrite xml_files_other_files.
Qed.

Lemma xml_files_deployed src d : xml_files (deployed src d) = xml_files src.
Proof.
  apply map_eq. intros k. rewrite !lookup_xml_files, lookup_deployed.
  by destruct (is_xml k).
Qed.

Lemma glob_xml_deployed src d :
  glob_xml (Some (deployed src d)) = glob_xml (Some src).
Proof.
  unfold glob_xml. fold (xml_files (deployed src d)) (xml_files src).
  by rewrite xml_files_deployed.
Qed.

(** The clearing loop over a list that is not empty ends in a state that a
    reader could meet. *)
Lemma unlink_all_shows c files w :
  files ≠ [] →
  shows w (unlink_all c files w).2 (live (unlink_all c files w).2).
Proof.
  revert w. induction files as [|[name content] rest IH]; intros w Hne; [done|].
  rewrite unlink_all_cons, bind_eq, unlink_eq.
  set (w1 := with_live _ w).
  assert (H1 : shows w w1 (live w1)).
  { exists [live w1]. split; [done|]. apply list_elem_of_here. }
  destruct rest as [|f rest]; [done|].
  eapply (shows_between w w1); [|apply IH; done|reflexivity].
  destruct H1 as (new & Hnew & _). by exists new.
Qed.

(** A category with an XML file in the live directory: its deployment shows
    the directory without any XML file. *)
Lemma deploy_category_shows globals env c src w :
  glob_xml (subdir c (live w)) ≠ [] →
  ∃ s, shows w (deploy_category globals env c (Some src) w).2 s
       ∧ glob_xml (subdir c s) = [].
Proof.
  intros Hxml. unfold deploy_category. rewrite bind_eq. cbn [gets].
  rewrite bind_eq.
  destruct (clear_live c w) as [Hret Hlive].
  assert (Hshows := unlink_all_shows c _ w Hxml).
  rewrite (pair_eq _ _ _ Hret eq_refl).
  set (w1 := (unlink_all c (glob_xml (subdir c (live w))) w).2) in *.
  exists (live w1). split.
  - eapply shows_between; [reflexivity|exact Hshows|].
    apply copy_all_observed.
  - by rewrite Hlive, subdir_set_subdir, glob_xml_other_files.
Qed.

(** [deploy_files] shows every category that it replaces without its XML
    files. *)
Lemma pull_rules_deploy_files_shows env w t c src r d :
  (∀ c name, copy_fault env c name = false) →
  repo_dir w = Some t →
  subdir c t = Some src →
  live w = {| t_rules := Some r; t_decoders := Some d |} →
  glob_xml (subdir c (live w)) ≠ [] →
  ∃ s, shows w (PullRules.deploy_files env w).2 s ∧ glob_xml (subdir c s) = [].
Proof.
  intros Hok Hrepo Hsrc Hlive Hxml.
  rewrite pull_rules_deploy_files_eq, bind_eq. cbn [emit modify].
  set (w0 := {| live := live w; trace := trace w ++ [EvDeploy] |}).
  assert (H0 : observed_grows w w0) by (unfold observed_grows; reflexivity).
  rewrite bind_eq.
  destruct (mkdir_live_live Rules w0) as [Hret1 Hlive1].
  assert (Hst1 := mkdir_live_stores Rules w0).
  assert (H1 := mkdir_live_observed Rules w0).
  rewrite (pair_eq _ _ _ Hret1 eq_refl).
  set (w1 := (mkdir_live Rules w0).2) in *.
  rewrite bind_eq.
  destruct (mkdir_live_live Decoders w1) as [Hret2 Hlive2].
  assert (Hst2 := mkdir_live_stores Decoders w1).
  assert (H2 := mkdir_live_observed Decoders w1).
  rewrite (pair_eq _ _ _ Hret2 eq_refl).
  set (w2 := (mkdir_live Decoders w1).2) in *.
  rewrite bind_eq. cbn [gets].
  assert (Hrepo2 : repo_dir w2 = Some t).
  { unfold preserving, stores in Hst1, Hst2. subst w0. cbn in *. congruence. }
  assert (Hlive' : live w2 = live w).
  { rewrite Hlive2, Hlive1. subst w0. cbn [live]. by rewrite Hlive. }
  assert (Hw2 : observed_grows w w2) by (etrans; [exact H0|by etrans]).
  rewrite Hrepo2. cbn [mbind option_bind]. rewrite bind_eq.
  destruct (deploy_category_ok_opt PullRules.module_globals env Rules
              (subdir Rules t) w2 r) as [Hret3 Hlive3];
    [done|done|by rewrite Hlive', Hlive|].
  assert (H3 := deploy_category_observed PullRules.module_globals env Rules
                  (subdir Rules t) w2).
  assert (Hother := deploy_category_other PullRules.module_globals env Rules
                      Decoders (subdir Rules t) ltac:(done) w2).
  assert (H4 : ∀ w3, observed_grows w3
             ((deploy_category PullRules.module_globals env Decoders
                 (subdir Decoders t) w3).2)).
  { intros w3. apply deploy_category_observed. }
  destruct c.
  - rewrite Hsrc in *.
    destruct (deploy_category_shows PullRules.module_globals env Rules src w2)
      as (s & Hs & Hnone); [by rewrite Hlive'|].
    exists s. split; [|done].
    rewrite (pair_eq _ _ _ Hret3 eq_refl), bind_eq.
    set (w3 := (deploy_category _ env Rules _ w2).2) in *.
    specialize (H4 w3).
    eapply (shows_between w w2 w3); [done|done|].
    by destruct (deploy_category _ env Decoders _ w3) as [[?|?] ?].
  - rewrite (pair_eq _ _ _ Hret3 eq_refl), bind_eq.
    set (w3 := (deploy_category _ env Rules _ w2).2) in *.
    rewrite Hsrc in *.
    destruct (deploy_category_shows PullRules.module_globals env Decoders src w3)
      as (s & Hs & Hnone).
    { unfold preserving in Hother. by rewrite Hother, Hlive'. }
    exists s. split; [|done].
    eapply (shows_between w w3); [by etrans|exact Hs|].
    by destruct (deploy_category _ env Decoders _ w3) as [[?|?] ?].
Qed.

(** A later run is made by a new puller object: its backup directory is
    named after the time of its creation and does not exist yet. *)
Definition new_puller (w : World) : World :=
  {| live := live w; backup_dir := None; repo_dir := repo_dir w;
     extract_dir := extract_dir w; log_file := log_file w;
     trace := trace w; observed := observed w |}.

(** Two runs in succession, the environment unchanged between them. *)
Definition second_run (env : Env) (force : bool) (w : World)
    : Result bool * World :=
  PullRules.pull_and_deploy env force
    (new_puller (PullRules.pull_and_deploy env force w).2).




(** The answer to the report of the API based puller decides nothing: a run
    is the same computation whether [POST /deploy] succeeds or not. *)
Definition with_report_ok (b : bool) (env : Env) : Env :=
  {| auto_restart := auto_restart env; create_backup := create_backup env;
     backup_fault := backup_fault env; git_result := git_result env;
     copy_fault := copy_fault env; restart_ok := restart_ok env;
     is_active_ok := is_active_ok env; restore_fault := restore_fault env;
     log_writable := log_writable env; api_available := api_available env;
     download_ok := download_ok env; extract_result := extract_result env;
     report_ok := b |}.

Lemma copy_all_report globals env b c files count :
  copy_all globals (with_report_ok b env) c files count
  = copy_all globals env c files count.
Proof.
  revert count. induction files as [|[name content] rest IH]; intros count.
  - done.
  - rewrite !copy_all_cons, IH. done.
Qed.

Lemma deploy_category_report globals env b c src :
  deploy_category globals (with_report_ok b env) c src
  = deploy_category globals env c src.
Proof.
  unfold deploy_category. destruct src; [|done]. by rewrite copy_all_report.
Qed.

Lemma api_deploy_files_report env b w :
  ApiPuller.deploy_files (with_report_ok b env) w = ApiPuller.deploy_files env w.
Proof.
  rewrite !api_deploy_files_eq, !bind_eq. cbn [emit modify].
  rewrite !bind_eq. cbn [gets]. rewrite !bind_eq, deploy_category_report.
  destruct (deploy_category _ env Rules _ _) as [[rc|e] w1]; [|done].
  rewrite !bind_eq, deploy_category_report. done.
Qed.

Lemma api_report_outcome_ignored (env : Env) (force b : bool) (w : World) :
  ApiPuller.pull_and_deploy (with_report_ok b env) force w
  = ApiPuller.pull_and_deploy env force w.
Proof.
  unfold ApiPuller.pull_and_deploy, ApiPuller.report_deployment.
  rewrite !bind_eq.
  change (ApiPuller.get_available_files (with_report_ok b env))
    with (ApiPuller.get_available_files env).
  destruct (ApiPuller.get_available_files env w) as [[[]|e] w1];
    cbn [negb]; rewrite ?bind_eq; [|done..].
  change (ApiPuller.backup_current (with_report_ok b env))
    with (ApiPuller.backup_current env).
  destruct (ApiPuller.backup_current env w1) as [[ok|e] w2]; [|done].
  destruct (negb ok && negb force); [done|]. rewrite ?bind_eq.
  change (ApiPuller.download_package (with_report_ok b env))
    with (ApiPuller.download_package env).
  destruct (ApiPuller.download_package env w2) as [[[]|e] w3];
    cbn [negb]; rewrite ?bind_eq; [|done..].
  change (ApiPuller.extract_package (with_report_ok b env))
    with (ApiPuller.extract_package env).
  destruct (ApiPuller.extract_package env w3) as [[[]|e] w4];
    cbn [negb]; [|done..].
  unfold try_finally, try_except. rewrite ?bind_eq.
  rewrite api_deploy_files_report.
  destruct (ApiPuller.deploy_files env w4) as [[[rc dc]|e] w5]; [|done].
  destruct ((0 <? rc)%nat || (0 <? dc)%nat); [|done].
  rewrite ?bind_eq.
  change (ApiPuller.restart_wazuh (with_report_ok b env))
    with (ApiPuller.restart_wazuh env).
  by destruct (ApiPuller.restart_wazuh env w5) as [[[]|e] w6].
Qed.

(** C7, evaluated where it fails.  On the example node everything succeeds
    and the run of the Git based puller returns [True] with the bundle
    deployed.  The same run with a log file that cannot be written deploys
    and restarts as well; then the exception of [log_deployment] reaches the
    handler of the [try] block, which rolls the deployment back and calls
    [log_deployment] again: the live tree is the old one and the run ends in
    the exception instead of a result. *)
Theorem log_failure_undoes_deployment :
  (PullRules.pull_and_deploy fair_env false node_world).1 = Ret true
  ∧ trace (PullRules.pull_and_deploy fair_env false node_world).2
    = [EvBackup; EvGit; EvDeploy; EvRestart;
       EvLog {| le_success := true; rules_deployed := 3;
                decoders_deployed := 1; le_error := "" |}]
  ∧ live (PullRules.pull_and_deploy fair_env false node_world).2
    ≠ live node_world
  ∧ (PullRules.pull_and_deploy read_only_log_env false node_world).1
    = Raise (OSError "Permission denied")
  ∧ trace (PullRules.pull_and_deploy read_only_log_env false node_world).2
    = [EvBackup; EvGit; EvDeploy; EvRestart; EvRollback; EvRestart]
  ∧ live (PullRules.pull_and_deploy read_only_log_env false node_world).2
    = live node_world.
Proof.
  split; [by vm_compute|].
  split; [by vm_compute|].
  split; [apply (bool_decide_unpack _); by vm_compute|].
  split; [by vm_compute|].
  split; [by vm_compute|].
  by vm_compute.
Qed.

(** * Further properties of the pullers *)

(** ** Runs that end in a result *)

(** [m] returns from every world: no exception leaves it. *)
Definition returns {A} (m : M A) : Prop := ∀ w, ∃ a, (m w).1 = Ret a.

Lemma returns_ret {A} (a : A) : returns (mret a).
Proof. intros w. by exists a. Qed.

Lemma returns_gets {A} (f : World → A) : returns (gets f).
Proof. intros w. by eexists. Qed.

Lemma returns_modify f : returns (modify f).
Proof. intros w. by eexists. Qed.

Lemma returns_bind {A B} (m : M A) (k : A → M B) :
  returns m → (∀ a, returns (k a)) → returns (m ≫= k).
Proof.
  intros Hm Hk w. rewrite bind_eq. destruct (Hm w) as [a Ha].
  destruct (m w) as [r w1]. cbn in Ha. subst r. apply Hk.
Qed.

(** A [try] whose handler returns does. *)
Lemma returns_try_except {A} (m : M A) (h : Exn → M A) :
  (∀ e, returns (h e)) → returns (try_except m h).
Proof.
  intros Hh w. rewrite try_except_eq.
  destruct (m w) as [[a|e] w1]; [by eexists|apply Hh].
Qed.

Lemma returns_try_finally {A} (m : M A) (c : M unit) :
  returns m → returns c → returns (try_finally m c).
Proof.
  intros Hm Hc w. unfold try_finally. destruct (Hm w) as [a Ha].
  destruct (m w) as [r w1]. cbn in Ha. subst r.
  destruct (Hc w1) as [[] Hu]. destruct (c w1) as [r w2]. cbn in Hu. subst r.
  by eexists.
Qed.

Ltac returns_step :=
  lazymatch goal with
  | |- returns (mbind _ _) => apply returns_bind; [|intros ?]
  | |- returns (try_except _ _) => apply returns_try_except; intros ?
  | |- returns (try_finally _ _) => apply returns_try_finally
  | |- returns (mret _) => apply returns_ret
  | |- returns (gets _) => apply returns_gets
  | |- returns (modify _) => apply returns_modify
  | |- returns (emit _) => apply returns_modify
  | |- returns (set_extract_dir _) => apply returns_modify
  | |- returns (set_repo_dir _) => apply returns_modify
  | |- returns (set_live _) => apply returns_modify
  | |- returns (match ?x with _ => _ end) => destruct x
  | |- returns (if ?b then _ else _) => destruct b
  | |- returns (let _ := _ in _) => cbv zeta
  end.

Lemma pull_rules_backup_current_returns env :
  returns (PullRules.backup_current env).
Proof.
  intros w. destruct (pull_rules_backup_returns env w) as (ok & Hok & _).
  by exists ok.
Qed.

Lemma api_backup_current_returns env : returns (ApiPuller.backup_current env).
Proof.
  intros w. destruct (api_backup_returns env w) as (ok & Hok & _).
  by exists ok.
Qed.

Lemma pull_rules_restart_returns env : returns (PullRules.restart_wazuh env).
Proof. unfold PullRules.restart_wazuh. repeat returns_step. Qed.

Lemma pull_rules_rollback_returns env : returns (PullRules.rollback env).
Proof. unfold PullRules.rollback. repeat returns_step. Qed.

Lemma api_report_returns env success rule_count decoder_count error :
  returns (ApiPuller.report_deployment env success rule_count decoder_count error).
Proof. unfold ApiPuller.report_deployment. repeat returns_step. Qed.

(** ** Runs that do not restart the manager *)

Lemma preserving_trace_restarts {A} (m : M A) :
  respects (preserving trace) m → respects (preserving restarts) m.
Proof. intros Hm w. unfold preserving, restarts. by rewrite (Hm w). Qed.

Lemma emit_restarts ev : ev ≠ EvRestart → respects (preserving restarts) (emit ev).
Proof.
  intros Hev w. unfold preserving, restarts. cbn.
  rewrite filter_app, length_app, filter_cons_False by done. cbn. lia.
Qed.

Lemma modify_restarts f :
  (∀ w, trace (f w) = trace w) → respects (preserving restarts) (modify f).
Proof. intros Hf w. unfold preserving, restarts. cbn. by rewrite Hf. Qed.

(** The steps that are not a restart. *)
Ltac quiet_step :=
  first
    [ apply emit_restarts; discriminate
    | apply modify_restarts; reflexivity
    | apply preserving_trace_restarts;
      first [ apply deploy_category_trace | apply mkdir_live_trace
            | apply set_live_trace ]
    | frame_step ].

Ltac quiet := repeat quiet_step.

Lemma pull_rules_backup_restarts env :
  respects (preserving restarts) (PullRules.backup_current env).
Proof.
  unfold PullRules.backup_current, PullRules.copytree_to_backup,
    set_backup_dir.
  quiet.
Qed.

Lemma api_backup_restarts env :
  respects (preserving restarts) (ApiPuller.backup_current env).
Proof.
  unfold ApiPuller.backup_current, ApiPuller.cp_to_backup, set_backup_dir.
  quiet.
Qed.

Lemma pull_rules_deploy_files_restarts env :
  respects (preserving restarts) (PullRules.deploy_files env).
Proof. rewrite pull_rules_deploy_files_eq. quiet. Qed.

Lemma api_deploy_files_restarts env :
  respects (preserving restarts) (ApiPuller.deploy_files env).
Proof. rewrite api_deploy_files_eq. quiet. Qed.

(** X3.  With [auto_restart] off in the configuration the Git based puller
    never calls [systemctl restart]: not after a deployment and not after a
    rollback. *)
Theorem no_restart_when_auto_restart_off (env : Env) (force : bool) (w : World) :
  auto_restart env = false →
  restarts (PullRules.pull_and_deploy env force w).2 = restarts w.
Proof.
  intros Hauto. revert w.
  change (respects (preserving restarts) (PullRules.pull_and_deploy env force)).
  assert (Hrestart : respects (preserving restarts) (PullRules.restart_wazuh env)).
  { unfold PullRules.restart_wazuh. rewrite Hauto. cbn [negb]. quiet. }
  assert (Hrollback : respects (preserving restarts) (PullRules.rollback env)).
  { unfold PullRules.rollback, PullRules.restore, set_live. rewrite Hauto.
    quiet. }
  assert (Hlog : ∀ s rc dc err,
            respects (preserving restarts)
              (PullRules.log_deployment env s rc dc err)).
  { intros. unfold PullRules.log_deployment, append_log. quiet. }
  unfold PullRules.pull_and_deploy, PullRules.clone_or_pull_repo, set_repo_dir.
  repeat first
    [ apply pull_rules_backup_restarts
    | apply pull_rules_deploy_files_restarts
    | apply Hrestart | apply Hrollback | apply Hlog
    | quiet_step ].
Qed.

Lemma no_restart_when_auto_restart_off_witness :
  restarts
    (PullRules.pull_and_deploy
       {| auto_restart := false; create_backup := true;
          backup_fault := λ _, false; git_result := Some bundle;
          copy_fault := no_fault; restart_ok := λ _, true;
          is_active_ok := λ _, true; restore_fault := λ _, false;
          log_writable := true; api_available := true; download_ok := true;
          extract_result := Some bundle; report_ok := true |}
       false node_world).2
  = restarts node_world.
Proof.
  apply (no_restart_when_auto_restart_off
           {| auto_restart := false; create_backup := true;
              backup_fault := λ _, false; git_result := Some bundle;
              copy_fault := no_fault; restart_ok := λ _, true;
              is_active_ok := λ _, true; restore_fault := λ _, false;
              log_writable := true; api_available := true; download_ok := true;
              extract_result := Some bundle; report_ok := true |}
           false node_world).
  reflexivity.
Defined.

(** X4.  The API based puller never restarts the manager, whatever the
    configuration and the package: [deploy_files] can only return the counts
    (0, 0), a copy would have raised, so the condition of step 6 is never
    met. *)
Theorem api_puller_never_restarts (env : Env) (force : bool) (w : World) :
  restarts (ApiPuller.pull_and_deploy env force w).2 = restarts w.
Proof.
  revert w.
  change (respects (preserving restarts) (ApiPuller.pull_and_deploy env force)).
  assert (Hreport : ∀ s rc dc err,
            respects (preserving restarts)
              (ApiPuller.report_deployment env s rc dc err)).
  { intros. unfold ApiPuller.report_deployment. quiet. }
  unfold ApiPuller.pull_and_deploy, ApiPuller.get_available_files,
    ApiPuller.download_package, ApiPuller.extract_package, set_extract_dir.
  repeat first
    [ apply api_backup_restarts
    | apply Hreport
    | lazymatch goal with
      | |- respects _ (mbind _ (ApiPuller.deploy_files _)) => fail
      | |- _ => quiet_step
      end ].
  intros w4. unfold preserving. rewrite bind_eq.
  assert (Hdeploy := api_deploy_files_restarts env w4).
  assert (Hcounts := api_deploy_files_counts env w4).
  destruct (ApiPuller.deploy_files env w4) as [[[rc dc]|e] w5]; [|done].
  destruct (Hcounts rc dc eq_refl) as [-> ->]. cbn [Nat.ltb Nat.leb orb].
  rewrite <-Hdeploy. apply (respects_bind (preserving restarts)); [quiet|].
  intros ?. quiet.
Qed.

(** ** Runs that stop before the deployment *)

Lemma pull_rules_backup_stores_but_backup env :
  respects (preserving (λ w, (repo_dir w, extract_dir w, log_file w)))
    (PullRules.backup_current env).
Proof.
  unfold PullRules.backup_current, PullRules.copytree_to_backup. frame.
Qed.



(** ** [rollback] and [backup_current] at their edges *)

(** X7.  [rollback], with a backup directory and no fault while copying,
    restores exactly the directories the backup holds and returns [True]:
    a live directory that the backup does not hold, because it did not exist
    when the backup was taken, keeps what the run put there. *)
Theorem rollback_restores_what_backup_holds (env : Env) (w : World) (b : Tree) :
  backup_dir w = Some b →
  (∀ c, restore_fault env c = false) →
  (PullRules.rollback env w).1 = Ret true
  ∧ ∀ c, subdir c (live (PullRules.rollback env w).2)
         = match subdir c b with
           | Some files => Some files
           | None => subdir c (live w)
           end.
Proof.
  intros Hbackup Hok.
  unfold PullRules.rollback, PullRules.restore, PullRules.restart_wazuh.
  run. rewrite Hbackup. cbn.
  destruct b as [[r|] [d|]]; cbn; rewrite ?Hok; cbn;
    (destruct (auto_restart env); cbn;
     [destruct (restart_ok env _); cbn|]);
    (split; [done|]); by intros [].
Qed.

Lemma rollback_restores_what_backup_holds_witness :
  let w :=
    {| live := bundle;
       backup_dir := Some {| t_rules := None; t_decoders := t_decoders node_live |};
       repo_dir := Some bundle; extract_dir := None; log_file := [];
       trace := []; observed := [] |} in
  (PullRules.rollback fair_env w).1 = Ret true
  ∧ ∀ c, subdir c (live (PullRules.rollback fair_env w).2)
         = match subdir c {| t_rules := None; t_decoders := t_decoders node_live |} with
           | Some files => Some files
           | None => subdir c (live w)
           end.
Proof.
  intros w.
  apply (rollback_restores_what_backup_holds fair_env w
           {| t_rules := None; t_decoders := t_decoders node_live |}).
  - reflexivity.
  - intros c. reflexivity.
Defined.

(** X8.  The copy of the rules from the backup fails during [rollback]:
    the live rules directory has been removed by then and is not put back,
    the decoders are not attempted and keep what the run deployed, the
    manager is not restarted, and [rollback] returns [False]. *)
Theorem rollback_fault_loses_live_rules (env : Env) (w : World) (b : Tree)
    (r : gmap string string) :
  backup_dir w = Some b →
  t_rules b = Some r →
  restore_fault env Rules = true →
  (PullRules.rollback env w).1 = Ret false
  ∧ t_rules (live (PullRules.rollback env w).2) = None
  ∧ t_decoders (live (PullRules.rollback env w).2) = t_decoders (live w)
  ∧ trace (PullRules.rollback env w).2 = trace w ++ [EvRollback].
Proof.
  intros Hbackup Hrules Hfault.
  unfold PullRules.rollback, PullRules.restore.
  run. rewrite Hbackup. cbn. rewrite Hrules, Hfault. done.
Qed.

Lemma rollback_fault_loses_live_rules_witness :
  let env :=
    {| auto_restart := true; create_backup := true;
       backup_fault := λ _, false; git_result := Some bundle;
       copy_fault := no_fault; restart_ok := λ _, false;
       is_active_ok := λ _, true; restore_fault := λ _, true;
       log_writable := true; api_available := true; download_ok := true;
       extract_result := None; report_ok := true |} in
  let w :=
    {| live := bundle; backup_dir := Some node_live; repo_dir := Some bundle;
       extract_dir := None; log_file := []; trace := []; observed := [] |} in
  (PullRules.rollback env w).1 = Ret false
  ∧ t_rules (live (PullRules.rollback env w).2) = None
  ∧ t_decoders (live (PullRules.rollback env w).2) = t_decoders (live w)
  ∧ trace (PullRules.rollback env w).2 = trace w ++ [EvRollback].
Proof.
  intros env w.
  apply (rollback_fault_loses_live_rules env w node_live
           {[ "0100-local.xml" := "<group name='old-local'/>";
              "0200-ssh.xml" := "<group name='old-ssh'/>";
              "README" := "managed by puller" ]}).
  - reflexivity.
  - reflexivity.
  - reflexivity.
Defined.

(** X9.  The backup directory of the puller holds a [rules] copy already,
    as it does when [pull_and_deploy] is called a second time on the same
    puller object: [shutil.copytree] refuses the existing destination,
    [backup_current] returns [False], and without [force] the run stops
    there with the live tree untouched. *)
Theorem backup_into_used_directory_aborts (env : Env) (w : World) (b : Tree) :
  create_backup env = true →
  backup_dir w = Some b →
  is_Some (t_rules b) →
  is_Some (t_rules (live w)) →
  (PullRules.backup_current env w).1 = Ret false
  ∧ backup_dir (PullRules.backup_current env w).2 = Some b
  ∧ (PullRules.pull_and_deploy env false w).1 = Ret false
  ∧ live (PullRules.pull_and_deploy env false w).2 = live w
  ∧ trace (PullRules.pull_and_deploy env false w).2 = trace w ++ [EvBackup].
Proof.
  intros Hcfg Hbackup [r Hr] [l Hl].
  assert (Hrun : PullRules.backup_current env w
    = (Ret false,
       {| live := live w; backup_dir := Some b; repo_dir := repo_dir w;
          extract_dir := extract_dir w; log_file := log_file w;
          trace := trace w ++ [EvBackup]; observed := observed w |})).
  { unfold PullRules.backup_current, PullRules.copytree_to_backup.
    rewrite Hcfg. run. rewrite Hbackup. cbn. rewrite Hl. cbn. by rewrite Hr. }
  rewrite pull_and_deploy_eq, bind_eq, Hrun. done.
Qed.

Lemma backup_into_used_directory_aborts_witness :
  let w := (PullRules.pull_and_deploy fair_env false node_world).2 in
  (PullRules.backup_current fair_env w).1 = Ret false
  ∧ backup_dir (PullRules.backup_current fair_env w).2 = Some node_live
  ∧ (PullRules.pull_and_deploy fair_env false w).1 = Ret false
  ∧ live (PullRules.pull_and_deploy fair_env false w).2 = live w
  ∧ trace (PullRules.pull_and_deploy fair_env false w).2 = trace w ++ [EvBackup].
Proof.
  intros w.
  apply (backup_into_used_directory_aborts fair_env w node_live).
  - reflexivity.
  - vm_compute. reflexivity.
  - vm_compute. eexists. reflexivity.
  - vm_compute. eexists. reflexivity.
Defined.

(** ** What [deploy_files] of the Git based puller leaves behind *)

Lemma glob_xml_nil (d : gmap string string) :
  glob_xml (Some d) = [] → xml_files d = ∅.
Proof. unfold glob_xml. apply map_to_list_empty_iff. Qed.

(** X10.  A category whose directory exists in the working copy, no copy
    failing: afterwards the live directory holds, under every name that
    matches [*.xml], what the working copy holds under it (nothing, when the
    working copy has no such file), and under every other name what it held
    before.  Stale XML files are gone, other files stay. *)
Theorem deploy_replaces_xml_keeps_others (env : Env) (w : World) (t : Tree)
    (c : Category) (src : gmap string string) :
  repo_dir w = Some t →
  subdir c t = Some src →
  (∀ c name, copy_fault env c name = false) →
  ∃ d, subdir c (live (PullRules.deploy_files env w).2) = Some d
       ∧ ∀ name,
           d !! name
           = if is_xml name then src !! name
             else default ∅ (subdir c (live w)) !! name.
Proof.
  intros Hrepo Hsrc Hcopy.
  destruct (pull_rules_deploy_files_ok env w Hcopy) as [_ Hlive].
  rewrite Hlive, Hrepo. cbn [mbind option_bind].
  destruct c; cbn [subdir] in *; rewrite Hsrc; cbn [deployed_opt];
    eexists; (split; [done|]); intros name; apply lookup_deployed.
Qed.

Lemma deploy_replaces_xml_keeps_others_witness :
  let w :=
    {| live := node_live; backup_dir := None; repo_dir := Some bundle;
       extract_dir := None; log_file := []; trace := []; observed := [] |} in
  ∃ d, subdir Rules (live (PullRules.deploy_files fair_env w).2) = Some d
       ∧ ∀ name,
           d !! name
           = if is_xml name
             then ({[ "0100-local.xml" := "<group name='new-local'/>";
                      "0200-ssh.xml" := "<group name='new-ssh'/>";
                      "0300-web.xml" := "<group name='web'/>" ]}
                   : gmap string string) !! name
             else default ∅ (subdir Rules (live w)) !! name.
Proof.
  intros w.
  apply (deploy_replaces_xml_keeps_others fair_env w bundle Rules).
  - reflexivity.
  - reflexivity.
  - intros c name. reflexivity.
Defined.

(** X11.  No copy failing, the count that [deploy_files] returns for a
    category whose directory exists in the working copy is the number of XML
    files the live directory holds afterwards; for a category the working
    copy lacks it is 0 and the live directory is as before (created empty
    when it did not exist). *)
Theorem deploy_counts_are_live_xml_files (env : Env) (w : World) (t : Tree) :
  repo_dir w = Some t →
  (∀ c name, copy_fault env c name = false) →
  ∃ rule_count decoder_count,
    (PullRules.deploy_files env w).1 = Ret (rule_count, decoder_count)
    ∧ ∀ c,
        let count := match c with Rules => rule_count | Decoders => decoder_count end in
        ∃ d, subdir c (live (PullRules.deploy_files env w).2) = Some d
             ∧ match subdir c t with
               | Some _ => count = size (xml_files d)
               | None => count = 0%nat ∧ d = default ∅ (subdir c (live w))
               end.
Proof.
  intros Hrepo Hcopy.
  destruct (pull_rules_deploy_files_ok env w Hcopy) as [Hret Hlive].
  rewrite Hret, Hlive, Hrepo. cbn [mbind option_bind subdir].
  do 2 eexists. split; [done|].
  intros []; cbn [subdir]; eexists; (split; [done|]).
  - destruct (t_rules t) as [src|]; cbn [deployed_opt]; [|done].
    rewrite xml_files_deployed. unfold glob_xml. apply length_map_to_list.
  - destruct (t_decoders t) as [src|]; cbn [deployed_opt]; [|done].
    rewrite xml_files_deployed. unfold glob_xml. apply length_map_to_list.
Qed.

Lemma deploy_counts_are_live_xml_files_witness :
  let w :=
    {| live := node_live; backup_dir := None; repo_dir := Some bundle;
       extract_dir := None; log_file := []; trace := []; observed := [] |} in
  ∃ rule_count decoder_count,
    (PullRules.deploy_files fair_env w).1 = Ret (rule_count, decoder_count)
    ∧ ∀ c,
        let count := match c with Rules => rule_count | Decoders => decoder_count end in
        ∃ d, subdir c (live (PullRules.deploy_files fair_env w).2) = Some d
             ∧ match subdir c bundle with
               | Some _ => count = size (xml_files d)
               | None => count = 0%nat ∧ d = default ∅ (subdir c (live w))
               end.
Proof.
  intros w.
  apply (deploy_counts_are_live_xml_files fair_env w bundle).
  - reflexivity.
  - intros c name. reflexivity.
Defined.



(** ** The log of the Git based puller *)

Lemma pull_rules_stores_log {A} (m : M A) :
  respects (preserving stores) m → respects (preserving log_file) m.
Proof.
  intros Hm w. specialize (Hm w). unfold preserving, stores in *. congruence.
Qed.

Lemma pull_rules_backup_log_file env :
  respects (preserving log_file) (PullRules.backup_current env).
Proof.
  intros w. assert (H := pull_rules_backup_stores_but_backup env w).
  unfold preserving in *. congruence.
Qed.

Lemma pull_rules_git_log_file env :
  respects (preserving log_file) (PullRules.clone_or_pull_repo env).
Proof. unfold PullRules.clone_or_pull_repo. frame. Qed.

(** X13.  A run of the Git based puller writes at most one line to its
    log.  It returns [True] only after appending a success line, and when it
    returns [False] it has appended nothing or one failure line, which
    reports 0 rules and 0 decoders whatever had been copied before the
    failure. *)
Theorem pull_rules_log_discipline (env : Env) (force : bool) (w : World) :
  ((PullRules.pull_and_deploy env force w).1 = Ret true →
   ∃ rule_count decoder_count,
     log_file (PullRules.pull_and_deploy env force w).2
     = log_file w ++ [ {| le_success := true; rules_deployed := rule_count;
                          decoders_deployed := decoder_count; le_error := "" |} ])
  ∧ ((PullRules.pull_and_deploy env force w).1 = Ret false →
     log_file (PullRules.pull_and_deploy env force w).2 = log_file w
     ∨ ∃ error,
         log_file (PullRules.pull_and_deploy env force w).2
         = log_file w ++ [ {| le_success := false; rules_deployed := 0;
                              decoders_deployed := 0; le_error := error |} ]).
Proof.
  destruct (PullRules.pull_and_deploy env force w) as [res wf] eqn:Hrun.
  cbn [fst snd]. revert Hrun. rewrite pull_and_deploy_eq, bind_eq.
  assert (Hlog1 := pull_rules_backup_log_file env w).
  destruct (pull_rules_backup_returns env w) as (ok & Hok & _).
  destruct (PullRules.backup_current env w) as [r w1].
  unfold preserving in Hlog1. cbn in Hok, Hlog1. subst r.
  destruct (negb ok && negb force).
  { intros [= <- <-]. split; [done|]. intros _. by left. }
  rewrite bind_eq.
  assert (Hlog2 := pull_rules_git_log_file env w1).
  destruct (PullRules.clone_or_pull_repo env w1) as [[[]|e] w2] eqn:Hgit;
    unfold preserving in Hlog2; cbn in Hlog2; cbn [negb].
  3:{ unfold PullRules.clone_or_pull_repo in Hgit. revert Hgit.
      rewrite bind_eq. cbn [emit modify]. by destruct (git_result env). }
  2:{ intros [= <- <-]. split; [done|]. intros _. left. congruence. }
  assert (Hlog : log_file w2 = log_file w) by congruence.
  clear Hlog1 Hlog2 Hgit.
  (* the handler of the try block *)
  assert (Hhandler : ∀ e w3 res wf,
    log_file w3 = log_file w →
    (PullRules.rollback env;;
     PullRules.log_deployment env false 0 0 (str e);; mret false) w3
    = (res, wf) →
    res ≠ Ret true
    ∧ (res = Ret false →
       ∃ error, log_file wf
                = log_file w ++ [ {| le_success := false; rules_deployed := 0;
                                     decoders_deployed := 0; le_error := error |} ])).
  { intros e w3 res' wf' Hl3. rewrite bind_eq.
    assert (Hst := pull_rules_stores_log _ (pull_rules_rollback_stores env) w3).
    destruct (pull_rules_rollback_returns env w3) as [b Hb].
    destruct (PullRules.rollback env w3) as [r w4].
    unfold preserving in Hst. cbn in Hb, Hst. subst r.
    rewrite bind_eq, pull_rules_log_eq. cbn zeta.
    destruct (log_writable env); intros [= <- <-]; (split; [done|]); [|done].
    intros _. eexists. cbn. by rewrite Hst, Hl3. }
  unfold deploy_step. rewrite try_except_eq, bind_eq.
  assert (Hst3 := pull_rules_stores_log _ (pull_rules_deploy_files_stores env) w2).
  destruct (PullRules.deploy_files env w2) as [[[rc dc]|e] w3];
    unfold preserving in Hst3; cbn in Hst3.
  2:{ intros Hrun. destruct (Hhandler e w3 res wf) as [Hne Hfalse];
        [congruence|done|].
      split; [done|]. intros Hres. right. by apply Hfalse. }
  assert (Hl3 : log_file w3 = log_file w) by congruence.
  assert (Hsucceed : ∀ w4 res wf,
    log_file w4 = log_file w →
    match (PullRules.log_deployment env true rc dc "";; mret true) w4 with
    | (Ret a, w') => (Ret a, w')
    | (Raise e, w') =>
        (PullRules.rollback env;;
         PullRules.log_deployment env false 0 0 (str e);; mret false) w'
    end = (res, wf) →
    (res = Ret true →
     ∃ rule_count decoder_count,
       log_file wf
       = log_file w ++ [ {| le_success := true; rules_deployed := rule_count;
                            decoders_deployed := decoder_count; le_error := "" |} ])
    ∧ (res = Ret false →
       log_file wf = log_file w
       ∨ ∃ error,
           log_file wf
           = log_file w ++ [ {| le_success := false; rules_deployed := 0;
                                decoders_deployed := 0; le_error := error |} ])).
  { intros w4 res' wf' Hl4. rewrite bind_eq, pull_rules_log_eq. cbn zeta.
    destruct (log_writable env) eqn:Hw.
    - intros [= <- <-]. split; [|done]. intros _. exists rc, dc. cbn.
      by rewrite Hl4.
    - intros Hrun. destruct (Hhandler _ w4 res' wf' Hl4 Hrun) as [Hne Hfalse].
      split; [done|]. intros Hres. right. by apply Hfalse. }
  cbv zeta. destruct ((0 <? rc)%nat || (0 <? dc)%nat); [|by apply Hsucceed].
  rewrite bind_eq.
  assert (Hst4 := pull_rules_stores_log _ (pull_rules_restart_stores env) w3).
  destruct (pull_rules_restart_returns env w3) as [b Hb].
  destruct (PullRules.restart_wazuh env w3) as [r w4].
  unfold preserving in Hst4. cbn in Hb, Hst4. subst r.
  destruct b; cbn [negb]; [apply Hsucceed; congruence|].
  rewrite bind_eq.
  assert (Hst5 := pull_rules_stores_log _ (pull_rules_rollback_stores env) w4).
  destruct (pull_rules_rollback_returns env w4) as [b Hb].
  destruct (PullRules.rollback env w4) as [r w5].
  unfold preserving in Hst5. cbn in Hb, Hst5. subst r.
  intros [= <- <-]. split; [done|]. intros _. left. congruence.
Qed.

(** ** What the API based puller can do to the live tree *)

Lemma other_files_idem (d : gmap string string) :
  other_files (other_files d) = other_files d.
Proof.
  apply map_eq. intros k. rewrite !lookup_other_files. by destruct (is_xml k).
Qed.

(** The live directory of category [c] is as it was, or it is what it was
    without its XML files. *)
Definition at_most_cleared (c : Category) : relation World :=
  λ w w', subdir c (live w') = subdir c (live w)
          ∨ subdir c (live w') = other_files <$> subdir c (live w).

Global Instance at_most_cleared_refl c : Reflexive (at_most_cleared c).
Proof. intros w. by left. Qed.

Global Instance at_most_cleared_trans c : Transitive (at_most_cleared c).
Proof.
  intros w1 w2 w3 [H12|H12] [H23|H23]; unfold at_most_cleared;
    rewrite H23, H12; [by left|by right|by right|].
  right. rewrite <-option_fmap_compose. apply option_fmap_ext.
  intros d. apply other_files_idem.
Qed.

Lemma preserving_live_cleared {A} c (m : M A) :
  respects (preserving live) m → respects (at_most_cleared c) m.
Proof. intros Hm w. left. by rewrite (Hm w). Qed.

Global Instance Category_eq_dec : EqDecision Category.
Proof. solve_decision. Defined.

Lemma deploy_category_unbound_cleared env c c' src :
  respects (at_most_cleared c)
    (deploy_category ApiPuller.module_globals env c' src).
Proof.
  intros w. destruct (decide (c' = c)) as [->|Hne].
  - destruct src as [src|]; [|by left].
    destruct (glob_xml (Some src)) as [|f files] eqn:Hfiles.
    + destruct (deploy_category_nothing ApiPuller.module_globals env c src w
                  Hfiles) as [_ Hlive].
      right. by rewrite Hlive, subdir_set_subdir.
    + destruct (deploy_category_unbound ApiPuller.module_globals env c src w
                  shutil_unbound) as [_ Hlive]; [by rewrite Hfiles|].
      right. by rewrite Hlive, subdir_set_subdir.
  - left. by apply (deploy_category_other _ env c' c src Hne w).
Qed.

Lemma modify_live f :
  (∀ w, live (f w) = live w) → respects (preserving live) (modify f).
Proof. intros Hf w. apply Hf. Qed.

Ltac untouched_step :=
  first
    [ apply deploy_category_unbound_cleared
    | apply preserving_live_cleared;
      first [ apply api_backup_live | apply modify_live; reflexivity ]
    | frame_step ].


(** ** The package of the authority ([api-server/app.py]) and its way to a
    node *)

Module App.

(** The members of an archive, in the order they were added.  A member is
    named [rules/<file>] or [decoders/<file>] by the code; file names have no
    slash, so the name is the pair of the category and the file name. *)
Definition Archive := list (Category * string * string).

Definition member (c : Category) (f : string * string)
    : Category * string * string :=
  (c, f.1, f.2).

(** [create_zip_package], on the tree at [REPO_PATH]: the XML files of
    [RULES_DIR], then those of [DECODERS_DIR]. *)
Definition create_zip_package (repo : Tree) : Archive :=
  (member Rules <$> glob_xml (t_rules repo))
  ++ (member Decoders <$> glob_xml (t_decoders repo)).

(** [create_tar_package] adds the same members to a gzip-compressed tar. *)
Definition create_tar_package (repo : Tree) : Archive :=
  (member Rules <$> glob_xml (t_rules repo))
  ++ (member Decoders <$> glob_xml (t_decoders repo)).

End App.

(** [extractall] of [zipfile] and [tarfile] into an empty directory: each
    member is written under its name, and the directory of its category is
    made on the way when it is not there yet. *)
Definition extract_member (t : Tree) (m : Category * string * string) : Tree :=
  let '(c, name, content) := m in
  set_subdir c (Some (<[name := content]> (default ∅ (subdir c t)))) t.

Definition extractall (a : App.Archive) : Tree := foldl extract_member empty_tree a.

(** The directory of one category after packing and unpacking: absent
    when the authority has no XML file of the category. *)
Definition packaged (d : option (gmap string string))
    : option (gmap string string) :=
  match glob_xml d with
  | [] => None
  | _ => Some (xml_files (default ∅ d))
  end.

Lemma extract_members c files t :
  foldl extract_member t (App.member c <$> files)
  = match files with
    | [] => t
    | _ => set_subdir c (Some (add_all files (default ∅ (subdir c t)))) t
    end.
Proof.
  revert t. induction files as [|[name content] rest IH]; intros t; [done|].
  cbn [fmap list_fmap foldl]. rewrite IH. destruct rest as [|f rest]; [done|].
  cbn [extract_member App.member fst snd].
  rewrite subdir_set_subdir, set_subdir_twice. done.
Qed.

Lemma add_all_glob_empty (d : gmap string string) :
  add_all (glob_xml (Some d)) ∅ = xml_files d.
Proof. by rewrite add_all_glob, (right_id_L ∅ (∪)). Qed.

Lemma extract_glob c d t :
  subdir c t = None →
  foldl extract_member t (App.member c <$> glob_xml d)
  = set_subdir c (packaged d) t.
Proof.
  intros Hnone. rewrite extract_members, Hnone. unfold packaged.
  destruct d as [files|]; cbn [glob_xml]; [|by rewrite <-Hnone, set_subdir_same].
  destruct (map_to_list (xml_files files)) as [|f rest] eqn:Hfiles.
  - unfold xml_files in Hfiles. rewrite Hfiles.
    by rewrite <-Hnone, set_subdir_same.
  - unfold xml_files in Hfiles. rewrite Hfiles, <-Hfiles.
    change (map_to_list (filter _ files)) with (glob_xml (Some files)).
    by rewrite add_all_glob_empty.
Qed.


(** Steps 5 to 7 of [pull_and_deploy] of the API based puller. *)
Definition api_deploy_step (env : Env) : M bool :=
  try_finally
    (try_except
       ('(rule_count, decoder_count) ← ApiPuller.deploy_files env;
        let report_and_succeed : M bool :=
          ApiPuller.report_deployment env true rule_count decoder_count "";;
          mret true in
        if (0 <? rule_count)%nat || (0 <? decoder_count)%nat then
          restart_success ← ApiPuller.restart_wazuh env;
          if negb restart_success then
            ApiPuller.report_deployment env false rule_count decoder_count
              "Restart failed";;
            mret false
          else report_and_succeed
        else report_and_succeed)
       (λ e,
          ApiPuller.report_deployment env false 0 0 (str e);;
          mret false))
    (set_extract_dir None).

(** A run whose first four steps go through starts step 5 with the live
    tree untouched and the archive unpacked. *)
Lemma api_run_reaches_deploy env force w t :
  api_available env = true →
  (force = true
   ∨ (ApiPuller.backup_current env
        (ApiPuller.get_available_files env w).2).1 = Ret true) →
  download_ok env = true →
  extract_result env = Some t →
  ∃ w4, ApiPuller.pull_and_deploy env force w = api_deploy_step env w4
        ∧ live w4 = live w ∧ extract_dir w4 = Some t.
Proof.
  intros Havailable Hbackup Hdownload Hextract.
  unfold ApiPuller.pull_and_deploy. rewrite !bind_eq.
  unfold ApiPuller.get_available_files in *. rewrite !bind_eq in *.
  proj. rewrite Havailable. proj. rewrite !bind_eq.
  match goal with |- context [ApiPuller.backup_current env ?x] =>
    set (w1 := x) in *
  end.
  destruct (api_backup_returns env w1) as (ok & Hok & _).
  assert (Hlive2 := api_backup_live env w1).
  rewrite (pair_eq _ _ _ Hok eq_refl).
  set (w2 := (ApiPuller.backup_current env w1).2) in *.
  assert (Hgo : negb ok && negb force = false).
  { destruct Hbackup as [->|Hb]; [by rewrite andb_false_r|].
    rewrite Hok in Hb. by injection Hb as ->. }
  rewrite Hgo, bind_eq. unfold ApiPuller.download_package.
  rewrite bind_eq. proj. rewrite Hdownload. proj.
  rewrite bind_eq. unfold ApiPuller.extract_package.
  rewrite bind_eq, Hextract. proj. rewrite bind_eq. proj.
  eexists. split; [reflexivity|]. proj. split; [|done].
  unfold preserving in Hlive2. by rewrite Hlive2.
Qed.

(** [deploy_files] on an unpacked tree without directories does nothing;
    on one with an XML file it raises. *)
Lemma api_deploy_files_nothing env w :
  extract_dir w = Some empty_tree →
  (ApiPuller.deploy_files env w).1 = Ret (0%nat, 0%nat)
  ∧ live (ApiPuller.deploy_files env w).2 = live w.
Proof.
  intros Hextract. rewrite api_deploy_files_eq, bind_eq. proj.
  rewrite bind_eq. proj. rewrite Hextract. done.
Qed.

Lemma api_deploy_files_raises env w t :
  extract_dir w = Some t →
  glob_xml (t_rules t) ≠ [] ∨ glob_xml (t_decoders t) ≠ [] →
  (ApiPuller.deploy_files env w).1 = Raise (NameError "shutil").
Proof.
  intros Hextract Hfiles. rewrite api_deploy_files_eq, bind_eq. proj.
  rewrite bind_eq. proj. rewrite Hextract. cbn [mbind option_bind subdir].
  rewrite bind_eq.
  match goal with |- context [deploy_category _ _ Rules _ ?x] => set (w0 := x) end.
  destruct (t_rules t) as [rules|] eqn:Hrules.
  - destruct (glob_xml (Some rules)) as [|f files] eqn:Hglob.
    + destruct (deploy_category_nothing ApiPuller.module_globals env Rules
                  rules w0 Hglob) as [Hret _].
      rewrite (pair_eq _ _ _ Hret eq_refl), bind_eq.
      destruct Hfiles as [?|Hdec]; [done|].
      destruct (t_decoders t) as [decoders|]; [|done].
      destruct (deploy_category_unbound ApiPuller.module_globals env Decoders
                  decoders (deploy_category ApiPuller.module_globals env Rules
                              (Some rules) w0).2 shutil_unbound Hdec)
        as [Hret2 _].
      by rewrite (pair_eq _ _ _ Hret2 eq_refl).
    + destruct (deploy_category_unbound ApiPuller.module_globals env Rules
                  rules w0 shutil_unbound) as [Hret _]; [by rewrite Hglob|].
      by rewrite (pair_eq _ _ _ Hret eq_refl).
  - rewrite deploy_category_absent, bind_eq.
    destruct Hfiles as [?|Hdec]; [done|].
    destruct (t_decoders t) as [decoders|]; [|done].
    destruct (deploy_category_unbound ApiPuller.module_globals env Decoders
                decoders w0 shutil_unbound Hdec) as [Hret2 _].
    by rewrite (pair_eq _ _ _ Hret2 eq_refl).
Qed.

Lemma packaged_nil d : glob_xml d = [] → packaged d = None.
Proof. unfold packaged. by intros ->. Qed.

Lemma glob_xml_packaged d : glob_xml (packaged d) = glob_xml d.
Proof.
  unfold packaged. destruct (glob_xml d) as [|f files] eqn:Hglob; [done|].
  destruct d as [files'|]; [|done]. rewrite <-Hglob.
  unfold glob_xml. f_equal. apply map_eq. intros k. cbn [default from_option id].
  fold (xml_files files'). fold (xml_files (xml_files files')).
  rewrite !lookup_xml_files. by destruct (is_xml k).
Qed.

(** X16.  A run of the API based puller that gets as far as unpacking a
    package made by the authority returns [True] exactly when the authority
    has no XML file at all, and then the live tree is untouched.  As soon as
    there is a file to deliver the run returns [False]. *)
Theorem api_run_succeeds_only_on_empty_package (env : Env) (force : bool)
    (w : World) (repo : Tree) :
  api_available env = true →
  (force = true
   ∨ (ApiPuller.backup_current env
        (ApiPuller.get_available_files env w).2).1 = Ret true) →
  download_ok env = true →
  extract_result env = Some (extractall (App.create_zip_package repo)) →
  (glob_xml (t_rules repo) = [] ∧ glob_xml (t_decoders repo) = [] →
   (ApiPuller.pull_and_deploy env force w).1 = Ret true
   ∧ live (ApiPuller.pull_and_deploy env force w).2 = live w)
  ∧ (glob_xml (t_rules repo) ≠ [] ∨ glob_xml (t_decoders repo) ≠ [] →
     (ApiPuller.pull_and_deploy env force w).1 = Ret false).
Proof.
  intros Havailable Hbackup Hdownload Hextract.
  destruct (api_run_reaches_deploy env force w _ Havailable Hbackup Hdownload
              Hextract) as (w4 & -> & Hlive4 & Hdir4).
  assert (Hunpacked : extractall (App.create_zip_package repo)
                      = {| t_rules := packaged (t_rules repo);
                           t_decoders := packaged (t_decoders repo) |}).
  { unfold extractall, App.create_zip_package. rewrite foldl_app.
    rewrite (extract_glob Rules) by done. by rewrite (extract_glob Decoders). }
  rewrite Hunpacked in Hdir4. clear Hunpacked.
  unfold api_deploy_step, try_finally, try_except. rewrite bind_eq. split.
  - intros [Hrules Hdecoders].
    rewrite (packaged_nil _ Hrules), (packaged_nil _ Hdecoders) in Hdir4.
    destruct (api_deploy_files_nothing env w4 Hdir4) as [Hret Hlive5].
    rewrite (pair_eq _ _ _ Hret eq_refl). cbn [Nat.ltb Nat.leb orb].
    unfold ApiPuller.report_deployment. rewrite !bind_eq. proj.
    by rewrite Hlive5.
  - intros Hfiles.
    assert (Hraise : (ApiPuller.deploy_files env w4).1
                     = Raise (NameError "shutil")).
    { apply (api_deploy_files_raises env w4 _ Hdir4).
      cbn [t_rules t_decoders]. by rewrite !glob_xml_packaged. }
    rewrite (pair_eq _ _ _ Hraise eq_refl).
    unfold ApiPuller.report_deployment. rewrite !bind_eq. by proj.
Qed.

Lemma api_run_succeeds_only_on_empty_package_witness :
  let env :=
    {| auto_restart := true; create_backup := true;
       backup_fault := λ _, false; git_result := None;
       copy_fault := no_fault; restart_ok := λ _, true;
       is_active_ok := λ _, true; restore_fault := λ _, false;
       log_writable := true; api_available := true; download_ok := true;
       extract_result := Some (extractall (App.create_zip_package bundle));
       report_ok := true |} in
  (glob_xml (t_rules bundle) = [] ∧ glob_xml (t_decoders bundle) = [] →
   (ApiPuller.pull_and_deploy env false node_world).1 = Ret true
   ∧ live (ApiPuller.pull_and_deploy env false node_world).2 = live node_world)
  ∧ (glob_xml (t_rules bundle) ≠ [] ∨ glob_xml (t_decoders bundle) ≠ [] →
     (ApiPuller.pull_and_deploy env false node_world).1 = Ret false).
Proof.
  intros env.
  apply (api_run_succeeds_only_on_empty_package env false node_world bundle).
  - reflexivity.
  - right. vm_compute. reflexivity.
  - reflexivity.
  - reflexivity.
Defined.

(** * Further properties of the ledger *)

(** X17.  The row that the ledger keeps for a node it did not know is
    determined by the calls made for that node alone: [first_seen] is the
    time of the first call, [last_seen] that of the last one, the counter
    their number, and [last_success] the time of the last successful call
    after the first one; the first call never sets it. *)
Theorem server_row_follows_calls (db : Ledger.DB) (sid : string)
    (cs : list Ledger.Call) :
  Ledger.servers db !! sid = None →
  Ledger.servers (Ledger.run_calls db cs) !! sid
  = row_of_calls (Ledger.calls_for sid cs).
Proof.
  intros Hnone. induction cs as [|c cs IH] using rev_ind; [done|].
  unfold Ledger.run_calls in *. rewrite foldl_snoc, Ledger.calls_for_snoc.
  destruct (decide (Ledger.c_server_id c = sid)) as [<-|Hne].
  - rewrite row_of_calls_snoc, <-IH.
    destruct (Ledger.servers (foldl Ledger.apply_call db cs)
                !! Ledger.c_server_id c) as [row|] eqn:Hrow.
    + by apply Ledger.apply_call_present.
    + by apply Ledger.apply_call_absent.
  - rewrite app_nil_r, Ledger.apply_call_other by done. exact IH.
Qed.

Lemma server_row_follows_calls_witness :
  Ledger.servers Ledger.init_db !! "node-1" = None
  ∧ Ledger.servers (Ledger.run_calls Ledger.init_db example_calls) !! "node-1"
    = row_of_calls (Ledger.calls_for "node-1" example_calls).
Proof.
  split; [reflexivity|].
  apply (server_row_follows_calls Ledger.init_db "node-1" example_calls).
  reflexivity.
Defined.

(** X18.  [log_deployment] only appends to table [deployments]: after any
    sequence of calls the rows that were there are still there, in their
    places, followed by one row per call, in the order of the calls and with
    the identifier, node, time and outcome of each call. *)
Theorem deployments_are_append_only (db : Ledger.DB) (cs : list Ledger.Call) :
  ∃ rows,
    Ledger.deployments (Ledger.run_calls db cs) = Ledger.deployments db ++ rows
    ∧ Ledger.deployment_id <$> rows = Ledger.c_uuid <$> cs
    ∧ Ledger.d_server_id <$> rows = Ledger.c_server_id <$> cs
    ∧ Ledger.action <$> rows = Ledger.c_action <$> cs
    ∧ Ledger.timestamp <$> rows = Ledger.c_now <$> cs
    ∧ Ledger.success <$> rows
      = (λ c, Ledger.int_of_bool (Ledger.c_success c)) <$> cs.
Proof.
  revert db. induction cs as [|c cs IH]; intros db.
  - exists []. by rewrite app_nil_r.
  - destruct (IH (Ledger.apply_call db c))
      as (rows & Hrows & Hid & Hsid & Haction & Htime & Hsuccess).
    change (Ledger.run_calls db (c :: cs))
      with (Ledger.run_calls (Ledger.apply_call db c) cs).
    rewrite Hrows. unfold Ledger.apply_call, Ledger.log_deployment.
    cbn [snd Ledger.deployments]. rewrite <-app_assoc. eexists. split; [done|].
    cbn [app fmap list_fmap Ledger.deployment_id Ledger.d_server_id
         Ledger.action Ledger.timestamp Ledger.success].
    by rewrite Hid, Hsid, Haction, Htime, Hsuccess.
Qed.

Lemma group_by_lookup `{Countable K} (key : Ledger.DeploymentRow → K)
    (rows : list Ledger.DeploymentRow) (k : K) :
  Ledger.group_by key rows !! k
  = match filter (λ r, key r = k) rows with
    | [] => None
    | g => Some g
    end.
Proof.
  induction rows as [|r rows IH]; [done|].
  cbn [Ledger.group_by foldr]. fold (Ledger.group_by key rows).
  rewrite filter_cons. destruct (decide (key r = k)) as [->|Hne].
  - rewrite lookup_insert_eq, IH.
    by destruct (filter _ rows).
  - by rewrite lookup_insert_ne.
Qed.

Lemma sum_case_success_count (g : list Ledger.DeploymentRow) :
  foldr Z.add 0 (Ledger.case_success 1 <$> g)
  = Z.of_nat (length (filter (λ r, Ledger.success r = 1) g)).
Proof.
  induction g as [|r g IH]; [done|].
  cbn [fmap list_fmap foldr]. rewrite filter_cons, IH.
  unfold Ledger.case_success.
  destruct (decide (Ledger.success r = 1)); cbn [length]; lia.
Qed.

(** X19.  The breakdown by node of [get_deployment_stats] has an entry for
    exactly the nodes with a row in the window; the entry counts the rows of
    the node and those among them with [success = 1], and this second count
    is never NULL. *)
Theorem by_server_counts_rows_of_node (now : Ledger.Timestamp) (days : Z)
    (db : Ledger.DB) (sid : string) :
  let rows :=
    filter (λ r, Ledger.d_server_id r = sid)
      (Ledger.in_window (now - days * Ledger.microseconds_per_day)
         (Ledger.deployments db)) in
  Ledger.by_server (Ledger.get_deployment_stats now days db).1 !! sid
  = match rows with
    | [] => None
    | _ =>
        Some (Z.of_nat (length rows),
              Some (Z.of_nat
                      (length (filter (λ r, Ledger.success r = 1) rows))))
    end.
Proof.
  intros rows. unfold Ledger.get_deployment_stats.
  cbn [fst Ledger.by_server]. rewrite lookup_fmap, group_by_lookup.
  fold rows. destruct rows as [|r g] eqn:Hrows; [done|].
  cbn [fmap option_fmap option_map]. unfold Ledger.sql_count. do 2 f_equal.
  unfold Ledger.sql_sum. cbn [fmap list_fmap].
  change (Ledger.case_success 1 r :: list_fmap _ _ (Ledger.case_success 1) g)
    with (Ledger.case_success 1 <$> r :: g).
  by rewrite sum_case_success_count.
Qed.

Lemma in_window_length cutoff cutoff' rows :
  cutoff' ≤ cutoff →
  (length (Ledger.in_window cutoff rows)
   ≤ length (Ledger.in_window cutoff' rows))%nat.
Proof.
  intros Hle. unfold Ledger.in_window.
  induction rows as [|r rows IH]; [done|].
  rewrite !filter_cons.
  destruct (decide (cutoff ≤ Ledger.timestamp r)).
  - rewrite decide_True by lia. cbn [length]. lia.
  - destruct (decide _); cbn [length]; lia.
Qed.

(** X20.  A longer time frame never shows fewer deployments: the total of
    [get_deployment_stats] grows with [days], at one reading of the clock. *)
Theorem longer_window_counts_more (now : Ledger.Timestamp) (days days' : Z)
    (db : Ledger.DB) :
  days ≤ days' →
  Ledger.total_deployments (Ledger.get_deployment_stats now days db).1
  ≤ Ledger.total_deployments (Ledger.get_deployment_stats now days' db).1.
Proof.
  intros Hdays. rewrite !Ledger.stats_total. unfold Ledger.sql_count.
  apply inj_le, in_window_length. unfold Ledger.microseconds_per_day. lia.
Qed.

Lemma longer_window_counts_more_witness :
  let db := Ledger.run_calls Ledger.init_db example_calls in
  1 ≤ 7
  ∧ Ledger.total_deployments (Ledger.get_deployment_stats 200 1 db).1
    ≤ Ledger.total_deployments (Ledger.get_deployment_stats 200 7 db).1.
Proof.
  intros db. split; [lia|].
  apply (longer_window_counts_more 200 1 7 db). lia.
Defined.

Lemma sql_sum_case_nonneg v (g : list Ledger.DeploymentRow) s :
  Ledger.sql_sum (Ledger.case_success v <$> g) = Some s → 0 ≤ s.
Proof.
  assert (Hsum : 0 ≤ foldr Z.add 0 (Ledger.case_success v <$> g)).
  { induction g as [|r g IH]; [done|].
    cbn [fmap list_fmap foldr]. unfold Ledger.case_success at 1.
    destruct (decide _); lia. }
  unfold Ledger.sql_sum. destruct (Ledger.case_success v <$> g); [done|].
  by intros [= <-].
Qed.

Lemma percent_bounds s t :
  0 ≤ s → s ≤ t → 0 < t →
  (0 <= Ledger.percent s t)%Q ∧ (Ledger.percent s t <= 100)%Q.
Proof.
  intros Hs Hst Ht. destruct t as [|t|t]; [lia| |lia].
  unfold Ledger.percent, Qdiv, Qinv, Qmult, Qle. cbn. split; nia.
Qed.

Lemma sum_case_success_le (rows : list Ledger.DeploymentRow) :
  foldr Z.add 0 (Ledger.case_success 1 <$> rows)
  + foldr Z.add 0 (Ledger.case_success 0 <$> rows)
  ≤ Ledger.sql_count rows.
Proof.
  unfold Ledger.sql_count. induction rows as [|r rows IH]; [done|].
  cbn [fmap list_fmap foldr length]. unfold Ledger.case_success at 1 3.
  repeat destruct (decide _); lia.
Qed.

(** X21.  With at least one row in the window, whatever the rows hold in
    column [success], the two sums of [get_deployment_stats] are numbers,
    none of them negative and together not more than the total, and the
    success rate is the quotient of the first and the total, between 0 and
    100.  The sums add up to the total when every row of the window holds 0
    or 1 there, as the rows of reports with a Boolean [success] do. *)
Theorem stats_sums_within_total (now : Ledger.Timestamp) (days : Z)
    (db : Ledger.DB) :
  let rows :=
    Ledger.in_window (now - days * Ledger.microseconds_per_day)
      (Ledger.deployments db) in
  rows ≠ [] →
  let stats := (Ledger.get_deployment_stats now days db).1 in
  ∃ s f, Ledger.successful stats = Some s ∧ Ledger.failed stats = Some f
         ∧ 0 ≤ s ∧ 0 ≤ f ∧ s + f ≤ Ledger.total_deployments stats
         ∧ Ledger.success_rate stats
           = Some (Ledger.percent s (Ledger.total_deployments stats))
         ∧ (0 <= Ledger.percent s (Ledger.total_deployments stats))%Q
         ∧ (Ledger.percent s (Ledger.total_deployments stats) <= 100)%Q
         ∧ (Forall Ledger.success_is_flag rows →
            s + f = Ledger.total_deployments stats).
Proof.
  intros rows Hrows stats. subst stats. unfold Ledger.get_deployment_stats.
  cbn [fst snd Ledger.total_deployments Ledger.successful Ledger.failed
       Ledger.success_rate].
  fold rows.
  assert (Hpos : 0 < Ledger.sql_count rows).
  { unfold Ledger.sql_count. destruct rows; [done|]. cbn [length]. lia. }
  assert (Hle := sum_case_success_le rows).
  exists (foldr Z.add 0 (Ledger.case_success 1 <$> rows)),
         (foldr Z.add 0 (Ledger.case_success 0 <$> rows)).
  assert (Hs : Ledger.sql_sum (Ledger.case_success 1 <$> rows)
               = Some (foldr Z.add 0 (Ledger.case_success 1 <$> rows))).
  { unfold Ledger.sql_sum. by destruct rows. }
  assert (Hf : Ledger.sql_sum (Ledger.case_success 0 <$> rows)
               = Some (foldr Z.add 0 (Ledger.case_success 0 <$> rows))).
  { unfold Ledger.sql_sum. by destruct rows. }
  assert (Hs0 := sql_sum_case_nonneg 1 rows _ Hs).
  assert (Hf0 := sql_sum_case_nonneg 0 rows _ Hf).
  rewrite Hs, Hf, decide_True by done.
  destruct (percent_bounds (foldr Z.add 0 (Ledger.case_success 1 <$> rows))
              (Ledger.sql_count rows)) as [Hlow Hhigh]; [lia..|].
  split_and!; try done.
  intros Hflags. by apply Ledger.sum_case_success.
Qed.

Lemma stats_sums_within_total_witness :
  let db := Ledger.run_calls Ledger.init_db example_calls in
  let rows :=
    Ledger.in_window (200 - 7 * Ledger.microseconds_per_day)
      (Ledger.deployments db) in
  let stats := (Ledger.get_deployment_stats 200 7 db).1 in
  ∃ s f, Ledger.successful stats = Some s ∧ Ledger.failed stats = Some f
         ∧ 0 ≤ s ∧ 0 ≤ f ∧ s + f ≤ Ledger.total_deployments stats
         ∧ Ledger.success_rate stats
           = Some (Ledger.percent s (Ledger.total_deployments stats))
         ∧ (0 <= Ledger.percent s (Ledger.total_deployments stats))%Q
         ∧ (Ledger.percent s (Ledger.total_deployments stats) <= 100)%Q
         ∧ (Forall Ledger.success_is_flag rows →
            s + f = Ledger.total_deployments stats).
Proof.
  intros db rows.
  apply (stats_sums_within_total 200 7 db).
  vm_compute. discriminate.
Defined.

(** * The authentication layer ([api-server/auth.py]) *)

Module Auth.

(** One row of table [api_keys], without its key: column [key] is
    [UNIQUE NOT NULL], the table is a map from it. *)
Record KeyRow := {
  key_hash : string;
  k_server_id : option string;
  is_admin : Z;
  active : Z;
  created_at : Ledger.Timestamp;
  revoked_at : option Ledger.Timestamp
}.

(** The database file: the two tables of the ledger and table [api_keys]. *)
Record DB := {
  ledger : Ledger.DB;
  api_keys : gmap string KeyRow
}.

Definition init_db : DB := {| ledger := Ledger.init_db; api_keys := ∅ |}.

(** The [WHERE] clause of the two queries of [verify_api_key], after
    [key = ?]. *)
Definition selected (admin : bool) (r : KeyRow) : bool :=
  if admin then bool_decide (is_admin r = 1) && bool_decide (active r = 1)
  else bool_decide (active r = 1).

(** [verify_api_key]: [result is not None]. *)
Definition verify_api_key (api_key : string) (admin : bool) (db : DB) : bool :=
  match api_keys db !! api_key with
  | Some r => selected admin r
  | None => false
  end.

(** The row of [INSERT INTO servers (server_id, description, first_seen,
    last_seen, is_active) VALUES (?, ?, ?, ?, 1)]: [deployment_count] takes
    its default 0 and [last_success] is NULL. *)
Definition registered_row (description : string)
    (first_seen last_seen : Ledger.Timestamp) : Ledger.ServerRow :=
  {| Ledger.description := Some description;
     Ledger.first_seen := first_seen;
     Ledger.last_seen := last_seen;
     Ledger.deployment_count := 0;
     Ledger.last_success := None;
     Ledger.is_active := 1 |}.

(** [register_server].  [sha256] is [hashlib.sha256(...).hexdigest()] and
    [now1], [now2], [now3] are the three readings of [datetime.now()].  Each
    [INSERT] raises [sqlite3.IntegrityError] when its [UNIQUE] column has
    the value already; the connection is then closed without [commit], so
    that nothing of the transaction is kept. *)
Definition register_server (sha256 : string → string)
    (now1 now2 now3 : Ledger.Timestamp)
    (server_id api_key description : string) (db : DB) : bool * DB :=
  match Ledger.servers (ledger db) !! server_id with
  | Some _ => (false, db)
  | None =>
      let servers1 :=
        <[server_id := registered_row description now1 now2]>
          (Ledger.servers (ledger db)) in
      let api_key_hash := sha256 api_key in
      match api_keys db !! api_key with
      | Some _ => (false, db)
      | None =>
          let api_keys1 :=
            <[api_key := {| key_hash := api_key_hash;
                            k_server_id := Some server_id;
                            is_admin := 0;
                            active := 1;
                            created_at := now3;
                            revoked_at := None |}]> (api_keys db) in
          (true,
           {| ledger :=
                {| Ledger.servers := servers1;
                   Ledger.deployments := Ledger.deployments (ledger db) |};
              api_keys := api_keys1 |})
      end
  end.

(** The [UPDATE api_keys SET active = 0, revoked_at = ?] of
    [revoke_api_key], on one row. *)
Definition revoked (now : Ledger.Timestamp) (r : KeyRow) : KeyRow :=
  {| key_hash := key_hash r;
     k_server_id := k_server_id r;
     is_admin := is_admin r;
     active := 0;
     created_at := created_at r;
     revoked_at := Some now |}.

(** [revoke_api_key]: [affected] is [cursor.rowcount], the number of rows
    with the key, revoked before or not. *)
Definition revoke_api_key (now : Ledger.Timestamp) (api_key : string)
    (db : DB) : bool * DB :=
  let affected : Z :=
    match api_keys db !! api_key with Some _ => 1 | None => 0 end in
  (bool_decide (0 < affected),
   {| ledger := ledger db;
      api_keys := alter (revoked now) api_key (api_keys db) |}).

End Auth.

(** * The endpoints ([api-server/app.py]) *)

Module Endpoints.

(** What an endpoint answers: the returned value (status 200), an
    [HTTPException] raised by the endpoint, or the answer 422 of the
    framework to a request that lacks a required parameter. *)
Inductive Response (A : Type) : Type :=
  | Ok (content : A)
  | HTTPException (status_code : Z) (detail : string)
  | RequestValidationError.

Global Arguments Ok {A} content.
Global Arguments HTTPException {A} status_code detail.
Global Arguments RequestValidationError {A}.

(** The body of [POST /deploy]: a JSON object in which each of the four
    fields that the endpoint reads is present or not. *)
Record DeploymentRequest := {
  rules_count : option Z;
  decoders_count : option Z;
  success : option bool;
  error : option string
}.

(** [log_deployment] of [models.py] on the database file. *)
Definition log_deployment (uuid4 : string) (now : Ledger.Timestamp)
    (server_id action : string) (rules_count decoders_count : Z)
    (success : bool) (error_message : string) (package_size : Z)
    (client_ip : string) (db : Auth.DB) : string * Auth.DB :=
  let logged :=
    Ledger.log_deployment uuid4 now server_id action rules_count
      decoders_count success error_message package_size client_ip
      (Auth.ledger db) in
  (logged.1, {| Auth.ledger := logged.2; Auth.api_keys := Auth.api_keys db |}).

(** [get_latest_rules_package].  [st_size] is the size of the archive file
    and [repo] the tree under [REPO_PATH]; the call of [log_deployment]
    leaves [rules_count], [decoders_count], [success] and [error_message]
    to their defaults. *)
Definition get_latest_rules_package (uuid4 : string) (now : Ledger.Timestamp)
    (st_size : App.Archive → Z) (repo : Tree)
    (credentials server_id format : string) (db : Auth.DB)
    : Response App.Archive * Auth.DB :=
  if negb (Auth.verify_api_key credentials false db) then
    (HTTPException 403 "Invalid API key", db)
  else
    let package : option App.Archive :=
      if decide (format = "zip") then Some (App.create_zip_package repo)
      else if decide (format = "tar.gz") then Some (App.create_tar_package repo)
      else None in
    match package with
    | None =>
        (HTTPException 400 "Unsupported format. Use 'zip' or 'tar.gz'", db)
    | Some package_path =>
        let logged :=
          log_deployment uuid4 now server_id "download_package" 0 0 true ""
            (st_size package_path) "0.0.0.0" db in
        (Ok package_path, logged.2)
    end.

(** [deploy_rules]: the identifier of the node is the header of the
    request, and [dict.get] supplies what the body leaves out. *)
Definition deploy_rules (uuid4 : string) (now : Ledger.Timestamp)
    (deployment_request : DeploymentRequest)
    (credentials server_id : string) (db : Auth.DB)
    : Response string * Auth.DB :=
  if negb (Auth.verify_api_key credentials false db) then
    (HTTPException 403 "Invalid API key", db)
  else
    let rules_count := default 0 (rules_count deployment_request) in
    let decoders_count := default 0 (decoders_count deployment_request) in
    let success := default false (success deployment_request) in
    let error_message := default "" (error deployment_request) in
    let logged :=
      log_deployment uuid4 now server_id "deploy" rules_count decoders_count
        success error_message 0 "0.0.0.0" db in
    (Ok logged.1, logged.2).

(** [get_deployment_statistics]. *)
Definition get_deployment_statistics (now : Ledger.Timestamp) (days : Z)
    (credentials : string) (db : Auth.DB) : Response Ledger.Stats * Auth.DB :=
  if negb (Auth.verify_api_key credentials true db) then
    (HTTPException 403 "Admin access required", db)
  else
    let stats := Ledger.get_deployment_stats now days (Auth.ledger db) in
    (Ok stats.1,
     {| Auth.ledger := stats.2; Auth.api_keys := Auth.api_keys db |}).

End Endpoints.

(** ** Histories of the database *)

(** One call of a function that opens the database. *)
Inductive Op : Type :=
  | OpRegister (sha256 : string → string) (now1 now2 now3 : Ledger.Timestamp)
      (server_id api_key description : string)
  | OpRevoke (now : Ledger.Timestamp) (api_key : string)
  | OpLatest (uuid4 : string) (now : Ledger.Timestamp)
      (st_size : App.Archive → Z) (repo : Tree)
      (credentials server_id format : string)
  | OpDeploy (uuid4 : string) (now : Ledger.Timestamp)
      (deployment_request : Endpoints.DeploymentRequest)
      (credentials server_id : string)
  | OpStatistics (now : Ledger.Timestamp) (days : Z) (credentials : string).

Definition step (db : Auth.DB) (op : Op) : Auth.DB :=
  match op with
  | OpRegister sha256 now1 now2 now3 server_id api_key description =>
      (Auth.register_server sha256 now1 now2 now3 server_id api_key
         description db).2
  | OpRevoke now api_key => (Auth.revoke_api_key now api_key db).2
  | OpLatest uuid4 now st_size repo credentials server_id format =>
      (Endpoints.get_latest_rules_package uuid4 now st_size repo credentials
         server_id format db).2
  | OpDeploy uuid4 now deployment_request credentials server_id =>
      (Endpoints.deploy_rules uuid4 now deployment_request credentials
         server_id db).2
  | OpStatistics now days credentials =>
      (Endpoints.get_deployment_statistics now days credentials db).2
  end.

Definition run_ops (db : Auth.DB) (ops : list Op) : Auth.DB := foldl step db ops.

(** What one call does to table [api_keys]: nothing, a new key that is
    active and not an administrator's, or the revocation of a key. *)
Lemma step_api_keys db op :
  Auth.api_keys (step db op) = Auth.api_keys db
  ∨ (∃ k r, Auth.api_keys db !! k = None
            ∧ Auth.is_admin r = 0 ∧ Auth.active r = 1
            ∧ Auth.api_keys (step db op) = <[k := r]> (Auth.api_keys db))
  ∨ (∃ k now, Auth.api_keys (step db op)
              = alter (Auth.revoked now) k (Auth.api_keys db)).
Proof.
  destruct op; cbn [step].
  - unfold Auth.register_server.
    destruct (Ledger.servers _ !! _); [by left|].
    destruct (Auth.api_keys db !! api_key) eqn:Hkey; [by left|].
    right; left.
    by exists api_key, (Auth.Build_KeyRow (sha256 api_key) (Some server_id)
                          0 1 now3 None).
  - right; right. by exists api_key, now.
  - left. unfold Endpoints.get_latest_rules_package.
    destruct (negb _); [done|]. repeat destruct (decide _); done.
  - left. unfold Endpoints.deploy_rules. by destruct (negb _).
  - left. unfold Endpoints.get_deployment_statistics. by destruct (negb _).
Qed.

(** What one call does to the ledger: nothing, one [log_deployment], or a
    new row of [servers] with counter 0 for a node that had none. *)
Lemma step_ledger db op :
  Auth.ledger (step db op) = Auth.ledger db
  ∨ (∃ c, Auth.ledger (step db op) = Ledger.apply_call (Auth.ledger db) c)
  ∨ (∃ sid row,
       Ledger.servers (Auth.ledger db) !! sid = None
       ∧ Ledger.deployment_count row = 0
       ∧ Auth.ledger (step db op)
         = {| Ledger.servers := <[sid := row]> (Ledger.servers (Auth.ledger db));
              Ledger.deployments := Ledger.deployments (Auth.ledger db) |}).
Proof.
  destruct op; cbn [step].
  - unfold Auth.register_server.
    destruct (Ledger.servers _ !! _) eqn:Hrow; [by left|].
    destruct (Auth.api_keys db !! api_key); [by left|].
    right; right.
    by exists server_id, (Auth.registered_row description now1 now2).
  - by left.
  - unfold Endpoints.get_latest_rules_package.
    destruct (negb _); [by left|].
    assert (Hlog : ∀ package : App.Archive,
              ∃ c, Auth.ledger
                     (Endpoints.log_deployment uuid4 now server_id
                        "download_package" 0 0 true "" (st_size package)
                        "0.0.0.0" db).2
                   = Ledger.apply_call (Auth.ledger db) c).
    { intros package.
      by exists {| Ledger.c_uuid := uuid4; Ledger.c_now := now;
                   Ledger.c_server_id := server_id;
                   Ledger.c_action := "download_package";
                   Ledger.c_rules := 0; Ledger.c_decoders := 0;
                   Ledger.c_success := true; Ledger.c_error := "";
                   Ledger.c_size := st_size package;
                   Ledger.c_ip := "0.0.0.0" |}. }
    repeat destruct (decide _); [right; left; apply Hlog..|by left].
  - unfold Endpoints.deploy_rules. destruct (negb _); [by left|].
    right; left.
    by exists {| Ledger.c_uuid := uuid4; Ledger.c_now := now;
                 Ledger.c_server_id := server_id; Ledger.c_action := "deploy";
                 Ledger.c_rules :=
                   default 0 (Endpoints.rules_count deployment_request);
                 Ledger.c_decoders :=
                   default 0 (Endpoints.decoders_count deployment_request);
                 Ledger.c_success :=
                   default false (Endpoints.success deployment_request);
                 Ledger.c_error :=
                   default "" (Endpoints.error deployment_request);
                 Ledger.c_size := 0; Ledger.c_ip := "0.0.0.0" |}.
  - left. unfold Endpoints.get_deployment_statistics. by destruct (negb _).
Qed.

Lemma run_ops_snoc db ops op : run_ops db (ops ++ [op]) = step (run_ops db ops) op.
Proof. unfold run_ops. by rewrite foldl_snoc. Qed.

Lemma selected_admin r : Auth.selected true r = true → Auth.selected false r = true.
Proof. unfold Auth.selected. by intros [_ ?]%andb_prop. Qed.

Lemma selected_inactive admin r : Auth.active r ≠ 1 → Auth.selected admin r = false.
Proof.
  intros Hne. unfold Auth.selected. rewrite (bool_decide_eq_false_2 _ Hne).
  destruct admin; [apply andb_false_r|done].
Qed.

(** X22.  [register_server] registers a node and its key together or not at
    all.  It returns [False] exactly when the node has a row in [servers]
    or the key a row in [api_keys], and then the database is as before;
    when it returns [True] the key is valid, not an administrator's, and
    the node has a row with counter 0 and no deployment of its own. *)
Theorem register_server_all_or_nothing (sha256 : string → string)
    (now1 now2 now3 : Ledger.Timestamp)
    (server_id api_key description : string) (db : Auth.DB) :
  let reg :=
    Auth.register_server sha256 now1 now2 now3 server_id api_key description
      db in
  (reg.1 = false
   ↔ is_Some (Ledger.servers (Auth.ledger db) !! server_id)
     ∨ is_Some (Auth.api_keys db !! api_key))
  ∧ (reg.1 = false → reg.2 = db)
  ∧ (reg.1 = true →
     Auth.verify_api_key api_key false reg.2 = true
     ∧ Auth.verify_api_key api_key true reg.2 = false
     ∧ Ledger.servers (Auth.ledger reg.2) !! server_id
       = Some (Auth.registered_row description now1 now2)
     ∧ Ledger.deployments (Auth.ledger reg.2)
       = Ledger.deployments (Auth.ledger db)).
Proof.
  intros reg. subst reg. unfold Auth.register_server.
  destruct (Ledger.servers (Auth.ledger db) !! server_id) as [row|] eqn:Hrow.
  { cbn [fst snd]. split_and!; [|done..]. split; [|done]. by left. }
  destruct (Auth.api_keys db !! api_key) as [r|] eqn:Hkey.
  { cbn [fst snd]. split_and!; [|done..]. split; [|done]. by right. }
  cbn [fst snd]. split_and!; [|done|].
  - split; [done|]. by intros [[? [=]]|[? [=]]].
  - intros _. unfold Auth.verify_api_key. cbn [Auth.api_keys Auth.ledger
      Ledger.servers Ledger.deployments].
    by rewrite !lookup_insert_eq.
Qed.

(** One call grants no administrator's right. *)
Lemma step_admin db op k :
  Auth.verify_api_key k true (step db op) = true →
  Auth.verify_api_key k true db = true.
Proof.
  unfold Auth.verify_api_key.
  destruct (step_api_keys db op)
    as [->|[(k' & r & Hnone & Hadmin & _ & ->)|(k' & now & ->)]]; [done| |].
  - destruct (decide (k = k')) as [->|Hne].
    + rewrite lookup_insert_eq. unfold Auth.selected.
      rewrite bool_decide_eq_false_2 by (rewrite Hadmin; done). done.
    + by rewrite lookup_insert_ne.
  - destruct (decide (k = k')) as [->|Hne].
    + rewrite lookup_alter_eq. destruct (Auth.api_keys db !! k'); [|done].
      cbn [fmap option_fmap option_map].
      by rewrite selected_inactive.
    + by rewrite lookup_alter_ne.
Qed.

(** X23.  No function of the server makes a key an administrator's: a key
    that passes the administrators' check after any history of calls passed
    it before.  So on a database that only the server has written to, the
    statistics endpoint answers 403 to every key. *)
Theorem no_call_grants_admin (ops : list Op) :
  (∀ db k, Auth.verify_api_key k true (run_ops db ops) = true →
           Auth.verify_api_key k true db = true)
  ∧ (∀ now days credentials,
       Endpoints.get_deployment_statistics now days credentials
         (run_ops Auth.init_db ops)
       = (Endpoints.HTTPException 403 "Admin access required",
          run_ops Auth.init_db ops)).
Proof.
  assert (Hadmin : ∀ db k,
            Auth.verify_api_key k true (run_ops db ops) = true →
            Auth.verify_api_key k true db = true).
  { induction ops as [|op ops IH] using rev_ind; intros db k; [done|].
    rewrite run_ops_snoc. intros Hk%step_admin. by apply IH. }
  split; [exact Hadmin|]. intros now days credentials.
  unfold Endpoints.get_deployment_statistics.
  destruct (Auth.verify_api_key credentials true (run_ops Auth.init_db ops))
    eqn:Hk; [|done].
  apply Hadmin in Hk. done.
Qed.

(** A key that is in the table and not active stays so. *)
Definition inactive (k : string) (db : Auth.DB) : Prop :=
  ∃ r, Auth.api_keys db !! k = Some r ∧ Auth.active r ≠ 1.

Lemma step_inactive db op k : inactive k db → inactive k (step db op).
Proof.
  intros (r & Hk & Hr). unfold inactive.
  destruct (step_api_keys db op)
    as [->|[(k' & r' & Hnone & _ & _ & ->)|(k' & now & ->)]].
  - by exists r.
  - exists r. rewrite lookup_insert_ne; [done|]. by intros ->; simplify_eq.
  - destruct (decide (k = k')) as [->|Hne].
    + exists (Auth.revoked now r). by rewrite lookup_alter_eq, Hk.
    + exists r. by rewrite lookup_alter_ne.
Qed.

(** X24.  A revocation that reports success is final: whatever is called
    afterwards, registrations with the same key included, the key passes
    neither check again. *)
Theorem revoked_key_stays_invalid (now : Ledger.Timestamp) (api_key : string)
    (db : Auth.DB) (ops : list Op) (admin : bool) :
  (Auth.revoke_api_key now api_key db).1 = true →
  Auth.verify_api_key api_key admin
    (run_ops (Auth.revoke_api_key now api_key db).2 ops) = false.
Proof.
  intros Hrevoked.
  assert (Hinactive : inactive api_key (Auth.revoke_api_key now api_key db).2).
  { revert Hrevoked. unfold Auth.revoke_api_key, inactive.
    cbn [fst snd Auth.api_keys]. rewrite lookup_alter_eq.
    destruct (Auth.api_keys db !! api_key) as [r|]; [|done].
    intros _. by exists (Auth.revoked now r). }
  assert (Hrun : inactive api_key
                   (run_ops (Auth.revoke_api_key now api_key db).2 ops)).
  { induction ops as [|op ops IH] using rev_ind; [done|].
    rewrite run_ops_snoc. by apply step_inactive. }
  destruct Hrun as (r & Hk & Hr). unfold Auth.verify_api_key.
  rewrite Hk. by apply selected_inactive.
Qed.

(** The counter of every node is the number of its rows in [deployments]. *)
Definition counters_match (l : Ledger.DB) : Prop :=
  ∀ sid,
    match Ledger.servers l !! sid with
    | Some row =>
        Ledger.deployment_count row
        = Z.of_nat (length (Ledger.records_for sid l))
    | None => Ledger.records_for sid l = []
    end.

Lemma apply_call_counters l c :
  counters_match l → counters_match (Ledger.apply_call l c).
Proof.
  intros Hl sid. specialize (Hl sid).
  assert (Hlen := Ledger.records_for_apply_call sid l c).
  destruct (decide (Ledger.c_server_id c = sid)) as [<-|Hne].
  - destruct (Ledger.servers l !! Ledger.c_server_id c) as [row|] eqn:Hrow.
    + rewrite (Ledger.apply_call_present _ _ _ Hrow), Hlen. cbn. lia.
    + rewrite (Ledger.apply_call_absent _ _ Hrow), Hlen, Hl. done.
  - rewrite Ledger.apply_call_other by done. rewrite Nat.add_0_r in Hlen.
    destruct (Ledger.servers l !! sid); [by rewrite Hlen|].
    apply nil_length_inv. by rewrite Hlen, Hl.
Qed.

Lemma step_counters db op :
  counters_match (Auth.ledger db) → counters_match (Auth.ledger (step db op)).
Proof.
  intros Hdb.
  destruct (step_ledger db op)
    as [->|[(c & ->)|(sid' & row & Hnone & Hcount & ->)]]; [done| |].
  - by apply apply_call_counters.
  - intros sid. specialize (Hdb sid). cbn [Ledger.servers].
    unfold Ledger.records_for in *. cbn [Ledger.deployments].
    destruct (decide (sid = sid')) as [->|Hne].
    + rewrite lookup_insert_eq. rewrite Hnone in Hdb. by rewrite Hdb, Hcount.
    + by rewrite lookup_insert_ne.
Qed.

(** X25.  After any history of registrations, revocations, downloads,
    reports and queries on a new database, the counter of every node in
    [servers] is the number of rows that [deployments] holds for the node,
    downloads included, and a node without a row in [servers] has none in
    [deployments]. *)
Theorem counters_match_rows (ops : list Op) (sid : string) :
  let l := Auth.ledger (run_ops Auth.init_db ops) in
  match Ledger.servers l !! sid with
  | Some row =>
      Ledger.deployment_count row
      = Z.of_nat (length (Ledger.records_for sid l))
  | None => Ledger.records_for sid l = []
  end.
Proof.
  intros l. subst l. revert sid.
  change (counters_match (Auth.ledger (run_ops Auth.init_db ops))).
  induction ops as [|op ops IH] using rev_ind; [done|].
  rewrite run_ops_snoc. by apply step_counters.
Qed.

(** What a successful registration leaves in the two tables. *)
Lemma register_server_fields sha256 now1 now2 now3 server_id api_key
    description db :
  (Auth.register_server sha256 now1 now2 now3 server_id api_key description
     db).1 = true →
  let db1 :=
    (Auth.register_server sha256 now1 now2 now3 server_id api_key description
       db).2 in
  Auth.verify_api_key api_key false db1 = true
  ∧ Ledger.servers (Auth.ledger db1) !! server_id
    = Some (Auth.registered_row description now1 now2).
Proof.
  unfold Auth.register_server.
  destruct (Ledger.servers (Auth.ledger db) !! server_id); [done|].
  destruct (Auth.api_keys db !! api_key); [done|].
  intros _. cbn [snd]. unfold Auth.verify_api_key.
  cbn [Auth.api_keys Auth.ledger Ledger.servers].
  by rewrite !lookup_insert_eq.
Qed.

(** A database with one registered node, for the examples. *)
Definition example_digest (api_key : string) : string := "sha256:" +:+ api_key.

Definition registered_db : Auth.DB :=
  (Auth.register_server example_digest 10 11 12 "node-1" "key-1" "first node"
     Auth.init_db).2.

Lemma revoked_key_stays_invalid_witness :
  (Auth.revoke_api_key 20 "key-1" registered_db).1 = true
  ∧ Auth.verify_api_key "key-1" false
      (run_ops (Auth.revoke_api_key 20 "key-1" registered_db).2
         [OpRegister example_digest 30 31 32 "node-2" "key-1" ""]) = false.
Proof.
  split; [vm_compute; reflexivity|].
  apply (revoked_key_stays_invalid 20 "key-1" registered_db
           [OpRegister example_digest 30 31 32 "node-2" "key-1" ""] false).
  vm_compute. reflexivity.
Defined.

(** X26.  A node that was registered before its first report has its first
    successful deployment recorded: after [register_server] and a report of
    success sent with the node's key and identifier, the row of the node
    has counter 1, [last_success] at the time of the report, and
    [first_seen] at the time of the registration. *)
Theorem registered_first_success_is_recorded (sha256 : string → string)
    (now1 now2 now3 : Ledger.Timestamp)
    (server_id api_key description : string) (db : Auth.DB)
    (uuid4 : string) (now : Ledger.Timestamp)
    (deployment_request : Endpoints.DeploymentRequest) :
  (Auth.register_server sha256 now1 now2 now3 server_id api_key description
     db).1 = true →
  Endpoints.success deployment_request = Some true →
  let db1 :=
    (Auth.register_server sha256 now1 now2 now3 server_id api_key description
       db).2 in
  let answer :=
    Endpoints.deploy_rules uuid4 now deployment_request api_key server_id
      db1 in
  answer.1 = Endpoints.Ok uuid4
  ∧ Ledger.servers (Auth.ledger answer.2) !! server_id
    = Some {| Ledger.description := Some description;
              Ledger.first_seen := now1;
              Ledger.last_seen := now;
              Ledger.deployment_count := 1;
              Ledger.last_success := Some now;
              Ledger.is_active := 1 |}.
Proof.
  intros Hreg Hsuccess db1 answer. subst answer db1.
  destruct (register_server_fields sha256 now1 now2 now3 server_id api_key
              description db Hreg) as (Hverify & Hrow).
  unfold Endpoints.deploy_rules. rewrite Hverify. cbn [negb fst snd].
  split; [done|]. unfold Endpoints.log_deployment. cbn [snd Auth.ledger].
  rewrite (Ledger.log_deployment_present _ _ _ _ _ _ _ _ _ _ _ _ Hrow).
  by rewrite Hsuccess.
Qed.

Lemma registered_first_success_is_recorded_witness :
  let request :=
    {| Endpoints.rules_count := Some 3; Endpoints.decoders_count := Some 1;
       Endpoints.success := Some true; Endpoints.error := Some "" |} in
  let answer :=
    Endpoints.deploy_rules "u1" 100 request "key-1" "node-1" registered_db in
  answer.1 = Endpoints.Ok "u1"
  ∧ Ledger.servers (Auth.ledger answer.2) !! "node-1"
    = Some {| Ledger.description := Some "first node";
              Ledger.first_seen := 10;
              Ledger.last_seen := 100;
              Ledger.deployment_count := 1;
              Ledger.last_success := Some 100;
              Ledger.is_active := 1 |}.
Proof.
  intros request.
  apply (registered_first_success_is_recorded example_digest 10 11 12
           "node-1" "key-1" "first node" Auth.init_db "u1" 100 request).
  - vm_compute. reflexivity.
  - reflexivity.
Defined.

(** The rows of [servers] are never deleted. *)
Lemma step_servers db op sid :
  is_Some (Ledger.servers (Auth.ledger db) !! sid) →
  is_Some (Ledger.servers (Auth.ledger (step db op)) !! sid).
Proof.
  intros [row Hrow].
  destruct (step_ledger db op)
    as [->|[(c & ->)|(sid' & row' & Hnone & _ & ->)]]; [done| |].
  - destruct (decide (sid = Ledger.c_server_id c)) as [->|Hne].
    + by rewrite (Ledger.apply_call_present _ _ _ Hrow).
    + by rewrite Ledger.apply_call_other, Hrow.
  - cbn [Ledger.servers]. rewrite lookup_insert_ne; [by rewrite Hrow|].
    intros <-. simplify_eq.
Qed.

(** X27.  The identifier under which a report is recorded is the one of the
    request's header, whichever node the key was issued to; and once a node
    has a row in [servers], made by a report or by a download, every later
    [register_server] for it returns [False] and changes nothing. *)
Theorem reported_node_cannot_register (uuid4 : string) (now : Ledger.Timestamp)
    (deployment_request : Endpoints.DeploymentRequest)
    (credentials server_id : string) (db : Auth.DB) (ops : list Op)
    (sha256 : string → string) (now1 now2 now3 : Ledger.Timestamp)
    (api_key description : string) :
  Auth.verify_api_key credentials false db = true →
  let db1 :=
    (Endpoints.deploy_rules uuid4 now deployment_request credentials
       server_id db).2 in
  is_Some (Ledger.servers (Auth.ledger db1) !! server_id)
  ∧ Auth.register_server sha256 now1 now2 now3 server_id api_key description
      (run_ops db1 ops)
    = (false, run_ops db1 ops).
Proof.
  intros Hverify db1.
  assert (Hrow : is_Some (Ledger.servers (Auth.ledger db1) !! server_id)).
  { subst db1. unfold Endpoints.deploy_rules. rewrite Hverify.
    cbn [negb snd]. unfold Endpoints.log_deployment. cbn [snd Auth.ledger].
    destruct (Ledger.servers (Auth.ledger db) !! server_id) as [row|] eqn:Hrow.
    - by rewrite (Ledger.log_deployment_present _ _ _ _ _ _ _ _ _ _ _ _ Hrow).
    - by rewrite (Ledger.log_deployment_absent _ _ _ _ _ _ _ _ _ _ _ Hrow). }
  split; [done|].
  assert (Hrun : is_Some (Ledger.servers (Auth.ledger (run_ops db1 ops))
                            !! server_id)).
  { clearbody db1. induction ops as [|op ops IH] using rev_ind; [done|].
    rewrite run_ops_snoc. by apply step_servers. }
  unfold Auth.register_server. by destruct Hrun as [row ->].
Qed.

Lemma reported_node_cannot_register_witness :
  let request :=
    {| Endpoints.rules_count := None; Endpoints.decoders_count := None;
       Endpoints.success := None; Endpoints.error := None |} in
  let db1 :=
    (Endpoints.deploy_rules "u1" 100 request "key-1" "node-9"
       registered_db).2 in
  Auth.verify_api_key "key-1" false registered_db = true
  ∧ is_Some (Ledger.servers (Auth.ledger db1) !! "node-9")
  ∧ Auth.register_server example_digest 200 201 202 "node-9" "key-9" ""
      (run_ops db1 [OpRevoke 150 "key-1"])
    = (false, run_ops db1 [OpRevoke 150 "key-1"]).
Proof.
  intros request db1.
  assert (Hverify : Auth.verify_api_key "key-1" false registered_db = true)
    by (vm_compute; reflexivity).
  split; [exact Hverify|].
  apply (reported_node_cannot_register "u1" 100 request "key-1" "node-9"
           registered_db [OpRevoke 150 "key-1"] example_digest 200 201 202
           "key-9" "").
  exact Hverify.
Defined.

Lemma sql_sum_snoc xs x :
  Ledger.sql_sum (xs ++ [x]) = Some (default 0 (Ledger.sql_sum xs) + x).
Proof.
  assert (Hfold : foldr Z.add 0 (xs ++ [x]) = foldr Z.add 0 xs + x).
  { induction xs as [|y xs IH]; cbn [app foldr]; lia. }
  unfold Ledger.sql_sum. destruct xs as [|y xs].
  - cbn. f_equal. lia.
  - cbn [default from_option id]. by rewrite <-Hfold.
Qed.

(** X28.  Every download of a package is counted as a successful
    deployment: after a download with a valid key, the statistics of a
    window that holds the time of the download show one deployment more and
    one success more than before, and a number of failures that is no
    longer NULL. *)
Theorem download_counts_as_success (uuid4 : string) (now : Ledger.Timestamp)
    (st_size : App.Archive → Z) (repo : Tree)
    (credentials server_id format : string) (db : Auth.DB)
    (now' : Ledger.Timestamp) (days : Z) :
  Auth.verify_api_key credentials false db = true →
  format = "zip" ∨ format = "tar.gz" →
  now' - days * Ledger.microseconds_per_day ≤ now →
  let db1 :=
    (Endpoints.get_latest_rules_package uuid4 now st_size repo credentials
       server_id format db).2 in
  let before := (Ledger.get_deployment_stats now' days (Auth.ledger db)).1 in
  let after := (Ledger.get_deployment_stats now' days (Auth.ledger db1)).1 in
  Ledger.total_deployments after = Ledger.total_deployments before + 1
  ∧ Ledger.successful after = Some (default 0 (Ledger.successful before) + 1)
  ∧ Ledger.failed after = Some (default 0 (Ledger.failed before)).
Proof.
  intros Hverify Hformat Hwindow db1 before after.
  assert (Hrows : ∃ row,
            Ledger.deployments (Auth.ledger db1)
            = Ledger.deployments (Auth.ledger db) ++ [row]
            ∧ Ledger.timestamp row = now ∧ Ledger.success row = 1).
  { subst db1. unfold Endpoints.get_latest_rules_package. rewrite Hverify.
    cbn [negb].
    destruct Hformat as [->| ->]; cbn [decide]; by eexists. }
  destruct Hrows as (row & Hrows & Htime & Hsuccess).
  subst before after. unfold Ledger.get_deployment_stats.
  cbn [fst snd Ledger.total_deployments Ledger.successful Ledger.failed].
  rewrite Hrows. unfold Ledger.in_window.
  rewrite filter_app, filter_cons, filter_nil.
  rewrite decide_True by (by rewrite Htime).
  rewrite !fmap_app. cbn [fmap list_fmap]. rewrite !sql_sum_snoc.
  unfold Ledger.sql_count. rewrite length_app. cbn [length].
  unfold Ledger.case_success. rewrite Hsuccess.
  rewrite decide_True by done. rewrite decide_False by done.
  split_and!; [lia|done|]. f_equal. lia.
Qed.

Lemma download_counts_as_success_witness :
  let db1 :=
    (Endpoints.get_latest_rules_package "u1" 100 (λ _, 2048) bundle "key-1"
       "node-1" "zip" registered_db).2 in
  let before :=
    (Ledger.get_deployment_stats 200 7 (Auth.ledger registered_db)).1 in
  let after := (Ledger.get_deployment_stats 200 7 (Auth.ledger db1)).1 in
  Ledger.total_deployments after = Ledger.total_deployments before + 1
  ∧ Ledger.successful after = Some (default 0 (Ledger.successful before) + 1)
  ∧ Ledger.failed after = Some (default 0 (Ledger.failed before)).
Proof.
  intros db1.
  apply (download_counts_as_success "u1" 100 (λ _, 2048) bundle "key-1"
           "node-1" "zip" registered_db 200 7).
  - vm_compute. reflexivity.
  - left. reflexivity.
  - vm_compute. discriminate.
Defined.



(** ** The headers of the puller's requests *)

(** Names of HTTP headers are compared without regard to case: the server
    sees a request's headers under their lower-case names. *)
Definition lower_ascii (a : Ascii.ascii) : Ascii.ascii :=
  let n := Ascii.nat_of_ascii a in
  if (65 <=? n)%nat && (n <=? 90)%nat then Ascii.ascii_of_nat (n + 32) else a.

Fixpoint lower (s : string) : string :=
  match s with
  | EmptyString => EmptyString
  | String a s' => String (lower_ascii a) (lower s')
  end.

Notation Headers := (gmap string string).

Definition received (headers : list (string * string)) : Headers :=
  list_to_map ((λ h, (lower h.1, h.2)) <$> headers).

(** [self.headers] of [WazuhAPIPuller.__init__]. *)
Definition puller_headers (api_key server_id : string)
    : list (string * string) :=
  [ ("Authorization", "Bearer " +:+ api_key);
    ("X-Server-ID", server_id);
    ("User-Agent", "Wazuh-API-Puller/" +:+ server_id) ].

(** A parameter declared with [Header(...)] is read from the header whose
    name is the parameter's, with every underscore turned into a hyphen. *)
Fixpoint convert_underscores (s : string) : string :=
  match s with
  | EmptyString => EmptyString
  | String a s' =>
      (if decide (String a EmptyString = "_") then "-"
       else String a EmptyString)
      +:+ convert_underscores s'
  end.

Definition Header (param : string) (headers : Headers) : option string :=
  headers !! lower (convert_underscores param).

(** The two routes with a required [server_id: str = Header(...)], for a
    request whose bearer token is [credentials]: without the header the
    framework answers 422 and the endpoint is not run. *)
Definition route_rules_latest (uuid4 : string) (now : Ledger.Timestamp)
    (st_size : App.Archive → Z) (repo : Tree) (credentials : string)
    (headers : Headers) (format : string) (db : Auth.DB)
    : Endpoints.Response App.Archive * Auth.DB :=
  match Header "server_id" headers with
  | None => (Endpoints.RequestValidationError, db)
  | Some server_id =>
      Endpoints.get_latest_rules_package uuid4 now st_size repo credentials
        server_id format db
  end.

Definition route_deploy (uuid4 : string) (now : Ledger.Timestamp)
    (deployment_request : Endpoints.DeploymentRequest) (credentials : string)
    (headers : Headers) (db : Auth.DB) : Endpoints.Response string * Auth.DB :=
  match Header "server_id" headers with
  | None => (Endpoints.RequestValidationError, db)
  | Some server_id =>
      Endpoints.deploy_rules uuid4 now deployment_request credentials
        server_id db
  end.

(** X30.  The puller names its node in header [X-Server-ID], the two
    endpoints that require the node's identifier read header [server-id]:
    whatever the key and the identifier, the download and the report of the
    API based puller are answered with 422 and recorded nowhere. *)
Theorem puller_requests_are_not_recorded (api_key server_id : string)
    (db : Auth.DB) :
  let headers := received (puller_headers api_key server_id) in
  (∀ uuid4 now st_size repo credentials format,
     route_rules_latest uuid4 now st_size repo credentials headers format db
     = (Endpoints.RequestValidationError, db))
  ∧ (∀ uuid4 now deployment_request credentials,
       route_deploy uuid4 now deployment_request credentials headers db
       = (Endpoints.RequestValidationError, db)).
Proof.
  intros headers.
  assert (Hnone : Header "server_id" headers = None).
  { subst headers. unfold Header, received, puller_headers.
    cbn [fmap list_fmap list_to_map foldr fst snd].
    rewrite !lookup_insert_ne by (by vm_compute). done. }
  split; intros; unfold route_rules_latest, route_deploy; by rewrite Hnone.
Qed.

(** * Calls that stand outside every handler *)

(** The embedding of the two pullers above takes the calls that no [try] of
    the program covers to succeed, and a failing Git to leave the working
    copy as it was.  This part follows the functions that make these calls
    once more, with what can go wrong there: the [mkdir] of the backup
    directory, the commands of Git one by one and the decoding of their
    error output, the two totals read from the listing, and [mkdtemp].  The
    functions they call are the ones embedded above. *)

Inductive GitCommand := GitFetch | GitCheckout | GitPull | GitClone.

(** How one [subprocess.run(["git", ...], check=True, capture_output=True)]
    ends: [CalledProcessError] is raised unless the return code is 0, and
    the working copy is what the command made of it, also when it failed. *)
Record GitAnswer := {
  returncode : Z;
  work_tree : option Tree → option Tree;
  stderr_decodes : bool      (* its stderr is empty or valid UTF-8 *)
}.

(** The decoded body of the answer to [GET /rules]: a JSON object with its
    keys, or another JSON value with its truth value and the message of the
    [TypeError] that subscripting it with a string raises. *)
Inductive Body :=
  | BodyObject (keys : list string)
  | BodyOther (truth : bool) (type_error : string).

Record Hazards := {
  backup_mkdir_fault : bool;           (* self.backup_dir.mkdir(...) raises *)
  git : GitCommand → GitAnswer;
  listing : option Body;               (* what get_available_files returns *)
  mkdtemp_fault : bool                 (* tempfile.mkdtemp() raises *)
}.

(** [bool(available)]. *)
Definition truthy (b : Body) : bool :=
  match b with
  | BodyObject keys => negb (bool_decide (keys = []))
  | BodyOther truth _ => truth
  end.

(** [available[key]]. *)
Definition subscript (b : Body) (key : string) : M unit :=
  match b with
  | BodyObject keys =>
      if bool_decide (key ∈ keys) then mret tt else raise (KeyError key)
  | BodyOther _ type_error => raise (TypeError type_error)
  end.

Module PullRulesIO.

Definition backup_current (hz : Hazards) (env : Env) : M bool :=
  if negb (create_backup env) then mret true
  else
    emit EvBackup;;
    (* self.backup_dir.mkdir(parents=True, exist_ok=True), before the try *)
    if backup_mkdir_fault hz then raise (OSError "mkdir failed")
    else
      b ← gets backup_dir;
      set_backup_dir (Some (default empty_tree b));;
      try_except
        (t ← gets live;
         match subdir Rules t with
         | Some _ => PullRules.copytree_to_backup env Rules
         | None => mret tt
         end;;
         match subdir Decoders t with
         | Some _ => PullRules.copytree_to_backup env Decoders
         | None => mret tt
         end;;
         mret true)
        (λ _, mret false).

Definition run_git (hz : Hazards) (c : GitCommand) : M unit :=
  r ← gets repo_dir;
  set_repo_dir (work_tree (git hz c) r);;
  if bool_decide (returncode (git hz c) = 0) then mret tt
  else raise (CalledProcessError "git returned non-zero exit status"
                (stderr_decodes (git hz c))).

(** The first handler prints [e.stderr.decode()], which raises inside the
    handler when the bytes are not UTF-8; every other exception ends in the
    second handler.  (A failing [os.chdir] or [mkdir] of the parent ends
    there too, as a command with an empty stderr does.) *)
Definition clone_or_pull_repo (hz : Hazards) : M bool :=
  emit EvGit;;
  try_except
    (r ← gets repo_dir;
     match r with
     | Some _ =>
         run_git hz GitFetch;;
         run_git hz GitCheckout;;
         run_git hz GitPull
     | None =>
         run_git hz GitClone;;
         run_git hz GitCheckout
     end;;
     mret true)
    (λ e,
       match e with
       | CalledProcessError _ false =>
           raise (UnicodeDecodeError "invalid start byte")
       | _ => mret false
       end).

Definition pull_and_deploy (hz : Hazards) (env : Env) (force : bool) : M bool :=
  (* Step 1: Backup *)
  backed_up ← backup_current hz env;
  if negb backed_up && negb force then mret false
  else
    (* Step 2: Update repository *)
    updated ← clone_or_pull_repo hz;
    if negb updated then mret false
    else
      (* Step 3 and 4 *)
      deploy_step env.

End PullRulesIO.

Module ApiPullerIO.

Definition backup_current (hz : Hazards) (env : Env) : M bool :=
  if negb (create_backup env) then mret true
  else
    emit EvBackup;;
    (* self.backup_dir.mkdir(parents=True, exist_ok=True), before the try *)
    if backup_mkdir_fault hz then raise (OSError "mkdir failed")
    else
      b ← gets backup_dir;
      set_backup_dir (Some (default empty_tree b));;
      try_except
        (t ← gets live;
         match subdir Rules t with
         | Some _ => ApiPuller.cp_to_backup env Rules
         | None => mret tt
         end;;
         match subdir Decoders t with
         | Some _ => ApiPuller.cp_to_backup env Decoders
         | None => mret tt
         end;;
         mret true)
        (λ _, mret false).

(** The decoded body of a 200 answer, [None] otherwise. *)
Definition get_available_files (hz : Hazards) : M (option Body) :=
  emit EvApiList;; mret (listing hz).

(** [tempfile.mkdtemp()] stands before the [try] of [extract_package]. *)
Definition extract_package (hz : Hazards) (env : Env) : M bool :=
  if mkdtemp_fault hz then raise (OSError "mkdtemp failed")
  else ApiPuller.extract_package env.

Definition pull_and_deploy (hz : Hazards) (env : Env) (force : bool) : M bool :=
  (* Step 1: Check API connectivity *)
  available ← get_available_files hz;
  match available with
  | None => mret false
  | Some body =>
      if negb (truthy body) then mret false
      else
        (* the two totals of the message that is printed *)
        subscript body "total_rules";;
        subscript body "total_decoders";;
        (* Step 2: Backup *)
        backed_up ← backup_current hz env;
        if negb backed_up && negb force then mret false
        else
          (* Step 3: Download package *)
          package_content ← ApiPuller.download_package env;
          if negb package_content then mret false
          else
            (* Step 4: Extract *)
            extracted ← extract_package hz env;
            if negb extracted then mret false
            else
              (* Step 5 to 7 *)
              api_deploy_step env
  end.

End ApiPullerIO.

(** The hazards that the embedding above assumes: no call outside a handler
    fails, Git succeeds in every command or fails in its first one, quietly
    and without a change, and the listing has its five keys. *)
Definition calm (env : Env) : Hazards :=
  {| backup_mkdir_fault := false;
     git := λ _,
       {| returncode := match git_result env with Some _ => 0 | None => 1 end;
          work_tree := λ r, match git_result env with Some t => Some t | None => r end;
          stderr_decodes := true |};
     listing :=
       if api_available env
       then Some (BodyObject ["rules"; "decoders"; "total_rules";
                              "total_decoders"; "timestamp"])
       else None;
     mkdtemp_fault := false |}.

Lemma pull_rules_io_backup hz env :
  PullRulesIO.backup_current hz env
  = if create_backup env && backup_mkdir_fault hz
    then emit EvBackup;; raise (OSError "mkdir failed")
    else PullRules.backup_current env.
Proof.
  unfold PullRulesIO.backup_current, PullRules.backup_current.
  by destruct (create_backup env), (backup_mkdir_fault hz).
Qed.

Lemma api_puller_io_backup hz env :
  ApiPullerIO.backup_current hz env
  = if create_backup env && backup_mkdir_fault hz
    then emit EvBackup;; raise (OSError "mkdir failed")
    else ApiPuller.backup_current env.
Proof.
  unfold ApiPullerIO.backup_current, ApiPuller.backup_current.
  by destruct (create_backup env), (backup_mkdir_fault hz).
Qed.

Lemma clone_or_pull_repo_calm env w :
  PullRulesIO.clone_or_pull_repo (calm env) w = PullRules.clone_or_pull_repo env w.
Proof.
  unfold PullRulesIO.clone_or_pull_repo, PullRulesIO.run_git,
    PullRules.clone_or_pull_repo.
  destruct w as [? ? [r|] ? ? ? ?]; destruct (git_result env) as [t|] eqn:Hgit;
    run; rewrite ?Hgit; by vm_compute.
Qed.

(** With these hazards the two embeddings agree. *)
Lemma pull_rules_io_calm env force w :
  PullRulesIO.pull_and_deploy (calm env) env force w
  = PullRules.pull_and_deploy env force w.
Proof.
  unfold PullRulesIO.pull_and_deploy. rewrite pull_and_deploy_eq.
  rewrite pull_rules_io_backup. cbn [calm backup_mkdir_fault].
  rewrite andb_false_r, !bind_eq.
  destruct (PullRules.backup_current env w) as [[ok|e] w1]; [|done].
  destruct (negb ok && negb force); [done|].
  by rewrite !bind_eq, clone_or_pull_repo_calm.
Qed.

Lemma api_puller_io_calm env force w :
  ApiPullerIO.pull_and_deploy (calm env) env force w
  = ApiPuller.pull_and_deploy env force w.
Proof.
  unfold ApiPullerIO.pull_and_deploy, ApiPuller.pull_and_deploy,
    ApiPullerIO.get_available_files, ApiPuller.get_available_files,
    ApiPullerIO.extract_package.
  rewrite api_puller_io_backup. cbn [calm backup_mkdir_fault mkdtemp_fault listing].
  rewrite andb_false_r, !bind_eq. cbn [emit modify mret M_ret].
  destruct (api_available env); [|done].
  cbn [truthy negb bool_decide]. done.
Qed.

(** The run reads two keys of the listing. *)
Definition has_totals (b : Body) : bool :=
  match b with
  | BodyObject keys =>
      bool_decide ("total_rules" ∈ keys) && bool_decide ("total_decoders" ∈ keys)
  | BodyOther _ _ => false
  end.

Lemma subscript_totals body w :
  has_totals body = true →
  subscript body "total_rules" w = (Ret tt, w)
  ∧ subscript body "total_decoders" w = (Ret tt, w).
Proof.
  destruct body as [keys|]; [|done]. cbn [has_totals subscript].
  by intros [-> ->]%andb_prop.
Qed.

(** Steps 2 to 7 of the API based puller. *)
Definition api_after_listing (hz : Hazards) (env : Env) (force : bool) : M bool :=
  backed_up ← ApiPullerIO.backup_current hz env;
  if negb backed_up && negb force then mret false
  else
    package_content ← ApiPuller.download_package env;
    if negb package_content then mret false
    else
      extracted ← ApiPullerIO.extract_package hz env;
      if negb extracted then mret false else api_deploy_step env.

(** The run for each kind of listing. *)
Lemma api_io_run_eq hz env force w :
  ApiPullerIO.pull_and_deploy hz env force w
  = let w1 := (emit EvApiList w).2 in
    match listing hz with
    | None => (Ret false, w1)
    | Some body =>
        if negb (truthy body) then (Ret false, w1)
        else
          match body with
          | BodyObject keys =>
              if bool_decide ("total_rules" ∈ keys) then
                if bool_decide ("total_decoders" ∈ keys)
                then api_after_listing hz env force w1
                else (Raise (KeyError "total_decoders"), w1)
              else (Raise (KeyError "total_rules"), w1)
          | BodyOther _ type_error => (Raise (TypeError type_error), w1)
          end
    end.
Proof.
  unfold ApiPullerIO.pull_and_deploy, ApiPullerIO.get_available_files.
  rewrite !bind_eq. cbn [emit modify mret M_ret snd].
  destruct (listing hz) as [[keys|truth type_error]|]; [| |done].
  - destruct (negb _); [done|]. cbn [subscript]. rewrite bind_eq.
    destruct (bool_decide ("total_rules" ∈ keys)); [|done].
    cbn [mret M_ret]. rewrite bind_eq.
    by destruct (bool_decide ("total_decoders" ∈ keys)).
  - by destruct (negb _).
Qed.

Lemma api_io_run_totals hz env force w body :
  listing hz = Some body → truthy body = true → has_totals body = true →
  ApiPullerIO.pull_and_deploy hz env force w
  = api_after_listing hz env force (emit EvApiList w).2.
Proof.
  intros Hlisting Htruthy Htotals. rewrite api_io_run_eq, Hlisting, Htruthy.
  destruct body as [keys|]; [|done]. cbn [has_totals] in Htotals.
  apply andb_prop in Htotals as [-> ->]. done.
Qed.

(** A node on which the backup directory cannot be made. *)
Definition no_backup_dir : Hazards :=
  {| backup_mkdir_fault := true;
     git := git (calm fair_env);
     listing := listing (calm fair_env);
     mkdtemp_fault := false |}.

(** C6, where the code departs from it.  Backups are configured and the
    [mkdir] of the backup directory fails.  The call stands before the [try]
    of [backup_current], so the exception leaves [backup_current] and
    [pull_and_deploy] with it, in both pullers and whatever [force] is: a
    forced run does not go on without a backup, it ends there, before
    anything is fetched. *)
Theorem backup_mkdir_failure_stops_forced_run (hz : Hazards) (env : Env)
    (force : bool) (w : World) (body : Body) :
  create_backup env = true →
  backup_mkdir_fault hz = true →
  listing hz = Some body → truthy body = true → has_totals body = true →
  ((PullRulesIO.pull_and_deploy hz env force w).1
   = Raise (OSError "mkdir failed")
   ∧ live (PullRulesIO.pull_and_deploy hz env force w).2 = live w
   ∧ repo_dir (PullRulesIO.pull_and_deploy hz env force w).2 = repo_dir w
   ∧ trace (PullRulesIO.pull_and_deploy hz env force w).2
     = trace w ++ [EvBackup])
  ∧ ((ApiPullerIO.pull_and_deploy hz env force w).1
     = Raise (OSError "mkdir failed")
     ∧ live (ApiPullerIO.pull_and_deploy hz env force w).2 = live w
     ∧ trace (ApiPullerIO.pull_and_deploy hz env force w).2
       = trace w ++ [EvApiList; EvBackup]).
Proof.
  intros Hcfg Hmkdir Hlisting Htruthy Htotals. split.
  - unfold PullRulesIO.pull_and_deploy.
    rewrite pull_rules_io_backup, Hcfg, Hmkdir. by run.
  - rewrite (api_io_run_totals hz env force w body) by done.
    unfold api_after_listing.
    rewrite bind_eq, api_puller_io_backup, Hcfg, Hmkdir. run.
    by rewrite <-app_assoc.
Qed.

Lemma backup_mkdir_failure_stops_forced_run_witness :
  ((PullRulesIO.pull_and_deploy no_backup_dir fair_env true node_world).1
   = Raise (OSError "mkdir failed")
   ∧ live (PullRulesIO.pull_and_deploy no_backup_dir fair_env true
             node_world).2 = live node_world
   ∧ repo_dir (PullRulesIO.pull_and_deploy no_backup_dir fair_env true
                 node_world).2 = repo_dir node_world
   ∧ trace (PullRulesIO.pull_and_deploy no_backup_dir fair_env true
              node_world).2 = trace node_world ++ [EvBackup])
  ∧ ((ApiPullerIO.pull_and_deploy no_backup_dir fair_env true node_world).1
     = Raise (OSError "mkdir failed")
     ∧ live (ApiPullerIO.pull_and_deploy no_backup_dir fair_env true
               node_world).2 = live node_world
     ∧ trace (ApiPullerIO.pull_and_deploy no_backup_dir fair_env true
                node_world).2 = trace node_world ++ [EvApiList; EvBackup]).
Proof.
  apply (backup_mkdir_failure_stops_forced_run no_backup_dir fair_env true
           node_world
           (BodyObject ["rules"; "decoders"; "total_rules"; "total_decoders";
                        "timestamp"])).
  - reflexivity.
  - reflexivity.
  - reflexivity.
  - reflexivity.
  - vm_compute. reflexivity.
Defined.

(** Where [backup_current] returns [False], a copy having failed, the run
    does what C6 says: without [force] it returns [False] in the world the
    backup attempt left, and with [force] it is the rest of the run, made in
    that world. *)
Lemma backup_returning_false_aborts_unless_forced hz env w :
  (PullRulesIO.backup_current hz env w).1 = Ret false →
  PullRulesIO.pull_and_deploy hz env false w
  = (Ret false, (PullRulesIO.backup_current hz env w).2)
  ∧ live (PullRulesIO.backup_current hz env w).2 = live w
  ∧ trace (PullRulesIO.backup_current hz env w).2 = trace w ++ [EvBackup]
  ∧ PullRulesIO.pull_and_deploy hz env true w
    = (updated ← PullRulesIO.clone_or_pull_repo hz;
       if negb updated then mret false else deploy_step env)
        (PullRulesIO.backup_current hz env w).2.
Proof.
  intros Hfalse. unfold PullRulesIO.pull_and_deploy. rewrite !bind_eq.
  revert Hfalse. rewrite pull_rules_io_backup.
  destruct (create_backup env && backup_mkdir_fault hz); [by run|].
  intros Hfalse.
  assert (Htr := pull_rules_backup_failed env w Hfalse).
  assert (Hlive := pull_rules_backup_live env w).
  destruct (PullRules.backup_current env w) as [r w1]. cbn in Hfalse. by subst r.
Qed.

Lemma api_backup_returning_false_aborts_unless_forced hz env w :
  (ApiPullerIO.backup_current hz env w).1 = Ret false →
  api_after_listing hz env false w
  = (Ret false, (ApiPullerIO.backup_current hz env w).2)
  ∧ live (ApiPullerIO.backup_current hz env w).2 = live w
  ∧ trace (ApiPullerIO.backup_current hz env w).2 = trace w ++ [EvBackup]
  ∧ api_after_listing hz env true w
    = (package_content ← ApiPuller.download_package env;
       if negb package_content then mret false
       else
         extracted ← ApiPullerIO.extract_package hz env;
         if negb extracted then mret false else api_deploy_step env)
        (ApiPullerIO.backup_current hz env w).2.
Proof.
  intros Hfalse. unfold api_after_listing. rewrite !bind_eq.
  revert Hfalse. rewrite api_puller_io_backup.
  destruct (create_backup env && backup_mkdir_fault hz); [by run|].
  intros Hfalse.
  assert (Htr := api_backup_failed env w Hfalse).
  assert (Hlive := api_backup_live env w).
  destruct (ApiPuller.backup_current env w) as [r w1]. cbn in Hfalse. by subst r.
Qed.

(** ** Which exceptions leave a run *)

Lemma deploy_step_returns env :
  log_writable env = true → returns (deploy_step env).
Proof.
  intros Hlog.
  assert (Hwrite : ∀ s rc dc err,
            returns (PullRules.log_deployment env s rc dc err)).
  { intros. unfold PullRules.log_deployment. rewrite Hlog.
    unfold append_log. repeat returns_step. }
  unfold deploy_step.
  repeat first
    [ apply pull_rules_rollback_returns
    | apply Hwrite
    | returns_step ].
Qed.

Lemma api_deploy_step_returns env : returns (api_deploy_step env).
Proof.
  unfold api_deploy_step.
  repeat first [ apply api_report_returns | returns_step ].
Qed.

(** How [clone_or_pull_repo] ends, by the first command that fails. *)
Definition git_sequence (r : option Tree) : list GitCommand :=
  match r with
  | Some _ => [GitFetch; GitCheckout; GitPull]
  | None => [GitClone; GitCheckout]
  end.

Definition git_succeeds (hz : Hazards) (r : option Tree) : bool :=
  forallb (λ c, bool_decide (returncode (git hz c) = 0)) (git_sequence r).

(** One command of the sequence: it fails, with an error output that
    decodes or not, or the next one runs. *)
Ltac git_case c :=
  destruct (bool_decide (returncode (git _ c) = 0)); cbn;
    [|let Hd := fresh "Hd" in
      destruct (stderr_decodes (git _ c)) eqn:Hd; cbn;
      (repeat split; eauto;
       let Hdec := fresh "Hdec" in intros Hdec; rewrite Hdec in Hd; done)].

Lemma clone_or_pull_repo_ends hz w :
  let end_ := PullRulesIO.clone_or_pull_repo hz w in
  live end_.2 = live w
  ∧ log_file end_.2 = log_file w
  ∧ backup_dir end_.2 = backup_dir w
  ∧ observed end_.2 = observed w
  ∧ trace end_.2 = trace w ++ [EvGit]
  ∧ (if git_succeeds hz (repo_dir w) then end_.1 = Ret true
     else end_.1 = Ret false
          ∨ end_.1 = Raise (UnicodeDecodeError "invalid start byte"))
  ∧ ((∀ c, stderr_decodes (git hz c) = true) → ∃ b, end_.1 = Ret b).
Proof.
  unfold PullRulesIO.clone_or_pull_repo, PullRulesIO.run_git, git_succeeds.
  destruct w as [? ? [r|] ? ? ? ?]; cbn [git_sequence forallb repo_dir]; run.
  - git_case GitFetch. git_case GitCheckout. git_case GitPull.
    repeat split; eauto.
  - git_case GitClone. git_case GitCheckout. repeat split; eauto.
Qed.




(** Git fails in its second command, with an error output that decodes,
    after the first has changed the working copy. *)
Definition checkout_fails (left : Tree) : Hazards :=
  {| backup_mkdir_fault := false;
     git := λ c,
       match c with
       | GitCheckout =>
           {| returncode := 1; work_tree := λ r, r; stderr_decodes := true |}
       | _ =>
           {| returncode := 0; work_tree := λ _, Some left;
              stderr_decodes := true |}
       end;
     listing := None;
     mkdtemp_fault := false |}.


(** X5.  One of Git's commands fails (fetch, checkout or pull on an
    existing working copy, clone or checkout on a new one): the run of the
    Git based puller does not return [True]; the live tree and the log are as
    they were, [deploy_files] is not entered and nothing is restarted.  The
    run returns [False] when the backup directory could be made and Git's
    error output decodes.  The working copy is what the commands made of it
    before the failure. *)
Theorem git_failure_leaves_live_untouched (hz : Hazards) (env : Env)
    (force : bool) (w : World) :
  git_succeeds hz (repo_dir w) = false →
  (PullRulesIO.pull_and_deploy hz env force w).1 ≠ Ret true
  ∧ live (PullRulesIO.pull_and_deploy hz env force w).2 = live w
  ∧ log_file (PullRulesIO.pull_and_deploy hz env force w).2 = log_file w
  ∧ restarts (PullRulesIO.pull_and_deploy hz env force w).2 = restarts w
  ∧ (EvDeploy ∉ drop (length (trace w))
                  (trace (PullRulesIO.pull_and_deploy hz env force w).2))
  ∧ ((create_backup env = false ∨ backup_mkdir_fault hz = false) →
     (∀ c, stderr_decodes (git hz c) = true) →
     (PullRulesIO.pull_and_deploy hz env force w).1 = Ret false).
Proof.
  intros Hgit. unfold PullRulesIO.pull_and_deploy.
  rewrite bind_eq, pull_rules_io_backup.
  destruct (create_backup env && backup_mkdir_fault hz) eqn:Hmk.
  { apply andb_prop in Hmk as [Hcfg Hfault]. run.
    split; [done|]. split; [done|]. split; [done|]. split.
    { unfold restarts. cbn [trace]. rewrite filter_app, length_app.
      rewrite filter_cons_False, filter_nil by done. cbn [length]. lia. }
    split; [rewrite drop_app_length; set_solver|].
    intros [Hc|Hf]; congruence. }
  destruct (pull_rules_backup_returns env w) as (ok & Hok & Htr).
  assert (Hlive := pull_rules_backup_live env w).
  assert (Hst := pull_rules_backup_stores_but_backup env w).
  assert (Hn := pull_rules_backup_restarts env w).
  unfold preserving in *.
  destruct (PullRules.backup_current env w) as [r w1]. cbn in *. subst r.
  injection Hst as Hrepo _ Hlog.
  assert (Hnew : EvDeploy ∉ (if create_backup env then [EvBackup] else [])).
  { destruct (create_backup env); set_solver. }
  destruct (negb ok && negb force).
  { cbn. repeat split; try done. by rewrite Htr, drop_app_length. }
  rewrite bind_eq.
  destruct (clone_or_pull_repo_ends hz w1)
    as (Hlive2 & Hlog2 & _ & _ & Htr2 & Hend & Hdec).
  rewrite Hrepo, Hgit in Hend.
  destruct (PullRulesIO.clone_or_pull_repo hz w1) as [r w2]. cbn in *.
  assert (Hquiet : live w2 = live w ∧ log_file w2 = log_file w
                   ∧ restarts w2 = restarts w
                   ∧ EvDeploy ∉ drop (length (trace w)) (trace w2)).
  { split; [congruence|]. split; [congruence|]. split.
    - unfold restarts in *. rewrite Htr2, filter_app, length_app.
      rewrite filter_cons_False, filter_nil by done. cbn [length]. lia.
    - rewrite Htr2, Htr, <-app_assoc, drop_app_length. set_solver. }
  destruct Hquiet as (? & ? & ? & ?).
  destruct Hend as [-> | ->]; cbn; repeat split; try done.
  intros _ Hdecodes. by destruct (Hdec Hdecodes).
Qed.

Lemma git_failure_leaves_live_untouched_witness :
  let run :=
    PullRulesIO.pull_and_deploy (checkout_fails bundle) fair_env false
      node_world in
  run.1 ≠ Ret true
  ∧ live run.2 = live node_world
  ∧ log_file run.2 = log_file node_world
  ∧ restarts run.2 = restarts node_world
  ∧ (EvDeploy ∉ drop (length (trace node_world)) (trace run.2))
  ∧ ((create_backup fair_env = false
      ∨ backup_mkdir_fault (checkout_fails bundle) = false) →
     (∀ c, stderr_decodes (git (checkout_fails bundle) c) = true) →
     run.1 = Ret false).
Proof.
  intros run.
  apply (git_failure_leaves_live_untouched (checkout_fails bundle) fair_env
           false node_world).
  vm_compute. reflexivity.
Defined.
